(** * SREC Connect: the in-memory store, the session resolver, the live
      connection registry and the route handlers of [server/routes.ts] and
      [server/storage.ts], embedded as pure state-passing functions.

    Conventions of the embedding:
    - a JavaScript [Map] is an insertion-ordered association list
      ([JsMap]): [Array.from(m.values()).find(...)] depends on that order;
    - [randomUUID()] and [new Date()] are inputs of the operation that
      calls them;
    - a [jsonb] column ([clubs], [members], [attendees], [interested]) is
      either an array of strings or some other JSON value, because the code
      guards every read with [Array.isArray];
    - an absent object field ([undefined]) is [None]. *)

From Stdlib Require Import String Ascii List Bool ZArith Lia Arith.
From Stdlib Require Import Sorting.Permutation Sorting.Sorted.
Import ListNotations.
Open Scope string_scope.
Open Scope list_scope.
Set Implicit Arguments.

(* ------------------------------------------------------------------ *)
(** ** Keys with decidable equality *)

Class EqKey (K : Type) := {
  keq : K -> K -> bool;
  keq_spec : forall a b, keq a b = true <-> a = b
}.

#[export] Instance string_EqKey : EqKey string :=
  {| keq := String.eqb; keq_spec := String.eqb_eq |}.

Definition option_eqb {K} `{EqKey K} (a b : option K) : bool :=
  match a, b with
  | Some x, Some y => keq x y
  | None, None => true
  | _, _ => false
  end.

Lemma option_eqb_spec {K} `{EqKey K} (a b : option K) :
  option_eqb a b = true <-> a = b.
Proof.
  destruct a as [x|], b as [y|]; simpl; try (split; congruence).
  rewrite keq_spec. split; congruence.
Qed.

#[export] Instance option_EqKey {K} `{EqKey K} : EqKey (option K) :=
  {| keq := option_eqb; keq_spec := option_eqb_spec |}.

Lemma keq_refl {K} `{EqKey K} (a : K) : keq a a = true.
Proof. now apply keq_spec. Qed.

Lemma keq_neq {K} `{EqKey K} (a b : K) : a <> b -> keq a b = false.
Proof.
  intros Hne. destruct (keq a b) eqn:E; [|reflexivity].
  apply keq_spec in E. contradiction.
Qed.

Lemma keq_false {K} `{EqKey K} (a b : K) : keq a b = false -> a <> b.
Proof. intros E Heq. apply keq_spec in Heq. congruence. Qed.

Lemma keq_sym {K} `{EqKey K} (a b : K) : keq a b = keq b a.
Proof.
  destruct (keq a b) eqn:E.
  - apply keq_spec in E. subst. now rewrite keq_refl.
  - symmetry. apply keq_neq. intros ->. now rewrite keq_refl in E.
Qed.

(* ------------------------------------------------------------------ *)
(** ** The JavaScript [Map]: insertion-ordered, one entry per key *)

Module JsMap.
Section Defs.
Context {K V : Type} `{EqKey K}.

Definition t := list (K * V).

Definition empty : list (K * V) := [].

(** [m.get(k)] *)
Fixpoint get (k : K) (m : list (K * V)) : option V :=
  match m with
  | [] => None
  | (k', v) :: r => if keq k k' then Some v else get k r
  end.

(** [m.set(k, v)]: an existing key keeps its position, a new key goes
    last. *)
Fixpoint set (k : K) (v : V) (m : list (K * V)) : list (K * V) :=
  match m with
  | [] => [(k, v)]
  | (k', v') :: r =>
      if keq k k' then (k, v) :: r else (k', v') :: set k v r
  end.

(** [m.delete(k)]: the map after the call. *)
Fixpoint delete (k : K) (m : list (K * V)) : list (K * V) :=
  match m with
  | [] => []
  | (k', v') :: r => if keq k k' then r else (k', v') :: delete k r
  end.

(** [m.has(k)], also the result of [m.delete(k)]. *)
Definition has (k : K) (m : list (K * V)) : bool :=
  match get k m with Some _ => true | None => false end.

(** [Array.from(m.values())], [Array.from(m.keys())],
    [Array.from(m.entries())] *)
Definition values (m : list (K * V)) : list V := map snd m.
Definition keys (m : list (K * V)) : list K := map fst m.
Definition entries (m : list (K * V)) : list (K * V) := m.

(** How many entries a key has; a real [Map] never has more than one. *)
Definition count (k : K) (m : list (K * V)) : nat :=
  length (filter (fun e => keq k (fst e)) m).

Definition wf (m : list (K * V)) : Prop := NoDup (keys m).

End Defs.
End JsMap.

Arguments JsMap.t : clear implicits.

(* ------------------------------------------------------------------ *)
(** ** Data model ([shared/schema.ts]) *)

(** A [jsonb] column that should hold an array of strings. *)
Inductive jsonb : Type :=
| JArray (xs : list string)
| JOther.

(** [Array.isArray(x) ? x : []] *)
Definition arrayOrEmpty (x : jsonb) : list string :=
  match x with JArray xs => xs | JOther => [] end.

(** [Array.isArray(x) ? x.length : 0] *)
Definition lengthOrZero (x : jsonb) : nat :=
  match x with JArray xs => length xs | JOther => 0 end.

(** [xs.includes(x)] *)
Definition includes (xs : list string) (x : string) : bool :=
  existsb (String.eqb x) xs.

(** [xs.filter(y => y !== x)] *)
Definition without (x : string) (xs : list string) : list string :=
  filter (fun y => negb (String.eqb y x)) xs.

(** [xs.push(x)] *)
Definition push (xs : list string) (x : string) : list string := xs ++ [x].

Module User.
Record t := mk {
  id : string;
  name : string;
  email : string;
  password : string;
  role : string;
  clubs : jsonb;
  avatar : option string;
  createdAt : Z;
  isVerified : option bool   (* not in the schema; added by the register route *)
}.
End User.

(** [Partial<User>]: every field may be absent. *)
Module PartialUser.
Record t := mk {
  id : option string;
  name : option string;
  email : option string;
  password : option string;
  role : option string;
  clubs : option jsonb;
  avatar : option (option string);
  createdAt : option Z;
  isVerified : option bool
}.
Definition none : t := mk None None None None None None None None None.
End PartialUser.

(** [InsertUser] as the register routes pass it to [createUser]. The
    fields [clubs] and [avatar] of the schema are overwritten by
    [createUser] and are left out. *)
Module InsertUser.
Record t := mk {
  name : string;
  email : string;
  password : string;
  role : string;
  isVerified : option bool
}.
End InsertUser.

Module Club.
Record t := mk {
  id : string;
  name : string;
  description : option string;
  category : string;
  adminId : option string;
  members : jsonb;
  createdAt : Z
}.
End Club.

Module InsertClub.
Record t := mk {
  name : string;
  description : option string;
  category : string;
  adminId : option string
}.
End InsertClub.

Module Event.
Record t := mk {
  id : string;
  title : string;
  description : string;
  date : Z;
  venue : string;
  club : option string;
  type : string;
  organizerId : option string;
  organizerName : string;
  image : option string;
  attendees : jsonb;
  interested : jsonb;
  createdAt : Z
}.
End Event.

Module InsertEvent.
Record t := mk {
  title : string;
  description : string;
  date : Z;
  venue : string;
  club : option string;
  type : string;
  organizerId : option string;
  organizerName : string;
  image : option string
}.
End InsertEvent.

Module PartialEvent.
Record t := mk {
  id : option string;
  title : option string;
  description : option string;
  date : option Z;
  venue : option string;
  club : option (option string);
  type : option string;
  organizerId : option (option string);
  organizerName : option string;
  image : option (option string);
  attendees : option jsonb;
  interested : option jsonb;
  createdAt : option Z
}.
End PartialEvent.

Module EventWithDetails.
Record t := mk {
  event : Event.t;
  attendeeCount : nat;
  interestedCount : nat;
  isAttending : option bool;
  isInterested : option bool
}.
End EventWithDetails.

Module Notification.
Record t := mk {
  id : string;
  userId : option string;
  title : string;
  message : string;
  type : string;
  read : bool;
  eventId : option string;
  createdAt : Z
}.
End Notification.

Module InsertNotification.
Record t := mk {
  userId : option string;
  title : string;
  message : string;
  type : string;
  eventId : option string
}.
End InsertNotification.

(** [a || b] on an optional string: an empty string is falsy too. *)
Definition orNull (a : option string) : option string :=
  match a with
  | Some "" => None
  | other => other
  end.

(** One field of [{ ...obj, ...updates }]. *)
Definition spread {A} (old : A) (upd : option A) : A :=
  match upd with Some x => x | None => old end.

(* ------------------------------------------------------------------ *)
(** ** [MemStorage] ([server/storage.ts]) *)

Module MemStorage.

Record t := mk {
  users : JsMap.t string User.t;
  events : JsMap.t string Event.t;
  clubs : JsMap.t string Club.t;
  notifications : JsMap.t string Notification.t
}.

Definition with_users (u : JsMap.t string User.t) (s : t) : t :=
  mk u (events s) (clubs s) (notifications s).
Definition with_events (e : JsMap.t string Event.t) (s : t) : t :=
  mk (users s) e (clubs s) (notifications s).
Definition with_clubs (c : JsMap.t string Club.t) (s : t) : t :=
  mk (users s) (events s) c (notifications s).
Definition with_notifications (n : JsMap.t string Notification.t) (s : t) : t :=
  mk (users s) (events s) (clubs s) n.

(** The five default clubs of [initializeDefaultClubs]. *)
Definition defaultClubs : list InsertClub.t :=
  [ InsertClub.mk "Coding Club" (Some "Programming and software development") "Technical" None;
    InsertClub.mk "Robotics Club" (Some "Robotics and automation projects") "Technical" None;
    InsertClub.mk "Cultural Society" (Some "Arts, music, and cultural activities") "Cultural" None;
    InsertClub.mk "Sports Club" (Some "Athletic and sports activities") "Sports" None;
    InsertClub.mk "Photography Club" (Some "Photography and visual arts") "Creative" None ].

(** [defaultClubs.forEach(club => this.clubs.set(id, {...}))]; [ids] are
    the successive results of [randomUUID()]. *)
Fixpoint initializeDefaultClubs (cs : list InsertClub.t) (ids : list string)
    (now : Z) (m : JsMap.t string Club.t) : JsMap.t string Club.t :=
  match cs, ids with
  | c :: cs', id :: ids' =>
      initializeDefaultClubs cs' ids' now
        (JsMap.set id
           (Club.mk id (InsertClub.name c)
              (orNull (InsertClub.description c))
              (InsertClub.category c) None (JArray []) now) m)
  | _, _ => m
  end.

(** [new MemStorage()] *)
Definition init (ids : list string) (now : Z) : t :=
  mk JsMap.empty JsMap.empty
     (initializeDefaultClubs defaultClubs ids now JsMap.empty)
     JsMap.empty.

(** *** User methods *)

Definition getUser (id : string) (s : t) : option User.t :=
  JsMap.get id (users s).

Definition getUserByEmail (email : string) (s : t) : option User.t :=
  find (fun user => String.eqb (User.email user) email)
       (JsMap.values (users s)).

Definition createUser (id : string) (now : Z) (insertUser : InsertUser.t)
    (s : t) : User.t * t :=
  let user :=
    User.mk id (InsertUser.name insertUser) (InsertUser.email insertUser)
      (InsertUser.password insertUser) (InsertUser.role insertUser)
      (JArray []) None now (InsertUser.isVerified insertUser) in
  (user, with_users (JsMap.set id user (users s)) s).

(** [{ ...user, ...updates }] *)
Definition mergeUser (user : User.t) (updates : PartialUser.t) : User.t :=
  User.mk
    (spread (User.id user) (PartialUser.id updates))
    (spread (User.name user) (PartialUser.name updates))
    (spread (User.email user) (PartialUser.email updates))
    (spread (User.password user) (PartialUser.password updates))
    (spread (User.role user) (PartialUser.role updates))
    (spread (User.clubs user) (PartialUser.clubs updates))
    (spread (User.avatar user) (PartialUser.avatar updates))
    (spread (User.createdAt user) (PartialUser.createdAt updates))
    (match PartialUser.isVerified updates with
     | Some b => Some b
     | None => User.isVerified user
     end).

Definition updateUser (id : string) (updates : PartialUser.t) (s : t)
    : option User.t * t :=
  match JsMap.get id (users s) with
  | None => (None, s)
  | Some user =>
      let updatedUser := mergeUser user updates in
      (Some updatedUser, with_users (JsMap.set id updatedUser (users s)) s)
  end.

(** *** Event methods *)

Definition getEvents (s : t) : list EventWithDetails.t :=
  map (fun event =>
         EventWithDetails.mk event
           (lengthOrZero (Event.attendees event))
           (lengthOrZero (Event.interested event))
           None None)
      (JsMap.values (events s)).

Definition getEventById (id : string) (s : t) : option Event.t :=
  JsMap.get id (events s).

Definition createEvent (id : string) (now : Z) (insertEvent : InsertEvent.t)
    (s : t) : Event.t * t :=
  let event :=
    Event.mk id (InsertEvent.title insertEvent)
      (InsertEvent.description insertEvent) (InsertEvent.date insertEvent)
      (InsertEvent.venue insertEvent) (InsertEvent.club insertEvent)
      (if String.eqb (InsertEvent.type insertEvent) ""
       then "college" else InsertEvent.type insertEvent)
      (InsertEvent.organizerId insertEvent)
      (InsertEvent.organizerName insertEvent)
      (orNull (InsertEvent.image insertEvent))
      (JArray []) (JArray []) now in
  (event, with_events (JsMap.set id event (events s)) s).

Definition mergeEvent (event : Event.t) (updates : PartialEvent.t) : Event.t :=
  Event.mk
    (spread (Event.id event) (PartialEvent.id updates))
    (spread (Event.title event) (PartialEvent.title updates))
    (spread (Event.description event) (PartialEvent.description updates))
    (spread (Event.date event) (PartialEvent.date updates))
    (spread (Event.venue event) (PartialEvent.venue updates))
    (spread (Event.club event) (PartialEvent.club updates))
    (spread (Event.type event) (PartialEvent.type updates))
    (spread (Event.organizerId event) (PartialEvent.organizerId updates))
    (spread (Event.organizerName event) (PartialEvent.organizerName updates))
    (spread (Event.image event) (PartialEvent.image updates))
    (spread (Event.attendees event) (PartialEvent.attendees updates))
    (spread (Event.interested event) (PartialEvent.interested updates))
    (spread (Event.createdAt event) (PartialEvent.createdAt updates)).

Definition updateEvent (id : string) (updates : PartialEvent.t) (s : t)
    : option Event.t * t :=
  match JsMap.get id (events s) with
  | None => (None, s)
  | Some event =>
      let updatedEvent := mergeEvent event updates in
      (Some updatedEvent, with_events (JsMap.set id updatedEvent (events s)) s)
  end.

Definition deleteEvent (id : string) (s : t) : bool * t :=
  (JsMap.has id (events s), with_events (JsMap.delete id (events s)) s).

(** *** Club methods *)

Definition getClubs (s : t) : list Club.t := JsMap.values (clubs s).

Definition getClubByName (name : string) (s : t) : option Club.t :=
  find (fun club => String.eqb (Club.name club) name)
       (JsMap.values (clubs s)).

Definition createClub (id : string) (now : Z) (insertClub : InsertClub.t)
    (s : t) : Club.t * t :=
  let club :=
    Club.mk id (InsertClub.name insertClub)
      (orNull (InsertClub.description insertClub))
      (InsertClub.category insertClub)
      (orNull (InsertClub.adminId insertClub))
      (JArray []) now in
  (club, with_clubs (JsMap.set id club (clubs s)) s).

Definition setMembers (club : Club.t) (members : jsonb) : Club.t :=
  Club.mk (Club.id club) (Club.name club) (Club.description club)
    (Club.category club) (Club.adminId club) members (Club.createdAt club).

(** [{ isVerified: true }] *)
Definition verifiedUpdate : PartialUser.t :=
  PartialUser.mk None None None None None None None None (Some true).

(** [{ clubs: cs }] *)
Definition clubsUpdate (cs : jsonb) : PartialUser.t :=
  PartialUser.mk None None None None None (Some cs) None None None.

Definition joinClub (userId clubName : string) (s : t) : bool * t :=
  match getUser userId s, getClubByName clubName s with
  | Some user, Some club =>
      (* Add club to user's clubs *)
      let userClubs := arrayOrEmpty (User.clubs user) in
      let s1 :=
        if negb (includes userClubs clubName)
        then snd (updateUser userId
                    (clubsUpdate (JArray (push userClubs clubName))) s)
        else s in
      (* Add user to club members *)
      let clubMembers := arrayOrEmpty (Club.members club) in
      let s2 :=
        if negb (includes clubMembers userId)
        then with_clubs
               (JsMap.set (Club.id club)
                  (setMembers club (JArray (push clubMembers userId)))
                  (clubs s1)) s1
        else s1 in
      (true, s2)
  | _, _ => (false, s)
  end.

Definition leaveClub (userId clubName : string) (s : t) : bool * t :=
  match getUser userId s, getClubByName clubName s with
  | Some user, Some club =>
      (* Remove club from user's clubs *)
      let userClubs := arrayOrEmpty (User.clubs user) in
      let updatedUserClubs := without clubName userClubs in
      let s1 := snd (updateUser userId
                       (clubsUpdate (JArray updatedUserClubs)) s) in
      (* Remove user from club members *)
      let clubMembers := arrayOrEmpty (Club.members club) in
      let updatedClubMembers := without userId clubMembers in
      (true,
       with_clubs
         (JsMap.set (Club.id club)
            (setMembers club (JArray updatedClubMembers)) (clubs s1)) s1)
  | _, _ => (false, s)
  end.

(** *** RSVP methods *)

Definition setRsvp (event : Event.t) (attendees interested : jsonb) : Event.t :=
  Event.mk (Event.id event) (Event.title event) (Event.description event)
    (Event.date event) (Event.venue event) (Event.club event)
    (Event.type event) (Event.organizerId event)
    (Event.organizerName event) (Event.image event)
    attendees interested (Event.createdAt event).

Definition rsvpEvent (userId eventId type : string) (s : t) : bool * t :=
  match JsMap.get eventId (events s) with
  | None => (false, s)
  | Some event =>
      let attendees := arrayOrEmpty (Event.attendees event) in
      let interested := arrayOrEmpty (Event.interested event) in
      (* Remove from both lists first *)
      let newAttendees := without userId attendees in
      let newInterested := without userId interested in
      (* Add to appropriate list *)
      let updatedEvent :=
        if String.eqb type "attending"
        then setRsvp event (JArray (push newAttendees userId))
                           (JArray newInterested)
        else setRsvp event (JArray newAttendees)
                           (JArray (push newInterested userId)) in
      (true, with_events (JsMap.set eventId updatedEvent (events s)) s)
  end.

Definition unrsvpEvent (userId eventId : string) (s : t) : bool * t :=
  match JsMap.get eventId (events s) with
  | None => (false, s)
  | Some event =>
      let attendees := arrayOrEmpty (Event.attendees event) in
      let interested := arrayOrEmpty (Event.interested event) in
      let updatedEvent :=
        setRsvp event (JArray (without userId attendees))
                      (JArray (without userId interested)) in
      (true, with_events (JsMap.set eventId updatedEvent (events s)) s)
  end.

(** *** Notification methods *)

(** Stable insertion for [sort((a, b) => b.createdAt - a.createdAt)]:
    newest first, equal timestamps keep their order. *)
Fixpoint insertNewestFirst (n : Notification.t) (l : list Notification.t)
    : list Notification.t :=
  match l with
  | [] => [n]
  | m :: r =>
      if Z.leb (Notification.createdAt m) (Notification.createdAt n)
      then n :: m :: r
      else m :: insertNewestFirst n r
  end.

Definition sortNewestFirst (l : list Notification.t) : list Notification.t :=
  fold_right insertNewestFirst [] l.

Definition getNotifications (userId : string) (s : t) : list Notification.t :=
  sortNewestFirst
    (filter (fun notification =>
               option_eqb (Notification.userId notification) (Some userId))
            (JsMap.values (notifications s))).

Definition createNotification (id : string) (now : Z)
    (insertNotification : InsertNotification.t) (s : t)
    : Notification.t * t :=
  let notification :=
    Notification.mk id
      (orNull (InsertNotification.userId insertNotification))
      (InsertNotification.title insertNotification)
      (InsertNotification.message insertNotification)
      (InsertNotification.type insertNotification)
      false
      (orNull (InsertNotification.eventId insertNotification))
      now in
  (notification,
   with_notifications (JsMap.set id notification (notifications s)) s).

(** [{ ...notification, read: true }] *)
Definition setRead (n : Notification.t) : Notification.t :=
  Notification.mk (Notification.id n) (Notification.userId n)
    (Notification.title n) (Notification.message n) (Notification.type n)
    true (Notification.eventId n) (Notification.createdAt n).

Definition markNotificationRead (id : string) (s : t) : bool * t :=
  match JsMap.get id (notifications s) with
  | None => (false, s)
  | Some notification =>
      (true,
       with_notifications
         (JsMap.set id (setRead notification) (notifications s)) s)
  end.

Definition markAllNotificationsRead (userId : string) (s : t) : bool * t :=
  let userNotifications := getNotifications userId s in
  (true,
   with_notifications
     (fold_left
        (fun m notification =>
           JsMap.set (Notification.id notification) (setRead notification) m)
        userNotifications (notifications s)) s).

(** *** Reading one side of a relationship *)

Definition attendeesOf (eventId : string) (s : t) : list string :=
  match JsMap.get eventId (events s) with
  | Some event => arrayOrEmpty (Event.attendees event)
  | None => []
  end.

Definition interestedOf (eventId : string) (s : t) : list string :=
  match JsMap.get eventId (events s) with
  | Some event => arrayOrEmpty (Event.interested event)
  | None => []
  end.

Definition clubsOf (userId : string) (s : t) : list string :=
  match getUser userId s with
  | Some user => arrayOrEmpty (User.clubs user)
  | None => []
  end.

Definition membersOf (clubName : string) (s : t) : list string :=
  match getClubByName clubName s with
  | Some club => arrayOrEmpty (Club.members club)
  | None => []
  end.

End MemStorage.

(* ------------------------------------------------------------------ *)
(** ** JSON values sent to clients *)

Module Json.
#[warnings="-register-all"] Inductive t : Type :=
| Null
| Bool (b : bool)
| Num (z : Z)
| Str (s : string)
| Arr (xs : list t)
| Obj (fields : list (string * t)).

Definition optStr (o : option string) : t :=
  match o with Some s => Str s | None => Null end.

(** [obj[key]] *)
Fixpoint field (key : string) (fields : list (string * t)) : option t :=
  match fields with
  | [] => None
  | (k, v) :: r => if String.eqb key k then Some v else field key r
  end.

Definition prop (key : string) (j : t) : option t :=
  match j with Obj fields => field key fields | _ => None end.
End Json.

(** A persisted notification as [JSON.stringify] writes it. *)
Definition notificationJson (n : Notification.t) : Json.t :=
  Json.Obj
    [ ("id", Json.Str (Notification.id n));
      ("userId", Json.optStr (Notification.userId n));
      ("title", Json.Str (Notification.title n));
      ("message", Json.Str (Notification.message n));
      ("type", Json.Str (Notification.type n));
      ("read", Json.Bool (Notification.read n));
      ("eventId", Json.optStr (Notification.eventId n));
      ("createdAt", Json.Num (Notification.createdAt n)) ].

(* ------------------------------------------------------------------ *)
(** ** Signed tokens ([jsonwebtoken]), symbolically *)

Module Jwt.
(** The two fields the server reads from a decoded payload. *)
Record Claims := mkClaims {
  userId : option string;
  email : option string
}.

(** A token is either something signed with a key, carrying a payload and
    an expiry instant (seconds), or a string that is no token at all. *)
Inductive token : Type :=
| Signed (payload : Claims) (key : string) (exp : Z)
| Garbage (raw : string).

(** [jwt.sign(payload, secret, { expiresIn })] at time [now] *)
Definition sign (payload : Claims) (secret : string) (expiresIn now : Z) : token :=
  Signed payload secret (now + expiresIn).

(** [jwt.verify(token, secret)] at time [now]; [None] when it throws. *)
Definition verify (tok : token) (secret : string) (now : Z) : option Claims :=
  match tok with
  | Signed payload key exp =>
      if String.eqb key secret && Z.ltb now exp then Some payload else None
  | Garbage _ => None
  end.

Definition days7 : Z := 604800.
Definition hours24 : Z := 86400.
End Jwt.

(* ------------------------------------------------------------------ *)
(** ** The live connection registry ([wss], [clients]) *)

Module Ws.
Inductive ReadyState := CONNECTING | OPEN | CLOSING | CLOSED.

Definition isOpen (r : ReadyState) : bool :=
  match r with OPEN => true | _ => false end.

(** A [WebSocket] object: its state and the frames sent through it. *)
Record Socket := mkSocket {
  readyState : ReadyState;
  sent : list Json.t
}.

(** Connection handles; [client === ws] is equality of handles. *)
Definition conn := nat.

Record t := mk {
  clients : JsMap.t (option string) conn;   (* key [None]: [undefined] *)
  sockets : conn -> Socket
}.

Definition updSocket (ws : conn) (sk : Socket) (f : conn -> Socket) : conn -> Socket :=
  fun c => if Nat.eqb c ws then sk else f c.

(** A frame received from a client, after [JSON.parse]. *)
Inductive Frame : Type :=
| Unparseable                                   (* [JSON.parse] throws *)
| Data (type : string) (token : option Jwt.token).  (* [None]: no or falsy [token] *)

(** A fresh server: no registration, every socket connecting. *)
Definition init : t := mk JsMap.empty (fun _ => mkSocket CONNECTING []).

(** The connection [ws] is accepted by the server. *)
Definition onConnection (ws : conn) (w : t) : t :=
  mk (clients w) (updSocket ws (mkSocket OPEN []) (sockets w)).

(** [ws.close()] *)
Definition close (ws : conn) (w : t) : t :=
  let sk := sockets w ws in
  match readyState sk with
  | CLOSED => w
  | _ => mk (clients w) (updSocket ws (mkSocket CLOSING (sent sk)) (sockets w))
  end.

(** [ws.on("message", ...)] *)
Definition onMessage (JWT_SECRET : string) (now : Z) (ws : conn)
    (message : Frame) (w : t) : t :=
  match message with
  | Data type (Some token) =>
      if String.eqb type "auth" then
        match Jwt.verify token JWT_SECRET now with
        | Some decoded => mk (JsMap.set (Jwt.userId decoded) ws (clients w)) (sockets w)
        | None => close ws w
        end
      else w
  | _ => w
  end.

(** The loop of the close handler: delete the first entry whose client is
    [ws], then [break]. *)
Fixpoint firstKeyOf (ws : conn) (entries : list (option string * conn))
    : option (option string) :=
  match entries with
  | [] => None
  | (userId, client) :: r =>
      if Nat.eqb client ws then Some userId else firstKeyOf ws r
  end.

(** [ws.on("close", ...)]; the socket is closed when the event fires. *)
Definition onClose (ws : conn) (w : t) : t :=
  let sockets' :=
    updSocket ws (mkSocket CLOSED (sent (sockets w ws))) (sockets w) in
  match firstKeyOf ws (JsMap.entries (clients w)) with
  | Some userId => mk (JsMap.delete userId (clients w)) sockets'
  | None => mk (clients w) sockets'
  end.

(** The frame [{ type: "notification", data: notification }]. *)
Definition notificationFrame (notification : Json.t) : Json.t :=
  Json.Obj [("type", Json.Str "notification"); ("data", notification)].

(** [broadcastNotification(userId, notification)] *)
Definition broadcastNotification (userId : string) (notification : Json.t)
    (w : t) : t :=
  match JsMap.get (Some userId) (clients w) with
  | Some client =>
      let sk := sockets w client in
      if isOpen (readyState sk)
      then mk (clients w)
              (updSocket client
                 (mkSocket (readyState sk)
                    (sent sk ++ [notificationFrame notification]))
                 (sockets w))
      else w
  | None => w
  end.

(** Whether [broadcastNotification] reaches a socket, and which. *)
Definition recipient (userId : string) (w : t) : option conn :=
  match JsMap.get (Some userId) (clients w) with
  | Some client =>
      if isOpen (readyState (sockets w client)) then Some client else None
  | None => None
  end.
End Ws.

(* ------------------------------------------------------------------ *)
(** ** The route handlers ([registerRoutes]) *)

(** [const { password, ...userWithoutPassword } = user] *)
Module PublicUser.
Record t := mk {
  id : string;
  name : string;
  email : string;
  role : string;
  clubs : jsonb;
  avatar : option string;
  createdAt : Z;
  isVerified : option bool
}.
End PublicUser.

Definition omitPassword (user : User.t) : PublicUser.t :=
  PublicUser.mk (User.id user) (User.name user) (User.email user)
    (User.role user) (User.clubs user) (User.avatar user)
    (User.createdAt user) (User.isVerified user).

Module Http.
Inductive Body : Type :=
| Message (text : string)
| ErrorMessage                      (* [error?.message] of a thrown error *)
| AuthResponse (user : PublicUser.t) (token : Jwt.token)
| UserJson (user : PublicUser.t)
| EventJson (event : Event.t)
| EventsJson (events : list EventWithDetails.t)
| ClubsJson (clubs : list Club.t)
| NotificationsJson (notifications : list Notification.t).

Record Response := mk {
  status : nat;
  body : Body
}.

(** [req.body] of the login route before [loginSchema.parse]. *)
Record LoginBody := mkLogin {
  email : option string;
  password : option string
}.
End Http.

Module Server.

(** What the dispatcher did, in order. *)
Inductive Effect : Type :=
| Persisted (n : Notification.t)
| PushAttempt (userId : string) (frame : Json.t) (deliveredTo : option Ws.conn).

Record t := mk {
  storage : MemStorage.t;
  wss : Ws.t;
  trace : list Effect
}.

(** Handlers run in a state monad over the server. *)
Definition M (A : Type) : Type := t -> A * t.

Definition ret {A} (a : A) : M A := fun s => (a, s).

Definition bind {A B} (m : M A) (k : A -> M B) : M B :=
  fun s => let (a, s') := m s in k a s'.

(** A call of a [storage] method. *)
Definition call {A} (f : MemStorage.t -> A * MemStorage.t) : M A :=
  fun s => let (a, st) := f (storage s) in (a, mk st (wss s) (trace s)).

(** A read of [storage]. *)
Definition query {A} (f : MemStorage.t -> A) : M A :=
  fun s => (f (storage s), s).

Definition emit (e : Effect) : M unit :=
  fun s => (tt, mk (storage s) (wss s) (trace s ++ [e])).

(** [await storage.createNotification(...)], recorded in the trace. *)
Definition createNotification (id : string) (now : Z)
    (ins : InsertNotification.t) : M Notification.t :=
  bind (call (MemStorage.createNotification id now ins))
       (fun n => bind (emit (Persisted n)) (fun _ => ret n)).

(** [broadcastNotification(userId, notification)], recorded in the trace. *)
Definition broadcastNotification (userId : string) (notification : Json.t)
    : M unit :=
  fun s =>
    (tt,
     mk (storage s)
        (Ws.broadcastNotification userId notification (wss s))
        (trace s ++ [PushAttempt userId (Ws.notificationFrame notification)
                       (Ws.recipient userId (wss s))])).

End Server.

Declare Scope server_scope.
Delimit Scope server_scope with server.
Notation "x <- m ;; k" := (Server.bind m (fun x => k))
  (at level 61, m at next level, right associativity) : server_scope.
Notation "m ;;; k" := (Server.bind m (fun _ => k))
  (at level 61, right associativity) : server_scope.

Module Routes.
Import Http.
Section Handlers.

Variable JWT_SECRET : string.
(** [bcrypt.compare(password, hash)] *)
Variable bcryptCompare : string -> string -> bool.
(** [z.string().email()] *)
Variable isEmail : string -> bool.

Local Open Scope server_scope.

(** [jwt.sign({ email: toEmail }, JWT_SECRET, { expiresIn: "24h" })] of
    [sendVerificationEmail]. *)
Definition verificationToken (toEmail : string) (now : Z) : Jwt.token :=
  Jwt.sign (Jwt.mkClaims None (Some toEmail)) JWT_SECRET Jwt.hours24 now.

(** [jwt.sign({ userId: user.id }, JWT_SECRET, { expiresIn: "7d" })] of the
    login routes. *)
Definition sessionToken (userId : string) (now : Z) : Jwt.token :=
  Jwt.sign (Jwt.mkClaims (Some userId) None) JWT_SECRET Jwt.days7 now.

(** [storage.getUser(decoded.userId)]: no key of [users] is [undefined]. *)
Definition getUserOpt (userId : option string) (s : MemStorage.t) : option User.t :=
  match userId with
  | Some id => MemStorage.getUser id s
  | None => None
  end.

(** [storage.getUserByEmail(decoded.email)]: no stored email is
    [undefined]. *)
Definition getUserByEmailOpt (email : option string) (s : MemStorage.t)
    : option User.t :=
  match email with
  | Some e => MemStorage.getUserByEmail e s
  | None => None
  end.

(** [authenticateToken]; [bearer] is [authHeader && authHeader.split(" ")[1]],
    [None] when falsy. The result is either [req.user] or the response. *)
Definition authenticateToken (bearer : option Jwt.token) (now : Z)
    (s : MemStorage.t) : User.t + Response :=
  match bearer with
  | None => inr (mk 401 (Message "Access token required"))
  | Some token =>
      match Jwt.verify token JWT_SECRET now with
      | Some decoded =>
          match getUserOpt (Jwt.userId decoded) s with
          | None => inr (mk 401 (Message "Invalid token"))
          | Some user => inl user
          end
      | None => inr (mk 403 (Message "Invalid token"))
      end
  end.

(** A route registered as [app.METHOD(path, authenticateToken, handler)]. *)
Definition authenticated (bearer : option Jwt.token) (now : Z)
    (handler : User.t -> Server.M Response) : Server.M Response :=
  fun srv =>
    match authenticateToken bearer now (Server.storage srv) with
    | inl user => handler user srv
    | inr response => (response, srv)
    end.

(** [!user.isVerified] *)
Definition notVerified (user : User.t) : bool :=
  match User.isVerified user with
  | Some true => false
  | _ => true
  end.

(** [GET /api/auth/verify] *)
Definition getVerify (token : option Jwt.token) (now : Z) : Server.M Response :=
  match token with
  | None => Server.ret (mk 400 (Message "Missing token"))
  | Some token =>
      match Jwt.verify token JWT_SECRET now with
      | None => Server.ret (mk 400 (Message "Invalid or expired token"))
      | Some decoded =>
          user <- Server.query (getUserByEmailOpt (Jwt.email decoded)) ;;
          match user with
          | None => Server.ret (mk 400 (Message "Invalid token"))
          | Some user =>
              if negb (notVerified user)
              then Server.ret (mk 200 (Message "Account already verified"))
              else
                Server.call (MemStorage.updateUser (User.id user) MemStorage.verifiedUpdate) ;;;
                Server.ret (mk 200
                  (Message "Email verified successfully. You can now log in."))
          end
      end
  end.

(** [loginSchema.parse(req.body)]; [None] when it throws. *)
Definition loginSchema (body : LoginBody) : option (string * string) :=
  match email body, password body with
  | Some e, Some p =>
      if isEmail e && (1 <=? String.length p)%nat then Some (e, p) else None
  | _, _ => None
  end.

(** [POST /api/auth/login], blocked until verified. *)
Definition postLogin (body : LoginBody) (now : Z) (s : MemStorage.t) : Response :=
  match loginSchema body with
  | None => mk 400 ErrorMessage
  | Some (email, password) =>
      match MemStorage.getUserByEmail email s with
      | None => mk 401 (Message "Invalid credentials")
      | Some user =>
          if notVerified user
          then mk 403 (Message "Please verify your email before logging in.")
          else if negb (bcryptCompare password (User.password user))
          then mk 401 (Message "Invalid credentials")
          else mk 200 (AuthResponse (omitPassword user)
                         (sessionToken (User.id user) now))
      end
  end.

(** [POST /api/auth/login] of the second [registerRoutes], without the
    verification step. *)
Definition postLoginUnverified (body : LoginBody) (now : Z) (s : MemStorage.t)
    : Response :=
  match loginSchema body with
  | None => mk 400 ErrorMessage
  | Some (email, password) =>
      match MemStorage.getUserByEmail email s with
      | None => mk 401 (Message "Invalid credentials")
      | Some user =>
          if negb (bcryptCompare password (User.password user))
          then mk 401 (Message "Invalid credentials")
          else mk 200 (AuthResponse (omitPassword user)
                         (sessionToken (User.id user) now))
      end
  end.

(** [PATCH /api/auth/profile] *)
Definition patchProfile (updateData : PartialUser.t) (user : User.t)
    : Server.M Response :=
  updatedUser <- Server.call (MemStorage.updateUser (User.id user) updateData) ;;
  match updatedUser with
  | None => Server.ret (mk 404 (Message "User not found"))
  | Some updatedUser => Server.ret (mk 200 (UserJson (omitPassword updatedUser)))
  end.

(** [GET /api/events] *)
Definition getEvents (user : User.t) : Server.M Response :=
  events <- Server.query MemStorage.getEvents ;;
  Server.ret (mk 200 (EventsJson
    (map (fun e =>
            let event := EventWithDetails.event e in
            EventWithDetails.mk event
              (EventWithDetails.attendeeCount e)
              (EventWithDetails.interestedCount e)
              (Some (includes (arrayOrEmpty (Event.attendees event)) (User.id user)))
              (Some (includes (arrayOrEmpty (Event.interested event)) (User.id user))))
         events))).

(** The object literal pushed after an event is created. *)
Definition createdPush (event : Event.t) : Json.t :=
  Json.Obj [ ("title", Json.Str "New Event Created");
             ("message", Json.Str (Event.title event ++ " has been scheduled")%string) ].

(** [POST /api/events]; [body] is [insertEventSchema.parse(req.body)],
    [None] when it throws. *)
Definition postEvents (body : option InsertEvent.t) (eventId notificationId : string)
    (now : Z) (user : User.t) : Server.M Response :=
  if negb (includes ["Organizer"; "Faculty"] (User.role user))
  then Server.ret (mk 403 (Message "Not authorized to create events"))
  else
    match body with
    | None => Server.ret (mk 400 ErrorMessage)
    | Some eventData =>
        event <- Server.call (MemStorage.createEvent eventId now
                   (InsertEvent.mk (InsertEvent.title eventData)
                      (InsertEvent.description eventData)
                      (InsertEvent.date eventData) (InsertEvent.venue eventData)
                      (InsertEvent.club eventData) (InsertEvent.type eventData)
                      (Some (User.id user)) (User.name user)
                      (InsertEvent.image eventData))) ;;
        Server.createNotification notificationId now
          (InsertNotification.mk (Some (User.id user)) "New Event Created"
             (Event.title event ++ " has been scheduled")%string
             "event" (Some (Event.id event))) ;;;
        Server.broadcastNotification (User.id user) (createdPush event) ;;;
        Server.ret (mk 201 (EventJson event))
    end.

(** [POST /api/events/:id/rsvp] *)
Definition postRsvp (id type : string) (user : User.t) : Server.M Response :=
  if negb (includes ["attending"; "interested"] type)
  then Server.ret (mk 400 (Message "Invalid RSVP type"))
  else
    success <- Server.call (MemStorage.rsvpEvent (User.id user) id type) ;;
    if negb success
    then Server.ret (mk 404 (Message "Event not found"))
    else Server.ret (mk 200 (Message "RSVP updated successfully")).

(** [DELETE /api/events/:id/rsvp] *)
Definition deleteRsvp (id : string) (user : User.t) : Server.M Response :=
  success <- Server.call (MemStorage.unrsvpEvent (User.id user) id) ;;
  if negb success
  then Server.ret (mk 404 (Message "Event not found"))
  else Server.ret (mk 200 (Message "RSVP removed successfully")).

(** [POST /api/clubs/:name/join] *)
Definition postJoin (name : string) (user : User.t) : Server.M Response :=
  success <- Server.call (MemStorage.joinClub (User.id user) name) ;;
  if negb success
  then Server.ret (mk 404 (Message "Club not found"))
  else Server.ret (mk 200 (Message "Successfully joined club")).

(** [POST /api/clubs/:name/leave] *)
Definition postLeave (name : string) (user : User.t) : Server.M Response :=
  success <- Server.call (MemStorage.leaveClub (User.id user) name) ;;
  if negb success
  then Server.ret (mk 404 (Message "Club not found"))
  else Server.ret (mk 200 (Message "Successfully left club")).

(** [POST /api/notifications/:id/read] *)
Definition postNotificationRead (id : string) (user : User.t) : Server.M Response :=
  success <- Server.call (MemStorage.markNotificationRead id) ;;
  if negb success
  then Server.ret (mk 404 (Message "Notification not found"))
  else Server.ret (mk 200 (Message "Notification marked as read")).

(** [POST /api/notifications/read-all] *)
Definition postNotificationsReadAll (user : User.t) : Server.M Response :=
  Server.call (MemStorage.markAllNotificationsRead (User.id user)) ;;;
  Server.ret (mk 200 (Message "All notifications marked as read")).

(** A websocket frame arrives on connection [ws]. *)
Definition wsMessage (now : Z) (ws : Ws.conn) (message : Ws.Frame)
    : Server.M unit :=
  fun srv =>
    (tt, Server.mk (Server.storage srv)
           (Ws.onMessage JWT_SECRET now ws message (Server.wss srv))
           (Server.trace srv)).

End Handlers.
End Routes.


(* ------------------------------------------------------------------ *)
(** ** Store operations as data, and the relations the store should keep *)

Module Store.
Import MemStorage.

(** One call of a method of [MemStorage] that may change the store. *)
Inductive Op : Type :=
| CreateUser (id : string) (now : Z) (insertUser : InsertUser.t)
| UpdateUser (id : string) (updates : PartialUser.t)
| CreateEvent (id : string) (now : Z) (insertEvent : InsertEvent.t)
| UpdateEvent (id : string) (updates : PartialEvent.t)
| DeleteEvent (id : string)
| CreateClub (id : string) (now : Z) (insertClub : InsertClub.t)
| JoinClub (userId clubName : string)
| LeaveClub (userId clubName : string)
| RsvpEvent (userId eventId type : string)
| UnrsvpEvent (userId eventId : string)
| CreateNotification (id : string) (now : Z) (insertNotification : InsertNotification.t)
| MarkNotificationRead (id : string)
| MarkAllNotificationsRead (userId : string).

(** The store after the call. *)
Definition run (op : Op) (s : t) : t :=
  match op with
  | CreateUser id now insertUser => snd (createUser id now insertUser s)
  | UpdateUser id updates => snd (updateUser id updates s)
  | CreateEvent id now insertEvent => snd (createEvent id now insertEvent s)
  | UpdateEvent id updates => snd (updateEvent id updates s)
  | DeleteEvent id => snd (deleteEvent id s)
  | CreateClub id now insertClub => snd (createClub id now insertClub s)
  | JoinClub userId clubName => snd (joinClub userId clubName s)
  | LeaveClub userId clubName => snd (leaveClub userId clubName s)
  | RsvpEvent userId eventId type => snd (rsvpEvent userId eventId type s)
  | UnrsvpEvent userId eventId => snd (unrsvpEvent userId eventId s)
  | CreateNotification id now ins => snd (createNotification id now ins s)
  | MarkNotificationRead id => snd (markNotificationRead id s)
  | MarkAllNotificationsRead userId => snd (markAllNotificationsRead userId s)
  end.

(** The user and the club as [joinClub] leaves them. *)
Definition joinedUser (user : User.t) (clubName : string) : User.t :=
  if includes (arrayOrEmpty (User.clubs user)) clubName then user
  else mergeUser user
         (clubsUpdate (JArray (push (arrayOrEmpty (User.clubs user)) clubName))).

Definition joinedClub (club : Club.t) (userId : string) : Club.t :=
  if includes (arrayOrEmpty (Club.members club)) userId then club
  else setMembers club (JArray (push (arrayOrEmpty (Club.members club)) userId)).

(** The membership mirror: a club's name is among a user's clubs exactly
    when the user's id is among the club's members. *)
Definition mirror (s : t) : Prop :=
  forall ku user kc club,
    In (ku, user) (users s) -> In (kc, club) (clubs s) ->
    (In (Club.name club) (arrayOrEmpty (User.clubs user)) <->
     In (User.id user) (arrayOrEmpty (Club.members club))).

(** Every club is stored once, under its own id. *)
Definition coherentClubs (m : JsMap.t string Club.t) : Prop :=
  JsMap.wf m /\ forall k club, In (k, club) m -> Club.id club = k.

Definition clubsCoherent (s : t) : Prop := coherentClubs (clubs s).

(** Every user is stored once, under its own id. *)
Definition usersCoherent (s : t) : Prop :=
  JsMap.wf (users s) /\
  forall k user, In (k, user) (users s) -> User.id user = k.

(** No two clubs share a name. *)
Definition clubNamesUnique (s : t) : Prop :=
  NoDup (map Club.name (JsMap.values (clubs s))).

(** Members are users of the store, and joined clubs are clubs of the
    store. *)
Definition referencesResolve (s : t) : Prop :=
  (forall k club x, In (k, club) (clubs s) ->
     In x (arrayOrEmpty (Club.members club)) -> JsMap.get x (users s) <> None) /\
  (forall k user n, In (k, user) (users s) ->
     In n (arrayOrEmpty (User.clubs user)) -> getClubByName n s <> None).

(** The mirror together with what keeps it stable. *)
Definition consistent (s : t) : Prop :=
  usersCoherent s /\ clubsCoherent s /\ clubNamesUnique s /\
  referencesResolve s /\ mirror s.

(** The calls that keep the mirror: [randomUUID()] returns an unused id, a
    created club has an unused name, and [updateUser] is not given an [id]
    or a [clubs] field. *)
Definition keepsMirror (op : Op) (s : t) : Prop :=
  match op with
  | CreateUser id _ _ => JsMap.get id (users s) = None
  | CreateClub id _ insertClub =>
      JsMap.get id (clubs s) = None /\
      getClubByName (InsertClub.name insertClub) s = None
  | UpdateUser _ updates =>
      PartialUser.id updates = None /\ PartialUser.clubs updates = None
  | _ => True
  end.

(** Stores reached from a new [MemStorage] by such calls. *)
Inductive reachable : t -> Prop :=
| reach_init ids now :
    NoDup ids -> length ids = length defaultClubs ->
    reachable (init ids now)
| reach_step op s :
    reachable s -> keepsMirror op s -> reachable (run op s).

(** Stores reached from a new [MemStorage] by any calls at all. *)
Inductive reachableAny : t -> Prop :=
| any_init ids now : reachableAny (init ids now)
| any_step op s : reachableAny s -> reachableAny (run op s).

End Store.

(* ------------------------------------------------------------------ *)
(** ** Sample stores, servers and stand-ins for the libraries *)

(** A store with one event and nobody registered for it. *)
Definition sampleEvent : Event.t :=
  Event.mk "e1" "Hackathon" "24h coding" 1000 "Lab 2" (Some "Coding Club")
    "club" (Some "u1") "Asha" None (JArray ["u2"]) (JArray ["u1"; "u3"]) 900.

Definition sampleEventStore : MemStorage.t :=
  MemStorage.mk JsMap.empty [("e1", sampleEvent)] JsMap.empty JsMap.empty.

(** A store after [new MemStorage()] and one registration. *)
Definition sampleIds : list string := ["c1"; "c2"; "c3"; "c4"; "c5"].

Definition sampleClubStore : MemStorage.t :=
  Store.run
    (Store.CreateUser "u1" 10
       (InsertUser.mk "Asha" "asha@srec.ac.in" "$2a$12$hash" "Student" (Some false)))
    (MemStorage.init sampleIds 0).

(** A store in which user [u1] has joined the Coding Club. *)
Definition sampleJoinedStore : MemStorage.t :=
  Store.run (Store.JoinClub "u1" "Coding Club") sampleClubStore.

Definition sampleUser : User.t :=
  User.mk "u1" "Asha" "asha@srec.ac.in" "$2a$12$hash" "Student" (JArray [])
    None 10 (Some false).

Definition sampleUserStore : MemStorage.t :=
  MemStorage.mk [("u1", sampleUser)] JsMap.empty JsMap.empty JsMap.empty.

Definition sampleNotification : Notification.t :=
  Notification.mk "n1" (Some "u2") "New Event Created"
    "Hackathon has been scheduled" "event" false (Some "e1") 50.

Definition otherNotification : Notification.t :=
  Notification.mk "n2" (Some "u1") "Welcome" "Hello" "general" false None 40.

Definition sampleNotificationStore : MemStorage.t :=
  MemStorage.mk [("u1", sampleUser)] JsMap.empty JsMap.empty
    [("n1", sampleNotification); ("n2", otherNotification)].

(** A server with two accepted connections and nobody registered. *)
Definition sampleWs : Ws.t :=
  Ws.onConnection 2 (Ws.onConnection 1 Ws.init).

Definition sampleOrganizer : User.t :=
  User.mk "u7" "Ravi" "ravi@srec.ac.in" "$2a$12$hash7" "Organizer" (JArray [])
    None 5 (Some true).

Definition sampleEventBody : InsertEvent.t :=
  InsertEvent.mk "Hackathon" "24h coding" 1000 "Lab 2" (Some "Coding Club")
    "club" None "someone" None.

(** The organizer is stored and connected on the open socket 1. *)
Definition sampleServer : Server.t :=
  Server.mk
    (MemStorage.mk [("u7", sampleOrganizer)] JsMap.empty JsMap.empty JsMap.empty)
    (Ws.onMessage "your-secret-key" 10 1
       (Ws.Data "auth" (Some (Routes.sessionToken "your-secret-key" "u7" 0)))
       sampleWs)
    [].

(** [{ role: "Organizer" }] *)
Definition organizerUpdate : PartialUser.t :=
  PartialUser.mk None None None None (Some "Organizer") None None None None.

(** The notification [POST /api/events] persists. *)
Definition createdNotification (notificationId eventId : string) (now : Z)
    (title : string) (user : User.t) : Notification.t :=
  Notification.mk notificationId (orNull (Some (User.id user)))
    "New Event Created" (title ++ " has been scheduled")%string "event" false
    (orNull (Some eventId)) now.

(** A stand-in for [z.string().email()]: the text has an [@]. *)
Fixpoint hasAt (s : string) : bool :=
  match s with
  | EmptyString => false
  | String c r => if Ascii.eqb c "@"%char then true else hasAt r
  end.

(** A stand-in for [bcrypt.compare]: the hash is the password behind a
    fixed prefix. *)
Definition prefixCompare (password hash : string) : bool :=
  String.eqb ("$2a$12$" ++ password)%string hash.

Definition unverifiedStore : MemStorage.t :=
  MemStorage.mk
    [("u1", User.mk "u1" "Asha" "asha@srec.ac.in" "$2a$12$secret1" "Student"
              (JArray []) None 10 (Some false))]
    JsMap.empty JsMap.empty JsMap.empty.

Definition verifiedStore : MemStorage.t :=
  snd (MemStorage.updateUser "u1" MemStorage.verifiedUpdate unverifiedStore).

(* ------------------------------------------------------------------ *)
(** ** The remaining store queries, routes and handlers *)

Module MemStorageQueries.
Import MemStorage.

(** [getEventsByUser] *)
Definition getEventsByUser (userId : string) (s : t) : list Event.t :=
  filter (fun event => option_eqb (Event.organizerId event) (Some userId))
         (JsMap.values (events s)).

(** [getEventsByClub] *)
Definition getEventsByClub (club : string) (s : t) : list Event.t :=
  filter (fun event => option_eqb (Event.club event) (Some club))
         (JsMap.values (events s)).

(** Newest first: no later element is newer than an earlier one. *)
Definition notOlder (a b : Notification.t) : Prop :=
  (Notification.createdAt b <= Notification.createdAt a)%Z.

(** Every notification is stored once, under its own id. *)
Definition notificationsCoherent (s : t) : Prop :=
  JsMap.wf (notifications s) /\
  forall k n, In (k, n) (notifications s) -> Notification.id n = k.

(** [{ ...notification, read: true }] for the notifications of one user. *)
Definition readFor (userId : string) (n : Notification.t) : Notification.t :=
  if option_eqb (Notification.userId n) (Some userId) then setRead n else n.

(** One step of the [forEach] of [markAllNotificationsRead]. *)
Definition markStep (m : JsMap.t string Notification.t) (n : Notification.t)
    : JsMap.t string Notification.t :=
  JsMap.set (Notification.id n) (setRead n) m.

(** The four maps have one entry per key. *)
Definition mapsWf (s : t) : Prop :=
  JsMap.wf (users s) /\ JsMap.wf (events s) /\
  JsMap.wf (clubs s) /\ JsMap.wf (notifications s).

(** Nobody is an attendee and interested at once, and nobody is listed
    twice. *)
Definition exclusiveEvent (event : Event.t) : Prop :=
  NoDup (arrayOrEmpty (Event.attendees event)) /\
  NoDup (arrayOrEmpty (Event.interested event)) /\
  forall x, In x (arrayOrEmpty (Event.attendees event)) ->
            ~ In x (arrayOrEmpty (Event.interested event)).

Definition rsvpExclusive (s : t) : Prop :=
  JsMap.wf (events s) /\
  forall k event, In (k, event) (events s) -> exclusiveEvent event.

End MemStorageQueries.

Module StoreRsvp.
Import MemStorage Store.

(** The calls that keep RSVPs exclusive: every call but [updateEvent] with
    an [attendees] or [interested] field. *)
Definition keepsRsvp (op : Op) : Prop :=
  match op with
  | UpdateEvent _ updates =>
      PartialEvent.attendees updates = None /\
      PartialEvent.interested updates = None
  | _ => True
  end.

Inductive reachable : t -> Prop :=
| reach_init ids now : reachable (init ids now)
| reach_step op s : reachable s -> keepsRsvp op -> reachable (run op s).

End StoreRsvp.




Module Register.
Import Http.

(** [req.body] of the register route before [insertUserSchema.parse]. *)
Record Body := mkBody {
  name : option string;
  email : option string;
  password : option string;
  role : option string
}.

Section Handlers.
Variable isEmail : string -> bool.

Local Open Scope server_scope.



(** [POST /api/auth/resend-verification]; [email] is [None] when the body
    has no non-empty string there. The store is only read. *)
Definition postResendVerification (email : option string) (mailSent : bool)
    (s : MemStorage.t) : Response :=
  match email with
  | None => mk 400 (Message "Email is required")
  | Some e =>
      match MemStorage.getUserByEmail e s with
      | None => mk 404 (Message "User not found")
      | Some user =>
          if negb (Routes.notVerified user)
          then mk 200 (Message "Account already verified")
          else if mailSent
          then mk 200 (Message "Verification email sent")
          else mk 500 (Message "Failed to send verification email")
      end
  end.

End Handlers.
End Register.

(** The reconnecting client of [use-websocket.tsx]. *)
Module UseWebSocket.

Definition maxReconnectAttempts : nat := 5.

Record t := mk {
  isConnected : bool;
  reconnectAttempts : nat;
  timers : list Z          (* the delays passed to [setTimeout], oldest first *)
}.

Definition init : t := mk false 0 [].

(** [Math.min(1000 * Math.pow(2, attempts), 30000)] *)
Definition delay (attempts : nat) : Z :=
  Z.min (1000 * 2 ^ Z.of_nat attempts) 30000.

(** [ws.current.onopen] *)
Definition onopen (h : t) : t := mk true 0 (timers h).

(** [ws.current.onclose] *)
Definition onclose (h : t) : t :=
  if (reconnectAttempts h <? maxReconnectAttempts)%nat
  then mk false (S (reconnectAttempts h))
          (timers h ++ [delay (S (reconnectAttempts h))])
  else mk false (reconnectAttempts h) (timers h).

Inductive Event := Open | Close.

Definition step (h : t) (e : Event) : t :=
  match e with Open => onopen h | Close => onclose h end.

Definition run (es : list Event) (h : t) : t := fold_left step es h.

(** The attempt counter and every scheduled delay are within bounds. *)
Definition bounded (h : t) : Prop :=
  reconnectAttempts h <= maxReconnectAttempts /\
  Forall (fun d => 2000 <= d <= 30000)%Z (timers h).

End UseWebSocket.

(** Everything the websocket server reacts to. *)
Module WsEvents.
Import Ws.

Inductive Event : Type :=
| Connection (ws : conn)
| Message (now : Z) (ws : conn) (frame : Frame)
| Closed (ws : conn)
| Broadcast (userId : string) (notification : Json.t).

Definition step (JWT_SECRET : string) (w : t) (e : Event) : t :=
  match e with
  | Connection ws => onConnection ws w
  | Message now ws frame => onMessage JWT_SECRET now ws frame w
  | Closed ws => onClose ws w
  | Broadcast userId notification => broadcastNotification userId notification w
  end.

Definition run (JWT_SECRET : string) (es : list Event) (w : t) : t :=
  fold_left (step JWT_SECRET) es w.

(** The connections registered in [clients]. *)
Definition registered (w : t) : list conn := JsMap.values (clients w).

(** The event is an auth frame of connection [c] whose token verifies. *)
Definition authenticates (JWT_SECRET : string) (c : conn) (e : Event) : bool :=
  match e with
  | Message now ws (Data type (Some token)) =>
      Nat.eqb ws c && String.eqb type "auth" &&
      match Jwt.verify token JWT_SECRET now with Some _ => true | None => false end
  | _ => false
  end.

(** Not registered and nothing sent yet. *)
Definition untouched (c : conn) (w : t) : Prop :=
  ~ In c (registered w) /\ sent (sockets w c) = [].

End WsEvents.

(* ================================================================== *)
(** * Properties *)

Unset Implicit Arguments.

(** ** Facts about [JsMap] *)

Section JsMapFacts.
Context {K V : Type} `{EqKey K}.
Import JsMap.
Implicit Types (k : K) (v : V) (m : list (K * V)).

Lemma get_set_eq k v m : get k (set k v m) = Some v.
Proof.
  induction m as [|[k' v'] r IH]; simpl.
  - now rewrite keq_refl.
  - destruct (keq k k') eqn:E; simpl.
    + now rewrite keq_refl.
    + now rewrite E.
Qed.

Lemma get_set_ne k k' v m : k <> k' -> get k' (set k v m) = get k' m.
Proof.
  intros Hne. induction m as [|[k0 v0] r IH]; simpl.
  - rewrite keq_neq; auto.
  - destruct (keq k k0) eqn:E; simpl.
    + apply keq_spec in E. subst k0.
      rewrite keq_neq; auto.
    + now rewrite IH.
Qed.

Lemma get_In k v m : get k m = Some v -> In (k, v) m.
Proof.
  induction m as [|[k' v'] r IH]; simpl; [discriminate|].
  destruct (keq k k') eqn:E.
  - apply keq_spec in E. subst. intros [= ->]. now left.
  - intros Hg. right. auto.
Qed.

Lemma get_None_keys k m : get k m = None <-> ~ In k (keys m).
Proof.
  induction m as [|[k' v'] r IH]; simpl.
  - tauto.
  - destruct (keq k k') eqn:E.
    + apply keq_spec in E. subst. split; [discriminate|]. tauto.
    + apply keq_false in E. rewrite IH. split.
      * intros Hn [Hk|Hk]; [congruence | tauto].
      * tauto.
Qed.

Lemma In_get k v m : wf m -> In (k, v) m -> get k m = Some v.
Proof.
  unfold wf. induction m as [|[k' v'] r IH]; simpl; [tauto|].
  intros Hnd [Hin|Hin].
  - injection Hin as -> ->. now rewrite keq_refl.
  - inversion Hnd as [|? ? Hni Hnd']; subst.
    destruct (keq k k') eqn:E.
    + apply keq_spec in E. subst. exfalso. apply Hni.
      change k' with (fst (k', v)). now apply in_map.
    + auto.
Qed.

Lemma keys_set_present k v m :
  In k (keys m) -> keys (set k v m) = keys m.
Proof.
  induction m as [|[k' v'] r IH]; simpl; [tauto|].
  destruct (keq k k') eqn:E; simpl.
  - apply keq_spec in E. now subst.
  - apply keq_false in E. intros [Hk|Hk]; [congruence|].
    now rewrite IH.
Qed.

Lemma keys_set_absent k v m :
  ~ In k (keys m) -> set k v m = m ++ [(k, v)].
Proof.
  induction m as [|[k' v'] r IH]; simpl; [reflexivity|].
  intros Hni. destruct (keq k k') eqn:E.
  - apply keq_spec in E. subst. tauto.
  - rewrite IH; tauto.
Qed.

Lemma in_dec_keq k (l : list K) : {In k l} + {~ In k l}.
Proof.
  apply in_dec. intros a b. destruct (keq a b) eqn:E.
  - left. now apply keq_spec.
  - right. now apply keq_false.
Qed.

Lemma wf_set k v m : wf m -> wf (set k v m).
Proof.
  unfold wf. intros Hnd.
  destruct (get k m) eqn:G.
  - rewrite keys_set_present; auto.
    destruct (in_dec_keq k (keys m)) as [Hi|Hi]; auto.
    apply get_None_keys in Hi. congruence.
  - apply get_None_keys in G.
    rewrite keys_set_absent by assumption.
    unfold keys. rewrite map_app. simpl.
    apply NoDup_app; auto.
    + constructor; [simpl; tauto | constructor].
    + intros a Ha [<-|[]]. apply G. exact Ha.
Qed.

Lemma In_set k v e m :
  wf m -> (In e (set k v m) <-> e = (k, v) \/ (In e m /\ fst e <> k)).
Proof.
  unfold wf. induction m as [|[k' v'] r IH]; simpl; intros Hnd.
  - intuition congruence.
  - inversion Hnd as [|? ? Hni Hnd']; subst.
    destruct (keq k k') eqn:E; simpl.
    + apply keq_spec in E. subst k'. split.
      * intros [Heq|Hin]; [now left|]. right. split; [now right|].
        intros <-. apply Hni. now apply in_map.
      * intros [Heq|[[Heq|Hin] Hne]]; subst; simpl in *; auto.
        congruence.
    + apply keq_false in E. rewrite (IH Hnd'). split.
      * intros [Heq|[Heq|[Hin Hne]]]; subst; simpl; auto.
      * intros [Heq|[[Heq|Hin] Hne]]; subst; auto.
Qed.

Lemma get_delete_eq k m : wf m -> get k (delete k m) = None.
Proof.
  unfold wf. induction m as [|[k' v'] r IH]; simpl; intros Hnd; auto.
  inversion Hnd as [|? ? Hni Hnd']; subst.
  destruct (keq k k') eqn:E; simpl.
  - apply keq_spec in E. subst. now apply get_None_keys.
  - rewrite E. auto.
Qed.

Lemma get_delete_ne k k' m : k <> k' -> get k' (delete k m) = get k' m.
Proof.
  intros Hne. induction m as [|[k0 v0] r IH]; simpl; auto.
  destruct (keq k k0) eqn:E; simpl.
  - apply keq_spec in E. subst k0. rewrite keq_neq; auto.
  - now rewrite IH.
Qed.

Lemma count_wf k m : wf m -> count k m = if has k m then 1 else 0.
Proof.
  unfold wf, count, has. induction m as [|[k' v'] r IH]; simpl; auto.
  intros Hnd. inversion Hnd as [|? ? Hni Hnd']; subst.
  destruct (keq k k') eqn:E; simpl.
  - apply keq_spec in E. subst k'.
    apply get_None_keys in Hni. rewrite IH by assumption.
    now rewrite Hni.
  - auto.
Qed.


Lemma set_same k v m : get k m = Some v -> set k v m = m.
Proof.
  induction m as [|[k' v'] r IH]; simpl; [discriminate|].
  destruct (keq k k') eqn:E.
  - apply keq_spec in E. subst. now intros [= ->].
  - intros Hg. now rewrite IH.
Qed.

Lemma get_set_present k x v m :
  get x (set k v m) <> None <-> x = k \/ get x m <> None.
Proof.
  destruct (keq k x) eqn:E.
  - apply keq_spec in E. subst x. rewrite get_set_eq.
    split; [now left | discriminate].
  - apply keq_false in E. rewrite get_set_ne by assumption.
    split; [now right | intros [->|Hg]; [contradiction | assumption]].
Qed.

Lemma values_set_same {A} (f : V -> A) k v v0 m :
  get k m = Some v0 -> f v = f v0 ->
  map f (values (set k v m)) = map f (values m).
Proof.
  unfold values. induction m as [|[k' v'] r IH]; simpl; [discriminate|].
  destruct (keq k k') eqn:E; simpl.
  - intros [= ->] Hf. now rewrite Hf.
  - intros Hg Hf. now rewrite IH.
Qed.

Lemma In_keys_get k m : In k (keys m) <-> get k m <> None.
Proof.
  rewrite get_None_keys. split; [tauto|].
  intros Hn. destruct (in_dec_keq k (keys m)); tauto.
Qed.

Lemma In_set_weak k v e m : In e (set k v m) -> e = (k, v) \/ In e m.
Proof.
  induction m as [|[k' v'] r IH]; simpl.
  - intros [<-|[]]. now left.
  - destruct (keq k k'); simpl.
    + intros [<-|Hin]; auto.
    + intros [<-|Hin]; auto. destruct (IH Hin); auto.
Qed.

End JsMapFacts.

(** ** Facts about arrays of strings *)

Lemma includes_In xs x : includes xs x = true <-> In x xs.
Proof.
  unfold includes. rewrite existsb_exists. split.
  - intros (y & Hy & E). apply String.eqb_eq in E. now subst.
  - intros Hin. exists x. split; [assumption | apply String.eqb_refl].
Qed.

Lemma includes_false xs x : includes xs x = false <-> ~ In x xs.
Proof.
  rewrite <- includes_In. destruct (includes xs x); split; congruence.
Qed.

Lemma In_without x y xs : In x (without y xs) <-> In x xs /\ x <> y.
Proof.
  unfold without. rewrite filter_In, negb_true_iff.
  split; intros [Hin Hne]; split; auto.
  - intros ->. now rewrite String.eqb_refl in Hne.
  - now apply String.eqb_neq.
Qed.

Lemma not_In_without x xs : ~ In x (without x xs).
Proof. rewrite In_without. tauto. Qed.

Lemma In_push x y xs : In x (push xs y) <-> In x xs \/ x = y.
Proof.
  unfold push. rewrite in_app_iff. simpl. intuition congruence.
Qed.

Lemma without_id x xs : ~ In x xs -> without x xs = xs.
Proof.
  intros Hni. unfold without. induction xs as [|y r IH]; simpl; auto.
  destruct (String.eqb_spec y x) as [->|Hne]; simpl.
  - exfalso. apply Hni. now left.
  - f_equal. apply IH. intros Hin. apply Hni. now right.
Qed.

Create Rewrite HintDb arrays.
#[global] Hint Rewrite In_without In_push : arrays.

(* ------------------------------------------------------------------ *)
(** ** RSVP *)

Section Rsvp.
Import MemStorage.

Lemma rsvpEvent_result userId eventId type s :
  fst (rsvpEvent userId eventId type s) = JsMap.has eventId (events s).
Proof.
  unfold rsvpEvent, JsMap.has. now destruct (JsMap.get eventId (events s)).
Qed.

Lemma unrsvpEvent_result userId eventId s :
  fst (unrsvpEvent userId eventId s) = JsMap.has eventId (events s).
Proof.
  unfold unrsvpEvent, JsMap.has. now destruct (JsMap.get eventId (events s)).
Qed.

Lemma has_false {V} (k : string) (m : JsMap.t string V) :
  JsMap.has k m = false <-> JsMap.get k m = None.
Proof. unfold JsMap.has. destruct (JsMap.get k m); split; congruence. Qed.

(** The event stored under [eventId] after an RSVP. *)
Lemma rsvpEvent_lookup userId eventId type s event :
  JsMap.get eventId (events s) = Some event ->
  JsMap.get eventId (events (snd (rsvpEvent userId eventId type s))) =
    Some (if String.eqb type "attending"
          then setRsvp event
                 (JArray (push (without userId (arrayOrEmpty (Event.attendees event))) userId))
                 (JArray (without userId (arrayOrEmpty (Event.interested event))))
          else setRsvp event
                 (JArray (without userId (arrayOrEmpty (Event.attendees event))))
                 (JArray (push (without userId (arrayOrEmpty (Event.interested event))) userId))).
Proof.
  intros Hget. unfold rsvpEvent. rewrite Hget. simpl.
  now rewrite get_set_eq.
Qed.

Lemma unrsvpEvent_lookup userId eventId s event :
  JsMap.get eventId (events s) = Some event ->
  JsMap.get eventId (events (snd (unrsvpEvent userId eventId s))) =
    Some (setRsvp event
            (JArray (without userId (arrayOrEmpty (Event.attendees event))))
            (JArray (without userId (arrayOrEmpty (Event.interested event))))).
Proof.
  intros Hget. unfold unrsvpEvent. rewrite Hget. simpl.
  now rewrite get_set_eq.
Qed.

Lemma rsvp_attending userId eventId s event :
  JsMap.get eventId (events s) = Some event ->
  let s' := snd (rsvpEvent userId eventId "attending" s) in
  In userId (attendeesOf eventId s') /\ ~ In userId (interestedOf eventId s').
Proof.
  intros Hget s'. unfold attendeesOf, interestedOf, s'.
  rewrite (rsvpEvent_lookup _ _ _ _ _ Hget). simpl.
  autorewrite with arrays. tauto.
Qed.

Lemma rsvp_interested userId eventId s event :
  JsMap.get eventId (events s) = Some event ->
  let s' := snd (rsvpEvent userId eventId "interested" s) in
  In userId (interestedOf eventId s') /\ ~ In userId (attendeesOf eventId s').
Proof.
  intros Hget s'. unfold attendeesOf, interestedOf, s'.
  rewrite (rsvpEvent_lookup _ _ _ _ _ Hget). simpl.
  autorewrite with arrays. tauto.
Qed.

Lemma unrsvp_neither userId eventId s :
  let s' := snd (unrsvpEvent userId eventId s) in
  ~ In userId (attendeesOf eventId s') /\ ~ In userId (interestedOf eventId s').
Proof.
  intros s'. unfold attendeesOf, interestedOf, s'.
  destruct (JsMap.get eventId (events s)) as [event|] eqn:Hget.
  - rewrite (unrsvpEvent_lookup _ _ _ _ Hget). simpl.
    autorewrite with arrays. tauto.
  - unfold unrsvpEvent. rewrite Hget. simpl. rewrite Hget. simpl. tauto.
Qed.

Lemma rsvpEvent_keeps_event userId eventId type s event :
  JsMap.get eventId (events s) = Some event ->
  exists event', JsMap.get eventId (events (snd (rsvpEvent userId eventId type s))) = Some event'.
Proof. intros Hget. rewrite (rsvpEvent_lookup _ _ _ _ _ Hget). eauto. Qed.

End Rsvp.

(** C1. For an existing event [e] and any user [u]: after
    [rsvpEvent(u, e, "attending")], [u] is in the attendees and not in the
    interested; after a following [rsvpEvent(u, e, "interested")], [u] is
    in the interested and not in the attendees; after [unrsvpEvent(u, e)],
    [u] is in neither. For every type, [rsvpEvent] returns [false] exactly
    when the event id is unknown, and the RSVP route, given one of the two
    types, answers 404 exactly then. *)
Theorem rsvp_exclusive_and_not_found :
  (forall (s : MemStorage.t) (u e : string) (event : Event.t),
      JsMap.get e (MemStorage.events s) = Some event ->
      let s1 := snd (MemStorage.rsvpEvent u e "attending" s) in
      let s2 := snd (MemStorage.rsvpEvent u e "interested" s1) in
      let s3 := snd (MemStorage.unrsvpEvent u e s2) in
      (In u (MemStorage.attendeesOf e s1) /\ ~ In u (MemStorage.interestedOf e s1)) /\
      (In u (MemStorage.interestedOf e s2) /\ ~ In u (MemStorage.attendeesOf e s2)) /\
      (~ In u (MemStorage.attendeesOf e s3) /\ ~ In u (MemStorage.interestedOf e s3)) /\
      (~ In u (MemStorage.attendeesOf e (snd (MemStorage.unrsvpEvent u e s))) /\
       ~ In u (MemStorage.interestedOf e (snd (MemStorage.unrsvpEvent u e s))))) /\
  (forall (s : MemStorage.t) (u e type : string),
      fst (MemStorage.rsvpEvent u e type s) = false <->
      JsMap.get e (MemStorage.events s) = None) /\
  (forall (srv : Server.t) (user : User.t) (e type : string),
      In type ["attending"; "interested"] ->
      (Http.status (fst (Routes.postRsvp e type user srv)) = 404 <->
       JsMap.get e (MemStorage.events (Server.storage srv)) = None)).
Proof.
  split; [|split].
  - intros s u e event Hget s1 s2 s3.
    destruct (rsvpEvent_keeps_event u e "attending" s _ Hget) as [e1 H1].
    fold s1 in H1.
    repeat split.
    + apply (rsvp_attending u e s _ Hget).
    + apply (rsvp_attending u e s _ Hget).
    + apply (rsvp_interested u e s1 _ H1).
    + apply (rsvp_interested u e s1 _ H1).
    + apply (unrsvp_neither u e s2).
    + apply (unrsvp_neither u e s2).
    + apply (unrsvp_neither u e s).
    + apply (unrsvp_neither u e s).
  - intros s u e type. rewrite rsvpEvent_result. apply has_false.
  - intros srv user e type Hty.
    apply includes_In in Hty.
    unfold Routes.postRsvp. rewrite Hty. simpl.
    unfold Server.bind, Server.call, Server.ret.
    pose proof (rsvpEvent_result (User.id user) e type (Server.storage srv)) as Hr.
    destruct (MemStorage.rsvpEvent (User.id user) e type (Server.storage srv))
      as [success st] eqn:E.
    simpl in Hr. subst success. rewrite <- has_false.
    destruct (JsMap.has e (MemStorage.events (Server.storage srv))); simpl;
      split; congruence.
Qed.

Lemma rsvp_exclusive_and_not_found_witness :
  let s1 := snd (MemStorage.rsvpEvent "u1" "e1" "attending" sampleEventStore) in
  let s2 := snd (MemStorage.rsvpEvent "u1" "e1" "interested" s1) in
  In "u1" (MemStorage.attendeesOf "e1" s1) /\
  MemStorage.attendeesOf "e1" s1 = ["u2"; "u1"] /\
  MemStorage.interestedOf "e1" s1 = ["u3"] /\
  MemStorage.interestedOf "e1" s2 = ["u3"; "u1"] /\
  MemStorage.attendeesOf "e1" s2 = ["u2"].
Proof.
  split.
  - apply (proj1 (proj1 rsvp_exclusive_and_not_found
                    sampleEventStore "u1" "e1" sampleEvent eq_refl)).
  - repeat split.
Defined.

(* ------------------------------------------------------------------ *)
(** ** Club membership *)

Section Membership.
Import MemStorage Store.

Lemma updateUser_users id updates s :
  users (snd (updateUser id updates s)) =
    match JsMap.get id (users s) with
    | Some user => JsMap.set id (mergeUser user updates) (users s)
    | None => users s
    end.
Proof. unfold updateUser. now destruct (JsMap.get id (users s)). Qed.

Lemma updateUser_rest id updates s :
  let s' := snd (updateUser id updates s) in
  events s' = events s /\ clubs s' = clubs s /\ notifications s' = notifications s.
Proof. unfold updateUser. now destruct (JsMap.get id (users s)). Qed.

Lemma getUser_updateUser id updates s :
  getUser id (snd (updateUser id updates s)) =
    option_map (fun user => mergeUser user updates) (getUser id s).
Proof.
  unfold getUser. rewrite updateUser_users.
  destruct (JsMap.get id (users s)) as [user|] eqn:G; simpl.
  - apply get_set_eq.
  - exact G.
Qed.

Lemma getUser_updateUser_other id id' updates s :
  id <> id' ->
  getUser id' (snd (updateUser id updates s)) = getUser id' s.
Proof.
  intros Hne. unfold getUser. rewrite updateUser_users.
  destruct (JsMap.get id (users s)); [now apply get_set_ne | reflexivity].
Qed.

(** Where [getClubByName] finds its club. *)
Lemma getClubByName_In name s club :
  getClubByName name s = Some club ->
  Club.name club = name /\ exists k, In (k, club) (clubs s).
Proof.
  unfold getClubByName, JsMap.values. intros Hf.
  apply find_some in Hf. destruct Hf as [Hin Hn].
  apply String.eqb_eq in Hn. split; [assumption|].
  apply in_map_iff in Hin. destruct Hin as [[k c] [Heq Hin]].
  simpl in Heq. subst c. now exists k.
Qed.

(** Writing new members back under the club's id replaces the club where
    it stands, so a lookup by name finds the rewritten club. *)
Lemma find_club_set name club members (m : JsMap.t string Club.t) :
  JsMap.wf m ->
  (forall k c, In (k, c) m -> Club.id c = k) ->
  find (fun c => String.eqb (Club.name c) name) (JsMap.values m) = Some club ->
  find (fun c => String.eqb (Club.name c) name)
       (JsMap.values (JsMap.set (Club.id club) (setMembers club members) m)) =
    Some (setMembers club members).
Proof.
  unfold JsMap.wf. induction m as [|[k0 c0] r IH]; simpl; intros Hwf Hcoh Hfind.
  - discriminate.
  - inversion Hwf as [|? ? Hni Hwf']; subst.
    destruct (String.eqb (Club.name c0) name) eqn:En.
    + injection Hfind as <-.
      rewrite (Hcoh k0 c0) by now left.
      rewrite String.eqb_refl. simpl. now rewrite En.
    + assert (Hin : exists k, In (k, club) r).
      { apply find_some in Hfind. destruct Hfind as [Hin _].
        apply in_map_iff in Hin. destruct Hin as [[k c] [Heq Hin]].
        simpl in Heq. subst c. now exists k. }
      destruct Hin as [k Hin].
      assert (Hk : Club.id club = k) by (apply Hcoh; now right).
      destruct (String.eqb (Club.id club) k0) eqn:Ek.
      * apply String.eqb_eq in Ek. exfalso. apply Hni.
        rewrite <- Ek, Hk. change k with (fst (k, club)). now apply in_map.
      * simpl. rewrite En. apply IH; auto.
Qed.

Lemma getClubByName_setMembers name club members s s' :
  clubsCoherent s ->
  clubs s' = clubs s ->
  getClubByName name s = Some club ->
  getClubByName name
    (with_clubs (JsMap.set (Club.id club) (setMembers club members) (clubs s')) s') =
    Some (setMembers club members).
Proof.
  intros [Hwf Hcoh] Hc Hfind. unfold getClubByName. simpl. rewrite Hc.
  now apply find_club_set.
Qed.

Lemma joinClub_result userId clubName s :
  fst (joinClub userId clubName s) =
    match getUser userId s, getClubByName clubName s with
    | Some _, Some _ => true
    | _, _ => false
    end.
Proof.
  unfold joinClub.
  destruct (getUser userId s); [|reflexivity].
  now destruct (getClubByName clubName s).
Qed.

Lemma joinClub_lookup userId clubName s user club :
  clubsCoherent s ->
  getUser userId s = Some user ->
  getClubByName clubName s = Some club ->
  let s1 := snd (joinClub userId clubName s) in
  getUser userId s1 = Some (joinedUser user clubName) /\
  getClubByName clubName s1 = Some (joinedClub club userId).
Proof.
  intros Hcoh Hu Hc s1. subst s1. unfold joinClub. rewrite Hu, Hc.
  unfold joinedUser, joinedClub.
  set (upd := clubsUpdate _).
  pose proof (getUser_updateUser userId upd s) as Hgu.
  pose proof (updateUser_rest userId upd s) as (_ & Hcl & _).
  rewrite Hu in Hgu. simpl in Hgu.
  destruct (includes (arrayOrEmpty (User.clubs user)) clubName);
  destruct (includes (arrayOrEmpty (Club.members club)) userId); simpl.
  - now split.
  - split; [exact Hu|]. apply getClubByName_setMembers with (s := s); auto.
  - split; [exact Hgu|]. unfold getClubByName. rewrite Hcl. exact Hc.
  - split.
    + unfold getUser. simpl. exact Hgu.
    + apply getClubByName_setMembers with (s := s); auto.
Qed.

Lemma joinedUser_clubs user clubName :
  arrayOrEmpty (User.clubs (joinedUser user clubName)) =
    if includes (arrayOrEmpty (User.clubs user)) clubName
    then arrayOrEmpty (User.clubs user)
    else push (arrayOrEmpty (User.clubs user)) clubName.
Proof.
  unfold joinedUser.
  now destruct (includes (arrayOrEmpty (User.clubs user)) clubName).
Qed.

Lemma joinedClub_members club userId :
  arrayOrEmpty (Club.members (joinedClub club userId)) =
    if includes (arrayOrEmpty (Club.members club)) userId
    then arrayOrEmpty (Club.members club)
    else push (arrayOrEmpty (Club.members club)) userId.
Proof.
  unfold joinedClub.
  now destruct (includes (arrayOrEmpty (Club.members club)) userId).
Qed.

Lemma includes_pushed xs x :
  includes (if includes xs x then xs else push xs x) x = true.
Proof.
  destruct (includes xs x) eqn:E; [exact E|].
  apply includes_In, In_push. now right.
Qed.

Lemma NoDup_pushed xs x :
  NoDup xs -> NoDup (if includes xs x then xs else push xs x).
Proof.
  intros Hnd. destruct (includes xs x) eqn:E; [exact Hnd|].
  apply includes_false in E. unfold push.
  apply NoDup_app; auto.
  - constructor; [simpl; tauto | constructor].
  - intros a Ha [<-|[]]. contradiction.
Qed.

(** A second [joinClub] changes nothing. *)
Lemma joinClub_again userId clubName s user club :
  getUser userId s = Some user ->
  getClubByName clubName s = Some club ->
  includes (arrayOrEmpty (User.clubs user)) clubName = true ->
  includes (arrayOrEmpty (Club.members club)) userId = true ->
  joinClub userId clubName s = (true, s).
Proof.
  intros Hu Hc Hiu Hic. unfold joinClub. now rewrite Hu, Hc, Hiu, Hic.
Qed.

Lemma leaveClub_result userId clubName s :
  fst (leaveClub userId clubName s) = fst (joinClub userId clubName s).
Proof.
  unfold leaveClub, joinClub.
  destruct (getUser userId s); [|reflexivity].
  now destruct (getClubByName clubName s).
Qed.

Lemma leaveClub_lookup userId clubName s user club :
  clubsCoherent s ->
  getUser userId s = Some user ->
  getClubByName clubName s = Some club ->
  let s2 := snd (leaveClub userId clubName s) in
  getUser userId s2 =
    Some (mergeUser user
            (clubsUpdate (JArray (without clubName (arrayOrEmpty (User.clubs user)))))) /\
  getClubByName clubName s2 =
    Some (setMembers club (JArray (without userId (arrayOrEmpty (Club.members club))))).
Proof.
  intros Hcoh Hu Hc s2. subst s2. unfold leaveClub. rewrite Hu, Hc.
  set (upd := clubsUpdate _).
  pose proof (getUser_updateUser userId upd s) as Hgu.
  pose proof (updateUser_rest userId upd s) as (_ & Hcl & _).
  rewrite Hu in Hgu. simpl in Hgu. simpl. split.
  - unfold getUser. simpl. exact Hgu.
  - apply getClubByName_setMembers with (s := s); auto.
Qed.

End Membership.

Section ClubsCoherent.
Import MemStorage Store.

Lemma coherentClubs_set id club m :
  coherentClubs m -> Club.id club = id -> coherentClubs (JsMap.set id club m).
Proof.
  intros [Hwf Hcoh] Hid. split.
  - now apply wf_set.
  - intros k c Hin. apply In_set in Hin; [|assumption].
    destruct Hin as [[= -> ->]|[Hin _]]; auto.
Qed.

Lemma coherentClubs_initializeDefaultClubs cs : forall ids now m,
  coherentClubs m -> coherentClubs (initializeDefaultClubs cs ids now m).
Proof.
  induction cs as [|c cs IH]; intros ids now m Hm; simpl; auto.
  destruct ids as [|id ids]; auto.
  apply IH. now apply coherentClubs_set.
Qed.

Lemma clubsCoherent_init ids now : clubsCoherent (init ids now).
Proof.
  apply (coherentClubs_initializeDefaultClubs defaultClubs ids now JsMap.empty).
  split; [constructor | intros k c []].
Qed.

Lemma markAll_clubs userId s :
  clubs (snd (markAllNotificationsRead userId s)) = clubs s.
Proof. reflexivity. Qed.

Lemma joinClub_clubsCoherent userId clubName s :
  clubsCoherent s -> clubsCoherent (snd (joinClub userId clubName s)).
Proof.
  intros Hcoh. unfold joinClub.
  destruct (getUser userId s) as [user|]; [|exact Hcoh].
  destruct (getClubByName clubName s) as [club|] eqn:Hc; [|exact Hcoh].
  set (s1 := if negb (includes _ clubName) then _ else s).
  assert (Hs1 : clubs s1 = clubs s).
  { subst s1. destruct (negb _); [|reflexivity].
    apply (updateUser_rest userId _ s). }
  destruct (negb (includes (arrayOrEmpty (Club.members club)) userId)); simpl.
  - unfold clubsCoherent. simpl. rewrite Hs1.
    apply coherentClubs_set; [exact Hcoh | reflexivity].
  - unfold clubsCoherent. rewrite Hs1. exact Hcoh.
Qed.

Lemma leaveClub_clubsCoherent userId clubName s :
  clubsCoherent s -> clubsCoherent (snd (leaveClub userId clubName s)).
Proof.
  intros Hcoh. unfold leaveClub.
  destruct (getUser userId s) as [user|]; [|exact Hcoh].
  destruct (getClubByName clubName s) as [club|] eqn:Hc; [|exact Hcoh].
  unfold clubsCoherent. simpl.
  destruct (updateUser_rest userId
              (clubsUpdate (JArray (without clubName (arrayOrEmpty (User.clubs user))))) s)
    as (_ & Hcl & _).
  rewrite Hcl. apply coherentClubs_set; [exact Hcoh | reflexivity].
Qed.

Lemma run_clubsCoherent op s : clubsCoherent s -> clubsCoherent (run op s).
Proof.
  intros Hcoh. destruct op; simpl;
    try (now apply joinClub_clubsCoherent);
    try (now apply leaveClub_clubsCoherent).
  - exact Hcoh.
  - unfold clubsCoherent.
    destruct (updateUser_rest id updates s) as (_ & -> & _). exact Hcoh.
  - exact Hcoh.
  - unfold updateEvent. now destruct (JsMap.get id (events s)).
  - exact Hcoh.
  - apply coherentClubs_set; [exact Hcoh | reflexivity].
  - unfold rsvpEvent. now destruct (JsMap.get eventId (events s)).
  - unfold unrsvpEvent. now destruct (JsMap.get eventId (events s)).
  - exact Hcoh.
  - unfold markNotificationRead. now destruct (JsMap.get id (notifications s)).
  - exact Hcoh.
Qed.

Lemma reachableAny_clubsCoherent s : reachableAny s -> clubsCoherent s.
Proof.
  induction 1 as [ids now | op s _ IH].
  - apply clubsCoherent_init.
  - now apply run_clubsCoherent.
Qed.

End ClubsCoherent.

(** C5. In every store the program can reach, for a user [u] and a club
    name [c]: [joinClub(u, c)] returns [false] exactly when the user or
    the club does not exist; when it succeeds, [c] is among [u]'s clubs
    and [u] among [c]'s members, each array gains at most the one missing
    entry (so arrays without duplicates stay so), and a second call
    returns [true] and leaves the store as the first left it; after
    [leaveClub(u, c)], neither array contains the other side. *)
Theorem joinClub_leaveClub_spec :
  forall (s : MemStorage.t) (u c : string),
    Store.reachableAny s ->
    (fst (MemStorage.joinClub u c s) = false <->
     MemStorage.getUser u s = None \/ MemStorage.getClubByName c s = None) /\
    (fst (MemStorage.joinClub u c s) = true ->
     let s1 := snd (MemStorage.joinClub u c s) in
     let s2 := snd (MemStorage.leaveClub u c s1) in
     In c (MemStorage.clubsOf u s1) /\
     In u (MemStorage.membersOf c s1) /\
     MemStorage.clubsOf u s1 =
       (if includes (MemStorage.clubsOf u s) c then MemStorage.clubsOf u s
        else push (MemStorage.clubsOf u s) c) /\
     MemStorage.membersOf c s1 =
       (if includes (MemStorage.membersOf c s) u then MemStorage.membersOf c s
        else push (MemStorage.membersOf c s) u) /\
     (NoDup (MemStorage.clubsOf u s) -> NoDup (MemStorage.clubsOf u s1)) /\
     (NoDup (MemStorage.membersOf c s) -> NoDup (MemStorage.membersOf c s1)) /\
     MemStorage.joinClub u c s1 = (true, s1) /\
     fst (MemStorage.leaveClub u c s1) = true /\
     ~ In c (MemStorage.clubsOf u s2) /\
     ~ In u (MemStorage.membersOf c s2) /\
     ~ In c (MemStorage.clubsOf u (snd (MemStorage.leaveClub u c s))) /\
     ~ In u (MemStorage.membersOf c (snd (MemStorage.leaveClub u c s)))).
Proof.
  intros s u c Hreach.
  pose proof (reachableAny_clubsCoherent s Hreach) as Hcoh.
  assert (Hcoh1 : Store.clubsCoherent (snd (MemStorage.joinClub u c s)))
    by (apply (reachableAny_clubsCoherent _ (Store.any_step (Store.JoinClub u c) Hreach))).
  rewrite joinClub_result. split.
  - destruct (MemStorage.getUser u s); [|intuition congruence].
    destruct (MemStorage.getClubByName c s); intuition congruence.
  - destruct (MemStorage.getUser u s) as [user|] eqn:Hu; [|discriminate].
    destruct (MemStorage.getClubByName c s) as [club|] eqn:Hc; [|discriminate].
    intros _ s1 s2.
    destruct (joinClub_lookup u c s user club Hcoh Hu Hc) as [Hu1 Hc1].
    fold s1 in Hu1, Hc1, Hcoh1.
    destruct (leaveClub_lookup u c s1 _ _ Hcoh1 Hu1 Hc1) as [Hu2 Hc2].
    fold s2 in Hu2, Hc2.
    destruct (leaveClub_lookup u c s _ _ Hcoh Hu Hc) as [Hu3 Hc3].
    unfold MemStorage.clubsOf, MemStorage.membersOf.
    rewrite Hu, Hc, Hu1, Hc1, Hu2, Hc2, Hu3, Hc3.
    rewrite joinedUser_clubs, joinedClub_members.
    pose proof (includes_pushed (arrayOrEmpty (User.clubs user)) c) as Hiu.
    pose proof (includes_pushed (arrayOrEmpty (Club.members club)) u) as Hic.
    repeat split.
    + now apply includes_In.
    + now apply includes_In.
    + apply NoDup_pushed.
    + apply NoDup_pushed.
    + apply (joinClub_again u c s1 _ _ Hu1 Hc1).
      * now rewrite joinedUser_clubs.
      * now rewrite joinedClub_members.
    + rewrite leaveClub_result, joinClub_result. now rewrite Hu1, Hc1.
    + simpl. apply not_In_without.
    + simpl. apply not_In_without.
    + simpl. apply not_In_without.
    + simpl. apply not_In_without.
Qed.

Lemma joinClub_leaveClub_spec_witness :
  MemStorage.clubsOf "u1" (snd (MemStorage.joinClub "u1" "Coding Club" sampleClubStore))
    = ["Coding Club"] /\
  In "u1" (MemStorage.membersOf "Coding Club"
             (snd (MemStorage.joinClub "u1" "Coding Club" sampleClubStore))) /\
  (fst (MemStorage.joinClub "u1" "Chess Club" sampleClubStore) = false <->
   MemStorage.getUser "u1" sampleClubStore = None \/
   MemStorage.getClubByName "Chess Club" sampleClubStore = None).
Proof.
  assert (Hr : Store.reachableAny sampleClubStore)
    by (apply Store.any_step, Store.any_init).
  split; [reflexivity|]. split.
  - apply (proj2 (joinClub_leaveClub_spec sampleClubStore "u1" "Coding Club" Hr)
             eq_refl).
  - apply (proj1 (joinClub_leaveClub_spec sampleClubStore "u1" "Chess Club" Hr)).
Defined.

(* ------------------------------------------------------------------ *)
(** ** The membership mirror *)

Section Mirror.
Import MemStorage Store.

Lemma NoDup_map_inj {A B} (f : A -> B) (l : list A) x y :
  NoDup (map f l) -> In x l -> In y l -> f x = f y -> x = y.
Proof.
  induction l as [|a l IH]; simpl; [tauto|].
  intros Hnd Hx Hy Hf. inversion Hnd as [|? ? Hni Hnd']; subst.
  destruct Hx as [->|Hx], Hy as [->|Hy]; auto.
  - exfalso. apply Hni. rewrite Hf. now apply in_map.
  - exfalso. apply Hni. rewrite <- Hf. now apply in_map.
Qed.

Lemma getClubByName_names n s :
  getClubByName n s <> None <-> In n (map Club.name (JsMap.values (clubs s))).
Proof.
  unfold getClubByName.
  destruct (find _ (JsMap.values (clubs s))) as [club|] eqn:F.
  - apply find_some in F. destruct F as [Hin Hn].
    apply String.eqb_eq in Hn. subst n.
    split; [intros _; now apply in_map | discriminate].
  - split; [congruence|]. intros Hin. exfalso.
    apply in_map_iff in Hin. destruct Hin as (club & Hn & Hin).
    pose proof (find_none _ _ F club Hin) as Hf. simpl in Hf.
    subst n. now rewrite String.eqb_refl in Hf.
Qed.

Lemma consistent_ext s s' :
  users s' = users s -> clubs s' = clubs s -> consistent s -> consistent s'.
Proof.
  unfold consistent, usersCoherent, clubsCoherent, clubNamesUnique,
    referencesResolve, mirror, getClubByName.
  intros -> ->. auto.
Qed.

Lemma club_entry c s club :
  clubsCoherent s -> getClubByName c s = Some club ->
  Club.name club = c /\ In (Club.id club, club) (clubs s) /\
  JsMap.get (Club.id club) (clubs s) = Some club.
Proof.
  intros [Hwf Hcoh] Hf.
  destruct (getClubByName_In c s club Hf) as [Hn [k Hin]].
  rewrite (Hcoh k club Hin). repeat split; auto.
  now apply In_get.
Qed.

Lemma unique_club_name s k1 c1 k2 c2 :
  clubNamesUnique s ->
  In (k1, c1) (clubs s) -> In (k2, c2) (clubs s) ->
  Club.name c1 = Club.name c2 -> k1 = k2.
Proof.
  unfold clubNamesUnique, JsMap.values. rewrite map_map.
  intros Hnd H1 H2 Hn.
  assert (E : (k1, c1) = (k2, c2))
    by (apply (NoDup_map_inj _ _ _ _ Hnd H1 H2); exact Hn).
  congruence.
Qed.

(** Replacing one user and one club by versions that agree with each other
    on this pair and with the old ones on every other pair. *)
Lemma relink_consistent s u c user club user' club' :
  consistent s ->
  JsMap.get u (users s) = Some user ->
  getClubByName c s = Some club ->
  User.id user' = User.id user ->
  Club.id club' = Club.id club ->
  Club.name club' = Club.name club ->
  (forall n, n <> c ->
     (In n (arrayOrEmpty (User.clubs user')) <-> In n (arrayOrEmpty (User.clubs user)))) ->
  (forall x, x <> u ->
     (In x (arrayOrEmpty (Club.members club')) <-> In x (arrayOrEmpty (Club.members club)))) ->
  (In c (arrayOrEmpty (User.clubs user')) <-> In u (arrayOrEmpty (Club.members club'))) ->
  consistent (mk (JsMap.set u user' (users s)) (events s)
                 (JsMap.set (Club.id club) club' (clubs s)) (notifications s)).
Proof.
  intros (Huc & Hcc & Hnames & [Hr1 Hr2] & Hm) Hu Hc Hid Hcid Hcname H1 H2 H3.
  destruct Huc as [Huwf Hucoh].
  destruct (club_entry c s club Hcc Hc) as (Hn & Hcin & Hcget).
  destruct Hcc as [Hcwf Hccoh].
  pose proof (get_In _ _ _ Hu) as Huin.
  pose proof (Hucoh _ _ Huin) as Huid.
  assert (Hnames' : map Club.name (JsMap.values (JsMap.set (Club.id club) club' (clubs s)))
                    = map Club.name (JsMap.values (clubs s)))
    by (apply values_set_same with (v0 := club); assumption).
  unfold consistent, usersCoherent, clubsCoherent, clubNamesUnique,
    referencesResolve, mirror. simpl.
  split; [|split; [|split; [|split; [split|]]]].
  - split; [now apply wf_set|].
    intros k x Hin. apply In_set in Hin; [|assumption].
    destruct Hin as [[= -> ->]|[Hin _]]; [congruence | auto].
  - apply coherentClubs_set; [now split | assumption].
  - now rewrite Hnames'.
  - intros k cl x Hin Hx. apply get_set_present.
    apply In_set in Hin; [|assumption].
    destruct (String.eqb_spec x u) as [->|Hne]; [now left | right].
    destruct Hin as [[= -> ->]|[Hin _]].
    + apply (Hr1 _ club x Hcin). now apply H2.
    + now apply (Hr1 k cl x).
  - intros k usr n Hin Hx.
    apply getClubByName_names. simpl. rewrite Hnames'.
    apply getClubByName_names.
    apply In_set in Hin; [|assumption].
    destruct Hin as [[= -> ->]|[Hin _]].
    + destruct (String.eqb_spec n c) as [->|Hne]; [congruence|].
      apply (Hr2 u user n Huin). now apply H1.
    + now apply (Hr2 k usr n).
  - intros ku x kc y Hx Hy.
    apply In_set in Hx; [|assumption]. apply In_set in Hy; [|assumption].
    destruct Hx as [[= -> ->]|[Hx Hku]], Hy as [[= -> ->]|[Hy Hkc]]; simpl in *.
    + rewrite Hcname, Hn, Hid, Huid. exact H3.
    + assert (Hny : Club.name y <> c).
      { intros E. apply Hkc.
        apply (unique_club_name s kc y (Club.id club) club Hnames Hy Hcin).
        congruence. }
      rewrite (H1 _ Hny), Hid. now apply (Hm u user kc y).
    + assert (Hix : User.id x <> u) by (rewrite (Hucoh _ _ Hx); exact Hku).
      rewrite Hcname, (H2 _ Hix). now apply (Hm ku x (Club.id club) club).
    + now apply (Hm ku x kc y).
Qed.

Lemma joinClub_maps userId clubName s user club :
  clubsCoherent s ->
  JsMap.get userId (users s) = Some user ->
  getClubByName clubName s = Some club ->
  let s1 := snd (joinClub userId clubName s) in
  users s1 = JsMap.set userId (joinedUser user clubName) (users s) /\
  clubs s1 = JsMap.set (Club.id club) (joinedClub club userId) (clubs s).
Proof.
  intros Hcc Hu Hc s1. subst s1.
  destruct (club_entry clubName s club Hcc Hc) as (_ & _ & Hcget).
  unfold joinClub, getUser. rewrite Hu, Hc.
  unfold joinedUser, joinedClub, updateUser. rewrite Hu. simpl.
  destruct (includes (arrayOrEmpty (User.clubs user)) clubName);
  destruct (includes (arrayOrEmpty (Club.members club)) userId); simpl;
    rewrite ?(set_same _ _ _ Hu), ?(set_same _ _ _ Hcget); auto.
Qed.

Lemma leaveClub_maps userId clubName s user club :
  JsMap.get userId (users s) = Some user ->
  getClubByName clubName s = Some club ->
  let s2 := snd (leaveClub userId clubName s) in
  users s2 = JsMap.set userId
               (mergeUser user (clubsUpdate
                  (JArray (without clubName (arrayOrEmpty (User.clubs user))))))
               (users s) /\
  clubs s2 = JsMap.set (Club.id club)
               (setMembers club (JArray (without userId (arrayOrEmpty (Club.members club)))))
               (clubs s).
Proof.
  intros Hu Hc s2. subst s2.
  unfold leaveClub, getUser. rewrite Hu, Hc.
  unfold updateUser. rewrite Hu. simpl. auto.
Qed.

Lemma joinClub_consistent userId clubName s :
  consistent s -> consistent (snd (joinClub userId clubName s)).
Proof.
  intros Hs.
  destruct (JsMap.get userId (users s)) as [user|] eqn:Hu;
    [|unfold joinClub, getUser; now rewrite Hu].
  destruct (getClubByName clubName s) as [club|] eqn:Hc;
    [|unfold joinClub, getUser; now rewrite Hu, Hc].
  assert (Hcc : clubsCoherent s) by apply Hs.
  destruct (joinClub_maps userId clubName s user club Hcc Hu Hc) as [Eu Ec].
  eapply consistent_ext;
    [| | apply (relink_consistent s userId clubName user club
                  (joinedUser user clubName) (joinedClub club userId) Hs Hu Hc)].
  - exact Eu.
  - exact Ec.
  - unfold joinedUser. now destruct (includes _ clubName).
  - unfold joinedClub. now destruct (includes _ userId).
  - unfold joinedClub. now destruct (includes _ userId).
  - intros n Hne. rewrite joinedUser_clubs.
    destruct (includes _ clubName); [tauto|].
    rewrite In_push. intuition congruence.
  - intros x Hne. rewrite joinedClub_members.
    destruct (includes _ userId); [tauto|].
    rewrite In_push. intuition congruence.
  - rewrite joinedUser_clubs, joinedClub_members.
    rewrite <- !includes_In, !includes_pushed. tauto.
Qed.

Lemma leaveClub_consistent userId clubName s :
  consistent s -> consistent (snd (leaveClub userId clubName s)).
Proof.
  intros Hs.
  destruct (JsMap.get userId (users s)) as [user|] eqn:Hu;
    [|unfold leaveClub, getUser; now rewrite Hu].
  destruct (getClubByName clubName s) as [club|] eqn:Hc;
    [|unfold leaveClub, getUser; now rewrite Hu, Hc].
  destruct (leaveClub_maps userId clubName s user club Hu Hc) as [Eu Ec].
  eapply consistent_ext;
    [| | apply (relink_consistent s userId clubName user club
                  (mergeUser user (clubsUpdate
                     (JArray (without clubName (arrayOrEmpty (User.clubs user))))))
                  (setMembers club
                     (JArray (without userId (arrayOrEmpty (Club.members club)))))
                  Hs Hu Hc)].
  - exact Eu.
  - exact Ec.
  - reflexivity.
  - reflexivity.
  - reflexivity.
  - intros n Hne. simpl. rewrite In_without. tauto.
  - intros x Hne. simpl. rewrite In_without. tauto.
  - simpl. rewrite !In_without. tauto.
Qed.

End Mirror.

Section MirrorSteps.
Import MemStorage Store.

Lemma createUser_consistent id now insertUser s :
  JsMap.get id (users s) = None ->
  consistent s -> consistent (snd (createUser id now insertUser s)).
Proof.
  intros Hfresh (Huc & Hcc & Hnames & [Hr1 Hr2] & Hm).
  destruct Huc as [Huwf Hucoh].
  unfold consistent, usersCoherent, clubNamesUnique, referencesResolve, mirror.
  simpl. split; [|split; [|split; [|split; [split|]]]]; auto.
  - split; [now apply wf_set|].
    intros k x Hin. apply In_set in Hin; [|assumption].
    destruct Hin as [[= -> ->]|[Hin _]]; auto.
  - intros k cl x Hin Hx. apply get_set_present. right. now apply (Hr1 k cl x).
  - intros k usr n Hin Hx. apply In_set in Hin; [|assumption].
    destruct Hin as [[= -> ->]|[Hin _]]; [destruct Hx|].
    now apply (Hr2 k usr n).
  - intros ku x kc y Hx Hy. apply In_set in Hx; [|assumption].
    destruct Hx as [[= -> ->]|[Hx _]]; [|now apply (Hm ku x kc y)].
    simpl. split; [tauto|]. intros Hin. exfalso.
    now apply (Hr1 kc y id Hy Hin).
Qed.

Lemma updateUser_consistent id updates s :
  PartialUser.id updates = None -> PartialUser.clubs updates = None ->
  consistent s -> consistent (snd (updateUser id updates s)).
Proof.
  intros Hid Hclubs Hs. unfold updateUser.
  destruct (JsMap.get id (users s)) as [user|] eqn:Hu; [|exact Hs].
  destruct Hs as (Huc & Hcc & Hnames & [Hr1 Hr2] & Hm).
  destruct Huc as [Huwf Hucoh].
  pose proof (get_In _ _ _ Hu) as Huin.
  assert (Eid : User.id (mergeUser user updates) = User.id user)
    by (unfold mergeUser; simpl; now rewrite Hid).
  assert (Ecl : User.clubs (mergeUser user updates) = User.clubs user)
    by (unfold mergeUser; simpl; now rewrite Hclubs).
  unfold consistent, usersCoherent, clubNamesUnique, referencesResolve, mirror.
  simpl. split; [|split; [|split; [|split; [split|]]]]; auto.
  - split; [now apply wf_set|].
    intros k x Hin. apply In_set in Hin; [|assumption].
    destruct Hin as [[= -> ->]|[Hin _]]; auto.
    rewrite Eid. now apply Hucoh.
  - intros k cl x Hin Hx. apply get_set_present. right. now apply (Hr1 k cl x).
  - intros k usr n Hin Hx. apply In_set in Hin; [|assumption].
    destruct Hin as [[= -> ->]|[Hin _]]; [|now apply (Hr2 k usr n)].
    rewrite Ecl in Hx. now apply (Hr2 id user n).
  - intros ku x kc y Hx Hy. apply In_set in Hx; [|assumption].
    destruct Hx as [[= -> ->]|[Hx _]]; [|now apply (Hm ku x kc y)].
    rewrite Eid, Ecl. now apply (Hm id user kc y).
Qed.

Lemma createClub_consistent id now insertClub s :
  JsMap.get id (clubs s) = None ->
  getClubByName (InsertClub.name insertClub) s = None ->
  consistent s -> consistent (snd (createClub id now insertClub s)).
Proof.
  intros Hfresh Hname (Huc & Hcc & Hnames & [Hr1 Hr2] & Hm).
  unfold createClub. simpl snd.
  remember (Club.mk id (InsertClub.name insertClub)
              (orNull (InsertClub.description insertClub))
              (InsertClub.category insertClub)
              (orNull (InsertClub.adminId insertClub)) (JArray []) now)
    as club eqn:Eclub.
  assert (Hcid : Club.id club = id) by now subst club.
  assert (Hcname : Club.name club = InsertClub.name insertClub) by now subst club.
  assert (Hcmem : Club.members club = JArray []) by now subst club.
  clear Eclub.
  assert (Hset : JsMap.set id club (clubs s) = clubs s ++ [(id, club)])
    by (apply keys_set_absent; now apply get_None_keys).
  assert (Hnew : ~ In (InsertClub.name insertClub)
                     (map Club.name (JsMap.values (clubs s)))).
  { intros Hin. apply getClubByName_names in Hin. contradiction. }
  assert (Hvals : map Club.name (JsMap.values (JsMap.set id club (clubs s)))
                  = map Club.name (JsMap.values (clubs s)) ++ [InsertClub.name insertClub]).
  { rewrite Hset. unfold JsMap.values. rewrite !map_app. simpl. now rewrite Hcname. }
  unfold consistent, clubsCoherent, clubNamesUnique, referencesResolve, mirror.
  simpl.
  split; [|split; [|split; [|split; [split|]]]]; auto.
  - now apply coherentClubs_set.
  - rewrite Hvals. apply NoDup_app; auto.
    + constructor; [simpl; tauto | constructor].
    + intros a Ha [<-|[]]. contradiction.
  - intros k cl x Hin Hx. apply In_set_weak in Hin.
    destruct Hin as [[= -> ->]|Hin]; [rewrite Hcmem in Hx; destruct Hx|].
    now apply (Hr1 k cl x).
  - intros k usr n Hin Hx. apply getClubByName_names. simpl.
    rewrite Hvals. apply in_or_app. left.
    apply getClubByName_names. now apply (Hr2 k usr n).
  - intros ku x kc y Hx Hy. apply In_set_weak in Hy.
    destruct Hy as [[= -> ->]|Hy]; [|now apply (Hm ku x kc y)].
    rewrite Hcname, Hcmem. simpl. split; [|tauto]. intros Hin. exfalso.
    now apply (Hr2 ku x _ Hx Hin).
Qed.

Lemma initializeDefaultClubs_names cs : forall ids now m,
  NoDup ids -> (forall id, In id ids -> ~ In id (JsMap.keys m)) ->
  NoDup (map Club.name (JsMap.values m) ++ map InsertClub.name cs) ->
  NoDup (map Club.name (JsMap.values (initializeDefaultClubs cs ids now m))).
Proof.
  induction cs as [|c cs IH]; intros ids now m Hids Hfresh Hnd; simpl.
  - now rewrite app_nil_r in Hnd.
  - destruct ids as [|id ids]; [now apply NoDup_app_remove_r in Hnd|].
    inversion Hids as [|? ? Hni Hids']; subst.
    rewrite keys_set_absent by (apply Hfresh; now left).
    apply IH; auto.
    + intros id' Hin. unfold JsMap.keys. rewrite map_app, in_app_iff. simpl.
      intros [Hk|[<-|[]]]; [|contradiction].
      apply (Hfresh id'); [now right | exact Hk].
    + unfold JsMap.values. rewrite !map_app. simpl.
      rewrite <- app_assoc. exact Hnd.
Qed.

Lemma initializeDefaultClubs_members cs : forall ids now m,
  (forall k club, In (k, club) m -> Club.members club = JArray []) ->
  forall k club, In (k, club) (initializeDefaultClubs cs ids now m) ->
                 Club.members club = JArray [].
Proof.
  induction cs as [|c cs IH]; intros ids now m Hm; simpl; auto.
  destruct ids as [|id ids]; auto.
  apply IH. intros k club Hin. apply In_set_weak in Hin.
  destruct Hin as [[= -> ->]|Hin]; [reflexivity | eauto].
Qed.

Lemma init_consistent ids now : NoDup ids -> consistent (init ids now).
Proof.
  intros Hids.
  unfold consistent, usersCoherent, clubNamesUnique, referencesResolve, mirror.
  split; [|split; [|split; [|split; [split|]]]];
    unfold init; cbn [users clubs].
  - split; [constructor | intros k u []].
  - apply clubsCoherent_init.
  - apply initializeDefaultClubs_names; auto.
    simpl. repeat constructor; simpl; intuition discriminate.
  - intros k club x Hin Hx.
    rewrite (initializeDefaultClubs_members defaultClubs ids now JsMap.empty
               (fun _ _ (F : In _ []) => match F with end) k club Hin) in Hx.
    destruct Hx.
  - intros k u n [].
  - intros ku u kc c [].
Qed.

Lemma run_consistent op s :
  keepsMirror op s -> consistent s -> consistent (run op s).
Proof.
  intros Hop Hs. destruct op; simpl in *.
  - now apply createUser_consistent.
  - now apply updateUser_consistent.
  - now apply (consistent_ext s).
  - apply (consistent_ext s); auto;
      unfold updateEvent; now destruct (JsMap.get id (events s)).
  - now apply (consistent_ext s).
  - now apply createClub_consistent.
  - now apply joinClub_consistent.
  - now apply leaveClub_consistent.
  - apply (consistent_ext s); auto;
      unfold rsvpEvent; now destruct (JsMap.get eventId (events s)).
  - apply (consistent_ext s); auto;
      unfold unrsvpEvent; now destruct (JsMap.get eventId (events s)).
  - now apply (consistent_ext s).
  - apply (consistent_ext s); auto;
      unfold markNotificationRead; now destruct (JsMap.get id (notifications s)).
  - now apply (consistent_ext s).
Qed.

Lemma reachable_consistent s : reachable s -> consistent s.
Proof.
  induction 1 as [ids now Hids _ | op s _ IH Hop].
  - now apply init_consistent.
  - now apply run_consistent.
Qed.

End MirrorSteps.

Lemma sampleJoinedStore_reachable : Store.reachable sampleJoinedStore.
Proof.
  unfold sampleJoinedStore, sampleClubStore.
  apply Store.reach_step; [apply Store.reach_step|]; simpl; auto.
  apply Store.reach_init; [|reflexivity].
  unfold sampleIds. repeat constructor; simpl; intuition discriminate.
Qed.

(** C2, as amended. The membership mirror holds in a new store and in
    every store reached from it by calls of the store's methods, provided
    [randomUUID()] returns unused ids, [createClub] is given an unused
    name, and [updateUser] is given no [id] and no [clubs] field. *)
Theorem mirror_invariant :
  (forall ids now, Store.mirror (MemStorage.init ids now)) /\
  (forall s op,
      Store.reachable s -> Store.keepsMirror op s ->
      Store.mirror s /\ Store.mirror (Store.run op s)).
Proof.
  split.
  - intros ids now ku user kc club [].
  - intros s op Hs Hop. pose proof (reachable_consistent s Hs) as Hc. split.
    + apply Hc.
    + now apply run_consistent.
Qed.

Lemma mirror_invariant_witness :
  Store.mirror sampleClubStore /\
  Store.mirror (Store.run (Store.JoinClub "u1" "Coding Club") sampleClubStore).
Proof.
  apply (proj2 mirror_invariant sampleClubStore (Store.JoinClub "u1" "Coding Club")).
  - unfold sampleClubStore. apply Store.reach_step; [|reflexivity].
    apply Store.reach_init; [|reflexivity].
    unfold sampleIds. repeat constructor; simpl; intuition discriminate.
  - exact I.
Defined.

(** C2 as stated fails: from a store that satisfies the mirror,
    [updateUser] with a [clubs] field, [updateUser] with an [id] field and
    [createClub] with a name in use each leave a store that does not. *)
Lemma updateUser_breaks_mirror :
  Store.mirror sampleJoinedStore /\
  ~ Store.mirror
      (Store.run (Store.UpdateUser "u1"
                    (MemStorage.clubsUpdate (JArray ["Robotics Club"])))
         sampleJoinedStore) /\
  ~ Store.mirror
      (Store.run (Store.UpdateUser "u1"
                    (PartialUser.mk (Some "u9") None None None None None None None None))
         sampleJoinedStore) /\
  ~ Store.mirror
      (Store.run (Store.CreateClub "c6" 20
                    (InsertClub.mk "Coding Club" None "Technical" None))
         sampleJoinedStore).
Proof.
  split; [apply reachable_consistent, sampleJoinedStore_reachable|].
  split; [|split]; intros H.
  - specialize (H "u1" _ "c1" _ (or_introl eq_refl) (or_introl eq_refl)).
    cbv in H. destruct H as [_ H]. destruct (H (or_introl eq_refl)) as [E|[]].
    discriminate E.
  - specialize (H "u1" _ "c1" _ (or_introl eq_refl) (or_introl eq_refl)).
    cbv in H. destruct H as [H _]. destruct (H (or_introl eq_refl)) as [E|[]].
    discriminate E.
  - assert (Hin : In ("c6", fst (MemStorage.createClub "c6" 20
                     (InsertClub.mk "Coding Club" None "Technical" None)
                     sampleJoinedStore))
                    (MemStorage.clubs
                       (Store.run (Store.CreateClub "c6" 20
                          (InsertClub.mk "Coding Club" None "Technical" None))
                          sampleJoinedStore)))
      by (cbv; tauto).
    specialize (H "u1" _ "c6" _ (or_introl eq_refl) Hin).
    cbv in H. destruct H as [H _]. destruct (H (or_introl eq_refl)).
Qed.

(* ------------------------------------------------------------------ *)
(** ** [updateUser] *)

(** C6 as stated fails: a partial object with [id] and [createdAt] fields
    overwrites both. *)
Lemma updateUser_overwrites_id_and_createdAt :
  let updates :=
    PartialUser.mk (Some "u9") None None None None None None (Some 999%Z) None in
  let result := MemStorage.updateUser "u1" updates sampleUserStore in
  MemStorage.getUser "u1" sampleUserStore = Some sampleUser /\
  User.id sampleUser = "u1" /\ User.createdAt sampleUser = 10%Z /\
  option_map User.id (fst result) = Some "u9" /\
  option_map User.createdAt (fst result) = Some 999%Z /\
  option_map User.id (MemStorage.getUser "u1" (snd result)) = Some "u9" /\
  option_map User.createdAt (MemStorage.getUser "u1" (snd result)) = Some 999%Z.
Proof. repeat split. Qed.

(** C6, as amended. For a user stored under [id], [updateUser(id, p)]
    returns and stores the user in which every field that [p] has is
    replaced by [p]'s value, [id] and [createdAt] included, and every other
    field is kept; so the id and the creation timestamp are unchanged when
    [p] has no [id] and no [createdAt] field. Other users and the other
    maps are untouched. It returns [undefined] exactly when the id is
    unknown, and then the store is unchanged. *)
Theorem updateUser_merges :
  (forall s id p,
      fst (MemStorage.updateUser id p s) = None <-> MemStorage.getUser id s = None) /\
  (forall s id p,
      MemStorage.getUser id s = None -> snd (MemStorage.updateUser id p s) = s) /\
  (forall s id p user,
      MemStorage.getUser id s = Some user ->
      let s' := snd (MemStorage.updateUser id p s) in
      exists updated,
        fst (MemStorage.updateUser id p s) = Some updated /\
        MemStorage.getUser id s' = Some updated /\
        User.id updated = spread (User.id user) (PartialUser.id p) /\
        User.name updated = spread (User.name user) (PartialUser.name p) /\
        User.email updated = spread (User.email user) (PartialUser.email p) /\
        User.password updated = spread (User.password user) (PartialUser.password p) /\
        User.role updated = spread (User.role user) (PartialUser.role p) /\
        User.clubs updated = spread (User.clubs user) (PartialUser.clubs p) /\
        User.avatar updated = spread (User.avatar user) (PartialUser.avatar p) /\
        User.createdAt updated = spread (User.createdAt user) (PartialUser.createdAt p) /\
        User.isVerified updated =
          match PartialUser.isVerified p with
          | Some b => Some b
          | None => User.isVerified user
          end /\
        (PartialUser.id p = None -> User.id updated = User.id user) /\
        (PartialUser.createdAt p = None -> User.createdAt updated = User.createdAt user) /\
        (forall id', id' <> id -> MemStorage.getUser id' s' = MemStorage.getUser id' s) /\
        JsMap.keys (MemStorage.users s') = JsMap.keys (MemStorage.users s) /\
        MemStorage.events s' = MemStorage.events s /\
        MemStorage.clubs s' = MemStorage.clubs s /\
        MemStorage.notifications s' = MemStorage.notifications s).
Proof.
  split; [|split].
  - intros s id p. unfold MemStorage.updateUser, MemStorage.getUser.
    destruct (JsMap.get id (MemStorage.users s)); simpl; split; congruence.
  - intros s id p. unfold MemStorage.updateUser, MemStorage.getUser.
    now intros ->.
  - intros s id p user Hu s'. exists (MemStorage.mergeUser user p).
    pose proof (getUser_updateUser id p s) as Hg. rewrite Hu in Hg.
    subst s'. unfold MemStorage.getUser in Hu.
    split; [unfold MemStorage.updateUser; now rewrite Hu|].
    split; [exact Hg|].
    repeat (split; [reflexivity|]).
    split; [simpl; now intros ->|].
    split; [simpl; now intros ->|].
    split; [intros id' Hne; apply getUser_updateUser_other; congruence|].
    unfold MemStorage.updateUser. rewrite Hu. simpl.
    repeat split. apply keys_set_present.
    apply In_keys_get. congruence.
Qed.

Lemma updateUser_merges_witness :
  exists updated,
    fst (MemStorage.updateUser "u1" MemStorage.verifiedUpdate sampleUserStore)
      = Some updated /\
    User.id updated = "u1" /\ User.createdAt updated = 10%Z /\
    User.isVerified updated = Some true.
Proof.
  destruct (proj2 (proj2 updateUser_merges) sampleUserStore "u1"
              MemStorage.verifiedUpdate sampleUser eq_refl)
    as (updated & Hf & _ & _ & _ & _ & _ & _ & _ & _ & _ & Hv & Hid & Hcr & _).
  exists updated. repeat split.
  - exact Hf.
  - now rewrite Hid.
  - now rewrite Hcr.
  - exact Hv.
Defined.

(* ------------------------------------------------------------------ *)
(** ** Events with counts *)

Lemma lengthOrZero_length x : lengthOrZero x = length (arrayOrEmpty x).
Proof. now destruct x. Qed.

(** C8. In every store, [getEvents] returns the stored events in order,
    each once, and for each of them [attendeeCount] and [interestedCount]
    are the lengths of that event's [attendees] and [interested] arrays as
    stored at the time of the call; the [GET /api/events] route passes
    these counts on unchanged. *)
Theorem getEvents_counts_live :
  forall (s : MemStorage.t),
    map EventWithDetails.event (MemStorage.getEvents s)
      = JsMap.values (MemStorage.events s) /\
    Forall (fun e =>
              EventWithDetails.attendeeCount e
                = length (arrayOrEmpty (Event.attendees (EventWithDetails.event e))) /\
              EventWithDetails.interestedCount e
                = length (arrayOrEmpty (Event.interested (EventWithDetails.event e))))
           (MemStorage.getEvents s) /\
    (forall id, map EventWithDetails.attendeeCount
                  (filter (fun e => String.eqb (Event.id (EventWithDetails.event e)) id)
                          (MemStorage.getEvents s))
                = map (fun ev => length (arrayOrEmpty (Event.attendees ev)))
                      (filter (fun ev => String.eqb (Event.id ev) id)
                              (JsMap.values (MemStorage.events s)))) /\
    (forall srv user,
        Server.storage srv = s ->
        exists listed,
          Http.body (fst (Routes.getEvents user srv)) = Http.EventsJson listed /\
          map EventWithDetails.event listed = JsMap.values (MemStorage.events s) /\
          map EventWithDetails.attendeeCount listed
            = map (fun ev => length (arrayOrEmpty (Event.attendees ev)))
                  (JsMap.values (MemStorage.events s)) /\
          map EventWithDetails.interestedCount listed
            = map (fun ev => length (arrayOrEmpty (Event.interested ev)))
                  (JsMap.values (MemStorage.events s))).
Proof.
  intros s. unfold MemStorage.getEvents.
  split; [|split; [|split]].
  - rewrite map_map. simpl. apply map_id.
  - apply Forall_forall. intros e Hin.
    apply in_map_iff in Hin. destruct Hin as (ev & <- & _). simpl.
    now rewrite !lengthOrZero_length.
  - intros id. induction (JsMap.values (MemStorage.events s)) as [|ev r IH];
      simpl; [reflexivity|].
    destruct (String.eqb (Event.id ev) id); simpl; rewrite IH;
      now rewrite ?lengthOrZero_length.
  - intros srv user <-. eexists. split; [reflexivity|].
    unfold MemStorage.getEvents. rewrite !map_map. simpl.
    split; [apply map_id|]. split; apply map_ext; intros ev;
      apply lengthOrZero_length.
Qed.

Lemma getEvents_counts_live_witness :
  exists listed,
    Http.body (fst (Routes.getEvents sampleUser
                      (Server.mk sampleEventStore Ws.init []))) = Http.EventsJson listed /\
    map EventWithDetails.attendeeCount listed = [1] /\
    map EventWithDetails.interestedCount listed = [2].
Proof.
  destruct (proj2 (proj2 (proj2 (getEvents_counts_live sampleEventStore)))
              (Server.mk sampleEventStore Ws.init []) sampleUser eq_refl)
    as (listed & Hb & _ & Ha & Hi).
  exists listed. repeat split; assumption.
Defined.

(* ------------------------------------------------------------------ *)
(** ** Marking a notification read *)

(** C10. [markNotificationRead(id)] looks at the id only: for every
    notification stored under [id], whoever its [userId] is, it returns
    [true], stores that notification with [read] set and every other field
    as it was, and leaves every other notification and the other maps
    alone. So [POST /api/notifications/:id/read] answers 200 for every
    authenticated caller, the notification's owner or not. *)
Theorem markNotificationRead_no_owner_check :
  forall (s : MemStorage.t) (id : string) (n : Notification.t),
    JsMap.get id (MemStorage.notifications s) = Some n ->
    let s' := snd (MemStorage.markNotificationRead id s) in
    fst (MemStorage.markNotificationRead id s) = true /\
    (exists n',
        JsMap.get id (MemStorage.notifications s') = Some n' /\
        Notification.read n' = true /\
        Notification.id n' = Notification.id n /\
        Notification.userId n' = Notification.userId n /\
        Notification.title n' = Notification.title n /\
        Notification.message n' = Notification.message n /\
        Notification.type n' = Notification.type n /\
        Notification.eventId n' = Notification.eventId n /\
        Notification.createdAt n' = Notification.createdAt n) /\
    (forall id', id' <> id ->
        JsMap.get id' (MemStorage.notifications s')
          = JsMap.get id' (MemStorage.notifications s)) /\
    JsMap.keys (MemStorage.notifications s') = JsMap.keys (MemStorage.notifications s) /\
    MemStorage.users s' = MemStorage.users s /\
    MemStorage.events s' = MemStorage.events s /\
    MemStorage.clubs s' = MemStorage.clubs s /\
    (forall (caller : User.t) (srv : Server.t),
        Server.storage srv = s ->
        fst (Routes.postNotificationRead id caller srv)
          = Http.mk 200 (Http.Message "Notification marked as read") /\
        Server.storage (snd (Routes.postNotificationRead id caller srv)) = s') /\
    (forall (secret : string) (bearer : option Jwt.token) (now : Z)
            (caller : User.t) (srv : Server.t),
        Server.storage srv = s ->
        Routes.authenticateToken secret bearer now s = inl caller ->
        fst (Routes.authenticated secret bearer now
               (Routes.postNotificationRead id) srv)
          = Http.mk 200 (Http.Message "Notification marked as read")).
Proof.
  intros s id n Hget s'. subst s'.
  unfold MemStorage.markNotificationRead. rewrite Hget. simpl.
  assert (Hroute : forall caller srv,
             Server.storage srv = s ->
             Routes.postNotificationRead id caller srv
             = (Http.mk 200 (Http.Message "Notification marked as read"),
                Server.mk
                  (MemStorage.with_notifications
                     (JsMap.set id (MemStorage.setRead n) (MemStorage.notifications s)) s)
                  (Server.wss srv) (Server.trace srv))).
  { intros caller srv <-.
    unfold Routes.postNotificationRead, Server.bind, Server.call,
      MemStorage.markNotificationRead.
    now rewrite Hget. }
  split; [reflexivity|].
  split; [|split; [|split; [|split; [|split; [|split; [|split]]]]]]; try reflexivity.
  - exists (MemStorage.setRead n). rewrite get_set_eq. repeat split.
  - intros id' Hne. apply get_set_ne. congruence.
  - apply keys_set_present. apply In_keys_get. congruence.
  - intros caller srv Hs. now rewrite (Hroute caller srv Hs).
  - intros secret bearer now caller srv Hs Hauth.
    unfold Routes.authenticated. rewrite Hs, Hauth.
    now rewrite (Hroute caller srv Hs).
Qed.

Lemma markNotificationRead_no_owner_check_witness :
  Notification.userId sampleNotification <> Some (User.id sampleUser) /\
  fst (Routes.postNotificationRead "n1" sampleUser
         (Server.mk sampleNotificationStore Ws.init []))
    = Http.mk 200 (Http.Message "Notification marked as read") /\
  JsMap.get "n2" (MemStorage.notifications
                    (snd (MemStorage.markNotificationRead "n1" sampleNotificationStore)))
    = Some otherNotification.
Proof.
  pose proof (markNotificationRead_no_owner_check sampleNotificationStore "n1"
                sampleNotification eq_refl)
    as (_ & _ & Hother & _ & _ & _ & _ & Hroute & _).
  split; [discriminate|]. split.
  - apply (Hroute sampleUser (Server.mk sampleNotificationStore Ws.init []) eq_refl).
  - rewrite Hother; [reflexivity | discriminate].
Defined.

(* ------------------------------------------------------------------ *)
(** ** The live connection registry *)

Section Registry.
Import Ws.

Lemma onMessage_auth secret now ws token decoded w :
  Jwt.verify token secret now = Some decoded ->
  onMessage secret now ws (Data "auth" (Some token)) w
    = mk (JsMap.set (Jwt.userId decoded) ws (clients w)) (sockets w).
Proof. intros Hv. unfold onMessage. simpl. now rewrite Hv. Qed.

Lemma updSocket_same ws sk f : updSocket ws sk f ws = sk.
Proof. unfold updSocket. now rewrite Nat.eqb_refl. Qed.

Lemma updSocket_other ws sk f c : c <> ws -> updSocket ws sk f c = f c.
Proof.
  intros Hne. unfold updSocket.
  destruct (Nat.eqb_spec c ws); [contradiction | reflexivity].
Qed.

Lemma broadcast_delivers userId notification w client :
  recipient userId w = Some client ->
  let w' := broadcastNotification userId notification w in
  clients w' = clients w /\
  sockets w' client
    = mkSocket (readyState (sockets w client))
        (sent (sockets w client) ++ [notificationFrame notification]) /\
  (forall c, c <> client -> sockets w' c = sockets w c).
Proof.
  unfold recipient, broadcastNotification.
  destruct (JsMap.get (Some userId) (clients w)) as [c0|]; [|discriminate].
  destruct (isOpen (readyState (sockets w c0))); [|discriminate].
  intros [= ->]. simpl. repeat split.
  - apply updSocket_same.
  - intros c Hne. now apply updSocket_other.
Qed.

Lemma broadcast_drops userId notification w :
  recipient userId w = None ->
  broadcastNotification userId notification w = w.
Proof.
  unfold recipient, broadcastNotification.
  destruct (JsMap.get (Some userId) (clients w)) as [c0|]; [|reflexivity].
  now destruct (isOpen (readyState (sockets w c0))).
Qed.

Lemma count_set {V} (k : option string) (v : V) (m : JsMap.t (option string) V) :
  JsMap.wf m -> JsMap.count k (JsMap.set k v m) = 1.
Proof.
  intros Hwf. rewrite count_wf by now apply wf_set.
  unfold JsMap.has. now rewrite get_set_eq.
Qed.

End Registry.

(** C7. When connection [c1] and then connection [c2] authenticate with
    valid tokens of the same user [u], the registry holds one entry for
    [u], pointing at [c2]; registering [c2] changes no socket, so [c1] is
    not closed. A later [broadcastNotification(u, payload)] appends the
    frame to [c2] alone when [c2] is open, and changes nothing when it is
    not. Whenever [u] has no registered connection, or only a connection
    that is not open, [broadcastNotification] changes nothing at all. *)
Theorem newest_connection_receives :
  (forall (secret : string) (now1 now2 : Z) (u : string) (c1 c2 : Ws.conn)
          (t1 t2 : Jwt.token) (d1 d2 : Jwt.Claims) (payload : Json.t) (w : Ws.t),
      JsMap.wf (Ws.clients w) ->
      Jwt.verify t1 secret now1 = Some d1 -> Jwt.userId d1 = Some u ->
      Jwt.verify t2 secret now2 = Some d2 -> Jwt.userId d2 = Some u ->
      let w1 := Ws.onMessage secret now1 c1 (Ws.Data "auth" (Some t1)) w in
      let w2 := Ws.onMessage secret now2 c2 (Ws.Data "auth" (Some t2)) w1 in
      let w3 := Ws.broadcastNotification u payload w2 in
      JsMap.get (Some u) (Ws.clients w1) = Some c1 /\
      JsMap.get (Some u) (Ws.clients w2) = Some c2 /\
      JsMap.count (Some u) (Ws.clients w2) = 1 /\
      Ws.sockets w2 = Ws.sockets w /\
      Ws.clients w3 = Ws.clients w2 /\
      (forall c, c <> c2 -> Ws.sockets w3 c = Ws.sockets w2 c) /\
      (Ws.readyState (Ws.sockets w2 c2) = Ws.OPEN ->
       Ws.sent (Ws.sockets w3 c2)
         = Ws.sent (Ws.sockets w2 c2) ++ [Ws.notificationFrame payload] /\
       Ws.readyState (Ws.sockets w3 c2) = Ws.OPEN) /\
      (Ws.readyState (Ws.sockets w2 c2) <> Ws.OPEN -> w3 = w2)) /\
  (forall (u : string) (payload : Json.t) (w : Ws.t),
      Ws.recipient u w = None -> Ws.broadcastNotification u payload w = w) /\
  (forall (u : string) (w : Ws.t),
      Ws.recipient u w = None <->
      (JsMap.get (Some u) (Ws.clients w) = None \/
       exists c, JsMap.get (Some u) (Ws.clients w) = Some c /\
                 Ws.readyState (Ws.sockets w c) <> Ws.OPEN)).
Proof.
  split; [|split].
  - intros secret now1 now2 u c1 c2 t1 t2 d1 d2 payload w Hwf Hv1 Hu1 Hv2 Hu2
      w1 w2 w3.
    assert (E1 : w1 = Ws.mk (JsMap.set (Some u) c1 (Ws.clients w)) (Ws.sockets w))
      by (subst w1; rewrite (onMessage_auth _ _ _ _ _ _ Hv1); now rewrite Hu1).
    assert (E2 : w2 = Ws.mk (JsMap.set (Some u) c2 (Ws.clients w1)) (Ws.sockets w1))
      by (subst w2; rewrite (onMessage_auth _ _ _ _ _ _ Hv2); now rewrite Hu2).
    assert (Hg2 : JsMap.get (Some u) (Ws.clients w2) = Some c2)
      by (rewrite E2; simpl; apply get_set_eq).
    split; [rewrite E1; simpl; apply get_set_eq|].
    split; [exact Hg2|].
    split; [rewrite E2; simpl; apply count_set; rewrite E1; simpl; now apply wf_set|].
    split; [rewrite E2, E1; reflexivity|].
    destruct (Ws.recipient u w2) as [c|] eqn:Hr.
    + assert (c = c2 /\ Ws.readyState (Ws.sockets w2 c2) = Ws.OPEN) as [-> Hopen].
      { unfold Ws.recipient in Hr. rewrite Hg2 in Hr.
        destruct (Ws.readyState (Ws.sockets w2 c2)); simpl in Hr;
          try discriminate. now injection Hr as <-. }
      destruct (broadcast_delivers u payload w2 c2 Hr) as (Hc & Hs & Ho).
      fold w3 in Hc, Hs, Ho.
      split; [exact Hc|]. split; [exact Ho|]. split.
      * intros _. rewrite Hs. simpl. now split.
      * intros Hn. contradiction.
    + pose proof (broadcast_drops u payload w2 Hr) as Hd. fold w3 in Hd.
      rewrite Hd. split; [reflexivity|]. split; [reflexivity|]. split.
      * intros Hopen. unfold Ws.recipient in Hr. rewrite Hg2, Hopen in Hr.
        discriminate.
      * reflexivity.
  - intros u payload w. apply broadcast_drops.
  - intros u w. unfold Ws.recipient.
    destruct (JsMap.get (Some u) (Ws.clients w)) as [c|].
    + destruct (Ws.isOpen (Ws.readyState (Ws.sockets w c))) eqn:Eo.
      * split; [discriminate|].
        intros [H|(c' & [= <-] & Hn)]; [discriminate|].
        destruct (Ws.readyState (Ws.sockets w c)); simpl in Eo; congruence.
      * split; [|reflexivity]. intros _. right. exists c.
        split; [reflexivity|]. intros Ho. rewrite Ho in Eo. discriminate.
    + split; [now left | reflexivity].
Qed.

Lemma newest_connection_receives_witness :
  let t1 := Routes.sessionToken "your-secret-key" "u1" 0 in
  let t2 := Routes.sessionToken "your-secret-key" "u1" 50 in
  let w1 := Ws.onMessage "your-secret-key" 10 1 (Ws.Data "auth" (Some t1)) sampleWs in
  let w2 := Ws.onMessage "your-secret-key" 60 2 (Ws.Data "auth" (Some t2)) w1 in
  let w3 := Ws.broadcastNotification "u1" (Json.Str "hello") w2 in
  JsMap.get (Some "u1") (Ws.clients w2) = Some 2 /\
  JsMap.count (Some "u1") (Ws.clients w2) = 1 /\
  Ws.sent (Ws.sockets w3 2) = [Ws.notificationFrame (Json.Str "hello")] /\
  Ws.sent (Ws.sockets w3 1) = [] /\
  Ws.readyState (Ws.sockets w3 1) = Ws.OPEN.
Proof.
  intros t1 t2 w1 w2 w3.
  destruct (proj1 newest_connection_receives "your-secret-key" 10%Z 60%Z "u1" 1 2
              t1 t2 _ _ (Json.Str "hello") sampleWs
              (NoDup_nil _) eq_refl eq_refl eq_refl eq_refl)
    as (_ & Hg & Hc & _ & _ & _ & Hopen & _).
  split; [exact Hg|]. split; [exact Hc|]. split.
  - apply (proj1 (Hopen eq_refl)).
  - split; reflexivity.
Defined.

(* ------------------------------------------------------------------ *)
(** ** Notification on event creation *)

(** C4 as stated fails: the frame pushed after an event is created carries
    a new object with the title and the message only, not the persisted
    notification. *)
Lemma pushed_payload_is_not_the_persisted_record :
  let srv' := snd (Routes.postEvents (Some sampleEventBody) "e9" "n9" 100
                     sampleOrganizer sampleServer) in
  exists n frame data,
    JsMap.get "n9" (MemStorage.notifications (Server.storage srv')) = Some n /\
    Ws.sent (Ws.sockets (Server.wss srv') 1) = [frame] /\
    frame = Ws.notificationFrame data /\
    frame <> Ws.notificationFrame (notificationJson n) /\
    Json.prop "id" data = None /\
    Json.prop "id" (notificationJson n) = Some (Json.Str "n9").
Proof.
  eexists. eexists. eexists.
  split; [reflexivity|]. split; [reflexivity|]. split; [reflexivity|].
  split; [discriminate|]. split; reflexivity.
Qed.

(** C4, as amended. When a user with role Organizer or Faculty posts a
    valid event, the handler first persists a notification through
    [createNotification] and only then attempts the push. The frame is
    [{type: "notification", data: {title, message}}] with the title and
    the message of the persisted notification, a new object without [id],
    [read], [type], [eventId] or [createdAt]. The store after the handler
    is the store [createNotification] returned, whatever the registry
    holds: a push that fails or is skipped leaves the persisted
    notification as it was written. *)
Theorem notification_persisted_before_push :
  forall (srv : Server.t) (user : User.t) (body : InsertEvent.t)
         (eventId notificationId : string) (now : Z),
    includes ["Organizer"; "Faculty"] (User.role user) = true ->
    let srv' := snd (Routes.postEvents (Some body) eventId notificationId now user srv) in
    let n := createdNotification notificationId eventId now (InsertEvent.title body) user in
    let data := Json.Obj [("title", Json.Str (Notification.title n));
                          ("message", Json.Str (Notification.message n))] in
    Server.trace srv' =
      Server.trace srv ++
        [Server.Persisted n;
         Server.PushAttempt (User.id user) (Ws.notificationFrame data)
           (Ws.recipient (User.id user) (Server.wss srv))] /\
    JsMap.get notificationId (MemStorage.notifications (Server.storage srv')) = Some n /\
    Server.wss srv' = Ws.broadcastNotification (User.id user) data (Server.wss srv) /\
    (Json.prop "id" data = None /\ Json.prop "read" data = None /\
     Json.prop "type" data = None /\ Json.prop "eventId" data = None /\
     Json.prop "createdAt" data = None) /\
    (forall registry trace,
        Server.storage
          (snd (Routes.postEvents (Some body) eventId notificationId now user
                  (Server.mk (Server.storage srv) registry trace)))
        = Server.storage srv').
Proof.
  intros srv user body eventId notificationId now Hrole srv' n data.
  subst srv'. unfold Routes.postEvents. rewrite Hrole. simpl.
  unfold Server.bind, Server.call, Server.createNotification,
    Server.broadcastNotification, Server.emit, Server.ret, Server.bind,
    Server.call. simpl.
  split; [now rewrite <- app_assoc|].
  split; [apply get_set_eq|].
  split; [reflexivity|].
  split; [repeat split|].
  intros registry trace. reflexivity.
Qed.

Lemma notification_persisted_before_push_witness :
  let srv' := snd (Routes.postEvents (Some sampleEventBody) "e9" "n9" 100
                     sampleOrganizer sampleServer) in
  Server.trace srv' =
    [Server.Persisted (createdNotification "n9" "e9" 100 "Hackathon" sampleOrganizer);
     Server.PushAttempt "u7"
       (Ws.notificationFrame
          (Json.Obj [("title", Json.Str "New Event Created");
                     ("message", Json.Str "Hackathon has been scheduled")]))
       (Some 1)].
Proof.
  apply (proj1 (notification_persisted_before_push sampleServer sampleOrganizer
                  sampleEventBody "e9" "n9" 100 eq_refl)).
Defined.

(* ------------------------------------------------------------------ *)
(** ** Login *)

(** C9 as stated fails: for a registered, unverified user the login route
    answers 400, not 403, when the password sent is empty, and 400, not
    401, when the email is unknown and not an email address or the
    password of a verified user is empty. *)
Lemma login_rejects_malformed_body_first :
  let login := Routes.postLogin "your-secret-key" prefixCompare hasAt in
  option_map User.isVerified (MemStorage.getUserByEmail "asha@srec.ac.in" unverifiedStore)
    = Some (Some false) /\
  Http.status (login (Http.mkLogin (Some "asha@srec.ac.in") (Some "")) 100%Z unverifiedStore)
    = 400 /\
  MemStorage.getUserByEmail "nobody" verifiedStore = None /\
  Http.status (login (Http.mkLogin (Some "nobody") (Some "secret1")) 100%Z verifiedStore)
    = 400 /\
  Http.status (login (Http.mkLogin (Some "asha@srec.ac.in") (Some "")) 100%Z verifiedStore)
    = 400.
Proof. repeat split. Qed.

(** The second [registerRoutes] does not check the verification flag. *)
Lemma login_without_verification_check :
  Http.status
    (Routes.postLoginUnverified "your-secret-key" prefixCompare hasAt
       (Http.mkLogin (Some "asha@srec.ac.in") (Some "secret1")) 100%Z unverifiedStore)
    = 200.
Proof. reflexivity. Qed.

(** C9, as amended. The verified login route answers 400 when the body
    fails [loginSchema] (no well-formed email or an empty password).
    Otherwise it answers 401 when no user has the email; else 403 when
    the user's verification flag is not true, whatever the password; else
    401 when the password does not match; else 200 with the user record
    without its password and a token that decodes to the user's id for
    seven days from its issue and to nothing after. *)
Theorem login_verified_flow :
  forall (secret : string) (bcryptCompare : string -> string -> bool)
         (isEmail : string -> bool)
         (body : Http.LoginBody) (now : Z) (s : MemStorage.t),
    let response := Routes.postLogin secret bcryptCompare isEmail body now s in
    (Routes.loginSchema isEmail body = None -> Http.status response = 400) /\
    (forall email password,
        Routes.loginSchema isEmail body = Some (email, password) ->
        (MemStorage.getUserByEmail email s = None -> Http.status response = 401) /\
        (forall user,
            MemStorage.getUserByEmail email s = Some user ->
            (User.isVerified user <> Some true -> Http.status response = 403) /\
            (User.isVerified user = Some true ->
             bcryptCompare password (User.password user) = false ->
             Http.status response = 401) /\
            (User.isVerified user = Some true ->
             bcryptCompare password (User.password user) = true ->
             exists token,
               response = Http.mk 200 (Http.AuthResponse (omitPassword user) token) /\
               token = Jwt.sign (Jwt.mkClaims (Some (User.id user)) None)
                         secret Jwt.days7 now /\
               (forall t, (t < now + 604800)%Z ->
                  Jwt.verify token secret t
                    = Some (Jwt.mkClaims (Some (User.id user)) None)) /\
               (forall t, (now + 604800 <= t)%Z ->
                  Jwt.verify token secret t = None)))).
Proof.
  intros secret bcryptCompare isEmail body now s response. subst response.
  unfold Routes.postLogin. split.
  - now intros ->.
  - intros email password ->. split.
    + now intros ->.
    + intros user ->. unfold Routes.notVerified. split; [|split].
      * intros Hnv. destruct (User.isVerified user) as [[|]|]; simpl; congruence.
      * intros -> ->. reflexivity.
      * intros -> ->. simpl. eexists. split; [reflexivity|].
        split; [reflexivity|].
        unfold Routes.sessionToken, Jwt.sign, Jwt.verify, Jwt.days7.
        rewrite String.eqb_refl. simpl. split; intros t Ht.
        -- apply Z.ltb_lt in Ht. now rewrite Ht.
        -- apply Z.ltb_ge in Ht. now rewrite Ht.
Qed.

Lemma login_verified_flow_witness :
  let login := Routes.postLogin "your-secret-key" prefixCompare hasAt in
  Http.status (login (Http.mkLogin (Some "asha@srec.ac.in") (Some "secret1")) 100%Z unverifiedStore)
    = 403 /\
  Http.status (login (Http.mkLogin (Some "asha@srec.ac.in") (Some "wrong")) 100%Z verifiedStore)
    = 401 /\
  Http.status (login (Http.mkLogin (Some "b@srec.ac.in") (Some "secret1")) 100%Z verifiedStore)
    = 401 /\
  Http.status (login (Http.mkLogin None (Some "secret1")) 100%Z verifiedStore) = 400 /\
  exists token,
    login (Http.mkLogin (Some "asha@srec.ac.in") (Some "secret1")) 100%Z verifiedStore
      = Http.mk 200
          (Http.AuthResponse
             (PublicUser.mk "u1" "Asha" "asha@srec.ac.in" "Student" (JArray [])
                None 10 (Some true))
             token).
Proof.
  intros login. subst login.
  pose (F := fun body s =>
               login_verified_flow "your-secret-key" prefixCompare hasAt body 100 s).
  pose (good := Http.mkLogin (Some "asha@srec.ac.in") (Some "secret1")).
  pose (wrong := Http.mkLogin (Some "asha@srec.ac.in") (Some "wrong")).
  pose (unknown := Http.mkLogin (Some "b@srec.ac.in") (Some "secret1")).
  pose (malformed := Http.mkLogin None (Some "secret1")).
  split; [|split; [|split; [|split]]].
  - apply (proj1 (proj2 (proj2 (F good unverifiedStore)
                           "asha@srec.ac.in" "secret1" eq_refl) _ eq_refl)).
    discriminate.
  - apply (proj1 (proj2 (proj2 (proj2 (F wrong verifiedStore)
                                  "asha@srec.ac.in" "wrong" eq_refl) _ eq_refl)));
      reflexivity.
  - apply (proj1 (proj2 (F unknown verifiedStore) "b@srec.ac.in" "secret1" eq_refl)).
    reflexivity.
  - apply (proj1 (F malformed verifiedStore)). reflexivity.
  - destruct (proj2 (proj2 (proj2 (proj2 (F good verifiedStore)
                                     "asha@srec.ac.in" "secret1" eq_refl) _ eq_refl))
                eq_refl eq_refl) as (token & Hr & _).
    exists token. exact Hr.
Defined.

(* ------------------------------------------------------------------ *)
(** ** Verification tokens and session tokens *)

Section Credentials.
Variable JWT_SECRET : string.

(** The bearer middleware never lets a verification token through. *)
Lemma authenticateToken_rejects_verification toEmail issued now s :
  exists response,
    Routes.authenticateToken JWT_SECRET
      (Some (Routes.verificationToken JWT_SECRET toEmail issued)) now s
      = inr response /\
    (Http.status response = 401 \/ Http.status response = 403).
Proof.
  unfold Routes.authenticateToken, Routes.verificationToken, Jwt.sign, Jwt.verify.
  rewrite String.eqb_refl. simpl.
  destruct (now <? issued + Jwt.hours24)%Z; simpl; eauto.
Qed.

(** The verify route never accepts a session token, and changes nothing. *)
Lemma getVerify_rejects_session userId issued now srv :
  Http.status (fst (Routes.getVerify JWT_SECRET
                      (Some (Routes.sessionToken JWT_SECRET userId issued)) now srv))
    = 400 /\
  snd (Routes.getVerify JWT_SECRET
         (Some (Routes.sessionToken JWT_SECRET userId issued)) now srv) = srv.
Proof.
  unfold Routes.getVerify, Routes.sessionToken, Jwt.sign, Jwt.verify.
  rewrite String.eqb_refl. simpl.
  destruct (now <? issued + Jwt.days7)%Z; simpl; auto.
Qed.

(** The websocket handler registers the connection of any token that
    verifies, under whatever [userId] the payload has. *)
Lemma onMessage_registers_verification toEmail issued now ws w :
  (now < issued + 86400)%Z ->
  Ws.onMessage JWT_SECRET now ws
    (Ws.Data "auth" (Some (Routes.verificationToken JWT_SECRET toEmail issued))) w
    = Ws.mk (JsMap.set None ws (Ws.clients w)) (Ws.sockets w).
Proof.
  intros Hlt. apply Z.ltb_lt in Hlt.
  unfold Ws.onMessage, Routes.verificationToken, Jwt.sign, Jwt.verify, Jwt.hours24.
  simpl. rewrite String.eqb_refl, Hlt. reflexivity.
Qed.

End Credentials.

(** C3 at a verification token that has not expired: the bearer
    middleware answers 401 and the verify route answers 400 to a session
    token, but the websocket handler neither closes the connection nor
    leaves the registry alone: the connection is registered under the
    [undefined] key, whereas a token that fails [jwt.verify] gets the
    connection closed. *)
Theorem websocket_accepts_verification_token :
  let secret := "your-secret-key" in
  let verification := Routes.verificationToken secret "asha@srec.ac.in" 0 in
  let session := Routes.sessionToken secret "u1" 0 in
  let w := Ws.onMessage secret 100 1 (Ws.Data "auth" (Some verification)) sampleWs in
  let w' := Ws.onMessage secret 100 1 (Ws.Data "auth" (Some (Jwt.Garbage "x"))) sampleWs in
  Routes.authenticateToken secret (Some verification) 100 sampleUserStore
    = inr (Http.mk 401 (Http.Message "Invalid token")) /\
  fst (Routes.getVerify secret (Some session) 100 (Server.mk sampleUserStore sampleWs []))
    = Http.mk 400 (Http.Message "Invalid token") /\
  Ws.clients sampleWs = [] /\
  Ws.clients w = [(None, 1)] /\
  Ws.readyState (Ws.sockets w 1) = Ws.OPEN /\
  Ws.clients w' = [] /\
  Ws.readyState (Ws.sockets w' 1) = Ws.CLOSING.
Proof. repeat split. Qed.

(* ================================================================== *)
(** * Further properties of the store *)

(** ** Listing notifications *)

Section NotificationOrder.
Import MemStorage MemStorageQueries.

Lemma insertNewestFirst_perm n l :
  Permutation (insertNewestFirst n l) (n :: l).
Proof.
  induction l as [|m r IH]; simpl; [reflexivity|].
  destruct (Notification.createdAt m <=? Notification.createdAt n)%Z.
  - reflexivity.
  - rewrite IH. apply perm_swap.
Qed.

Lemma sortNewestFirst_perm l : Permutation (sortNewestFirst l) l.
Proof.
  induction l as [|n r IH]; simpl; [reflexivity|].
  rewrite insertNewestFirst_perm. now constructor.
Qed.

Lemma insertNewestFirst_sorted n l :
  StronglySorted notOlder l -> StronglySorted notOlder (insertNewestFirst n l).
Proof.
  induction l as [|m r IH]; simpl; intros Hs.
  - repeat constructor.
  - inversion Hs as [|? ? Hr Hall]; subst.
    destruct (Notification.createdAt m <=? Notification.createdAt n)%Z eqn:E.
    + apply Z.leb_le in E. constructor; [exact Hs|].
      constructor; [exact E|].
      eapply Forall_impl; [|exact Hall]. unfold notOlder. intros a Ha. lia.
    + apply Z.leb_gt in E. constructor; [now apply IH|].
      eapply Permutation_Forall;
        [symmetry; apply insertNewestFirst_perm|].
      constructor; [unfold notOlder; lia | exact Hall].
Qed.

Lemma sortNewestFirst_sorted l : StronglySorted notOlder (sortNewestFirst l).
Proof.
  induction l as [|n r IH]; simpl; [constructor|].
  now apply insertNewestFirst_sorted.
Qed.

(** A strictly newest element comes first, wherever it stood. *)
Lemma sortNewestFirst_head n l :
  In n l ->
  (forall m, In m l -> m = n \/
     (Notification.createdAt m < Notification.createdAt n)%Z) ->
  exists rest, sortNewestFirst l = n :: rest.
Proof.
  induction l as [|x r IH]; simpl; [tauto|].
  intros Hin Hmax.
  destruct (Hmax x (or_introl eq_refl)) as [->|Hlt].
  - (* the head is [n]: it goes in front of whatever was sorted *)
    destruct (sortNewestFirst r) as [|m r'] eqn:Es; simpl; [eauto|].
    assert (Hm : In m r).
    { apply (Permutation_in m (sortNewestFirst_perm r)). rewrite Es. now left. }
    destruct (Hmax m (or_intror Hm)) as [->|Hlt].
    + destruct (Notification.createdAt n <=? Notification.createdAt n)%Z; eauto.
    + assert (E : (Notification.createdAt m <=? Notification.createdAt n)%Z = true)
        by (apply Z.leb_le; lia).
      rewrite E. eauto.
  - destruct Hin as [->|Hin]; [lia|].
    destruct (IH Hin (fun m Hm => Hmax m (or_intror Hm))) as [rest Es].
    rewrite Es. simpl.
    assert (E : (Notification.createdAt n <=? Notification.createdAt x)%Z = false)
      by (apply Z.leb_gt; lia).
    rewrite E. eauto.
Qed.

Lemma getNotifications_In userId s n :
  In n (getNotifications userId s) <->
  In n (JsMap.values (notifications s)) /\ Notification.userId n = Some userId.
Proof.
  unfold getNotifications. split.
  - intros Hin. apply (Permutation_in n (sortNewestFirst_perm _)) in Hin.
    apply filter_In in Hin. destruct Hin as [Hin Hu].
    split; [exact Hin|]. now apply (option_eqb_spec (K := string)) in Hu.
  - intros [Hin Hu].
    apply (Permutation_in n (Permutation_sym (sortNewestFirst_perm _))).
    apply filter_In. split; [exact Hin|].
    now apply (option_eqb_spec (K := string)).
Qed.

End NotificationOrder.

(** X1. [getNotifications(userId)] returns the stored notifications whose
    [userId] is that user, each as often as it is stored and no other, and
    no notification in the result is newer than one before it. *)
Theorem getNotifications_newest_first :
  forall (userId : string) (s : MemStorage.t),
    Permutation (MemStorage.getNotifications userId s)
      (filter (fun n => option_eqb (Notification.userId n) (Some userId))
              (JsMap.values (MemStorage.notifications s))) /\
    StronglySorted MemStorageQueries.notOlder (MemStorage.getNotifications userId s) /\
    (forall n, In n (MemStorage.getNotifications userId s) <->
               In n (JsMap.values (MemStorage.notifications s)) /\
               Notification.userId n = Some userId).
Proof.
  intros userId s.
  split; [apply sortNewestFirst_perm|]. split; [apply sortNewestFirst_sorted|].
  intros n. apply getNotifications_In.
Qed.

(** ** Marking all notifications of a user read *)

Section MarkAll.
Import MemStorage MemStorageQueries.

Lemma markAll_fold userId s :
  notifications (snd (markAllNotificationsRead userId s))
    = fold_left markStep (getNotifications userId s) (notifications s).
Proof. reflexivity. Qed.

Lemma fold_markStep_keys l : forall m,
  (forall x, In x l -> In (Notification.id x) (JsMap.keys m)) ->
  JsMap.keys (fold_left markStep l m) = JsMap.keys m.
Proof.
  induction l as [|x r IH]; intros m Hin; simpl; [reflexivity|].
  assert (Hk : JsMap.keys (markStep m x) = JsMap.keys m)
    by (apply keys_set_present, Hin; now left).
  rewrite IH; [exact Hk|].
  intros y Hy. rewrite Hk. apply Hin. now right.
Qed.

Lemma fold_markStep_get l : forall m k,
  (forall x, In x l -> JsMap.get (Notification.id x) m = Some x) ->
  JsMap.get k (fold_left markStep l m)
    = if existsb (fun x => String.eqb (Notification.id x) k) l
      then option_map setRead (JsMap.get k m)
      else JsMap.get k m.
Proof.
  induction l as [|x r IH] using rev_ind; intros m k Hl; simpl; [reflexivity|].
  rewrite fold_left_app, existsb_app. simpl. unfold markStep at 1.
  rewrite orb_false_r.
  destruct (String.eqb_spec (Notification.id x) k) as [<-|Hne].
  - rewrite get_set_eq, orb_true_r.
    rewrite (Hl x) by (apply in_or_app; right; now left). reflexivity.
  - rewrite get_set_ne by assumption. rewrite orb_false_r.
    apply IH. intros y Hy. apply Hl. apply in_or_app. now left.
Qed.

Lemma notificationsCoherent_get s k n :
  notificationsCoherent s ->
  In n (JsMap.values (notifications s)) -> Notification.id n = k ->
  JsMap.get k (notifications s) = Some n.
Proof.
  intros [Hwf Hcoh] Hin Hid. unfold JsMap.values in Hin.
  apply in_map_iff in Hin. destruct Hin as [[k' n'] [Heq Hin]].
  simpl in Heq. subst n'. apply In_get; [exact Hwf|].
  now rewrite <- Hid, (Hcoh k' n Hin).
Qed.

(** What [markAllNotificationsRead] leaves under each key. *)
Lemma markAll_get userId s k n :
  notificationsCoherent s ->
  JsMap.get k (notifications s) = Some n ->
  JsMap.get k (notifications (snd (markAllNotificationsRead userId s)))
    = Some (readFor userId n).
Proof.
  intros Hcoh Hget. rewrite markAll_fold.
  assert (Hl : forall x, In x (getNotifications userId s) ->
                         JsMap.get (Notification.id x) (notifications s) = Some x).
  { intros x Hx. apply (getNotifications_In userId s) in Hx.
    now apply notificationsCoherent_get. }
  rewrite (fold_markStep_get _ _ k Hl), Hget. simpl. unfold readFor.
  destruct (option_eqb (Notification.userId n) (Some userId)) eqn:Eu.
  - assert (He : existsb (fun x => String.eqb (Notification.id x) k)
                         (getNotifications userId s) = true).
    { apply existsb_exists. exists n. split.
      - apply (getNotifications_In userId s). split.
        + apply get_In in Hget. unfold JsMap.values.
          change n with (snd (k, n)). now apply in_map.
        + now apply (option_eqb_spec (K := string)).
      - apply String.eqb_eq. apply (proj2 Hcoh). now apply get_In. }
    now rewrite He.
  - destruct (existsb _ (getNotifications userId s)) eqn:He; [|reflexivity].
    exfalso. apply existsb_exists in He. destruct He as (x & Hx & Hid).
    apply String.eqb_eq in Hid.
    pose proof (Hl x Hx) as Hgx. rewrite Hid, Hget in Hgx.
    injection Hgx as <-.
    apply (getNotifications_In userId s) in Hx.
    destruct Hx as [_ Hu]. rewrite Hu in Eu. simpl in Eu.
    now rewrite String.eqb_refl in Eu.
Qed.

Lemma markAll_keys userId s :
  notificationsCoherent s ->
  JsMap.keys (notifications (snd (markAllNotificationsRead userId s)))
    = JsMap.keys (notifications s).
Proof.
  intros Hcoh. rewrite markAll_fold. apply fold_markStep_keys.
  intros x Hx. apply In_keys_get.
  apply (getNotifications_In userId s) in Hx.
  rewrite (notificationsCoherent_get s _ x Hcoh (proj1 Hx) eq_refl).
  discriminate.
Qed.

Lemma readFor_id userId n : Notification.id (readFor userId n) = Notification.id n.
Proof. unfold readFor. now destruct (option_eqb _ _). Qed.

Lemma readFor_userId userId n :
  Notification.userId (readFor userId n) = Notification.userId n.
Proof. unfold readFor. now destruct (option_eqb _ _). Qed.

Lemma markAll_entries userId s k n' :
  notificationsCoherent s ->
  In (k, n') (notifications (snd (markAllNotificationsRead userId s))) ->
  exists n, JsMap.get k (notifications s) = Some n /\ n' = readFor userId n.
Proof.
  intros Hcoh Hin.
  assert (Hwf' : JsMap.wf (notifications (snd (markAllNotificationsRead userId s))))
    by (unfold JsMap.wf; rewrite markAll_keys by assumption; apply Hcoh).
  pose proof (In_get _ _ _ Hwf' Hin) as Hg'.
  destruct (JsMap.get k (notifications s)) as [n|] eqn:Hg.
  - exists n. split; [reflexivity|].
    rewrite (markAll_get userId s k n Hcoh Hg) in Hg'. congruence.
  - exfalso. apply get_None_keys in Hg. apply Hg.
    rewrite <- (markAll_keys userId s Hcoh).
    change k with (fst (k, n')). now apply in_map.
Qed.

Lemma markAll_coherent userId s :
  notificationsCoherent s ->
  notificationsCoherent (snd (markAllNotificationsRead userId s)).
Proof.
  intros Hcoh. split.
  - unfold JsMap.wf. rewrite markAll_keys by assumption. apply Hcoh.
  - intros k n' Hin.
    destruct (markAll_entries userId s k n' Hcoh Hin) as (n & Hg & ->).
    rewrite readFor_id. apply (proj2 Hcoh). now apply get_In.
Qed.

Lemma notificationsCoherent_set id n s :
  notificationsCoherent s -> Notification.id n = id ->
  notificationsCoherent (with_notifications (JsMap.set id n (notifications s)) s).
Proof.
  intros [Hwf Hcoh] Hid. split; simpl.
  - now apply wf_set.
  - intros k x Hin. apply In_set in Hin; [|assumption].
    destruct Hin as [[= -> ->]|[Hin _]]; auto.
Qed.

Lemma run_notificationsCoherent op s :
  notificationsCoherent s -> notificationsCoherent (Store.run op s).
Proof.
  intros Hcoh. destruct op; simpl; try exact Hcoh.
  - unfold notificationsCoherent.
    destruct (updateUser_rest id updates s) as (_ & _ & ->). exact Hcoh.
  - unfold updateEvent. now destruct (JsMap.get id (events s)).
  - unfold notificationsCoherent, joinClub.
    destruct (getUser userId s) as [user|]; [|exact Hcoh].
    destruct (getClubByName clubName s); [|exact Hcoh].
    destruct (negb (includes _ clubName)); destruct (negb (includes _ userId)); simpl;
      try (destruct (updateUser_rest userId
             (clubsUpdate (JArray (push (arrayOrEmpty (User.clubs user)) clubName))) s)
             as (_ & _ & ->)); exact Hcoh.
  - unfold notificationsCoherent, leaveClub.
    destruct (getUser userId s) as [user|]; [|exact Hcoh].
    destruct (getClubByName clubName s); [|exact Hcoh]. simpl.
    destruct (updateUser_rest userId
               (clubsUpdate (JArray (without clubName (arrayOrEmpty (User.clubs user))))) s)
      as (_ & _ & ->). exact Hcoh.
  - unfold rsvpEvent. now destruct (JsMap.get eventId (events s)).
  - unfold unrsvpEvent. now destruct (JsMap.get eventId (events s)).
  - now apply notificationsCoherent_set.
  - unfold markNotificationRead.
    destruct (JsMap.get id (notifications s)) as [n|] eqn:Hg; [|exact Hcoh].
    apply notificationsCoherent_set; [exact Hcoh|].
    simpl. apply (proj2 Hcoh). now apply get_In.
  - now apply markAll_coherent.
Qed.

Lemma reachableAny_notificationsCoherent s :
  Store.reachableAny s -> notificationsCoherent s.
Proof.
  induction 1 as [ids now | op s _ IH].
  - split; [constructor | intros k n []].
  - now apply run_notificationsCoherent.
Qed.

End MarkAll.

Section MarkAllSpec.
Import MemStorage MemStorageQueries.

Lemma entries_from_get {V} (f : V -> V) (m : JsMap.t string V) :
  forall m' : JsMap.t string V,
  JsMap.wf m -> JsMap.keys m' = JsMap.keys m ->
  (forall k v, JsMap.get k m = Some v -> JsMap.get k m' = Some (f v)) ->
  m' = map (fun e => (fst e, f (snd e))) m.
Proof.
  unfold JsMap.wf.
  induction m as [|[k v] r IH]; intros m' Hwf Hkeys Hget.
  - destruct m'; [reflexivity | discriminate].
  - destruct m' as [|[k' v'] r']; [discriminate|].
    simpl in Hkeys. injection Hkeys as -> Hkeys.
    inversion Hwf as [|? ? Hni Hwf']; subst.
    pose proof (Hget k v) as Hh. simpl in Hh. rewrite String.eqb_refl in Hh.
    specialize (Hh eq_refl). injection Hh as ->.
    simpl. f_equal. apply IH; auto.
    intros k2 v2 Hg.
    assert (Hne : k2 <> k).
    { intros ->. apply Hni. apply In_keys_get. congruence. }
    pose proof (Hget k2 v2) as Hh. simpl in Hh.
    apply String.eqb_neq in Hne. rewrite Hne in Hh. auto.
Qed.

Lemma markAll_notifications userId s :
  notificationsCoherent s ->
  notifications (snd (markAllNotificationsRead userId s))
    = map (fun e => (fst e, readFor userId (snd e))) (notifications s).
Proof.
  intros Hcoh. apply entries_from_get.
  - apply Hcoh.
  - now apply markAll_keys.
  - intros k n Hg. now apply markAll_get.
Qed.

Lemma filter_readFor_other userId other l :
  other <> userId ->
  filter (fun n => option_eqb (Notification.userId n) (Some other))
         (map (readFor userId) l)
  = filter (fun n => option_eqb (Notification.userId n) (Some other)) l.
Proof.
  intros Hne. induction l as [|n r IH]; simpl; [reflexivity|].
  rewrite readFor_userId, IH.
  destruct (option_eqb (Notification.userId n) (Some other)) eqn:E; [|reflexivity].
  f_equal. unfold readFor.
  destruct (option_eqb (Notification.userId n) (Some userId)) eqn:E2; [|reflexivity].
  apply (option_eqb_spec (K := string)) in E.
  apply (option_eqb_spec (K := string)) in E2. congruence.
Qed.

End MarkAllSpec.

(** X2. In every store the program can reach, [markAllNotificationsRead(u)]
    returns [true] and sets the [read] flag of exactly the notifications
    whose [userId] is [u]: afterwards [getNotifications(u)] holds no unread
    notification, every other notification is stored unchanged under its
    key, the keys keep their order, every other user gets the same list
    from [getNotifications] as before, and users, events and clubs are
    untouched. *)
Theorem markAllNotificationsRead_only_that_user :
  forall (s : MemStorage.t) (u : string),
    Store.reachableAny s ->
    let s' := snd (MemStorage.markAllNotificationsRead u s) in
    fst (MemStorage.markAllNotificationsRead u s) = true /\
    (forall n, In n (MemStorage.getNotifications u s') -> Notification.read n = true) /\
    (forall k n, JsMap.get k (MemStorage.notifications s) = Some n ->
                 Notification.userId n = Some u ->
                 JsMap.get k (MemStorage.notifications s') = Some (MemStorage.setRead n)) /\
    (forall k n, JsMap.get k (MemStorage.notifications s) = Some n ->
                 Notification.userId n <> Some u ->
                 JsMap.get k (MemStorage.notifications s') = Some n) /\
    JsMap.keys (MemStorage.notifications s') = JsMap.keys (MemStorage.notifications s) /\
    (forall v, v <> u ->
               MemStorage.getNotifications v s' = MemStorage.getNotifications v s) /\
    MemStorage.users s' = MemStorage.users s /\
    MemStorage.events s' = MemStorage.events s /\
    MemStorage.clubs s' = MemStorage.clubs s.
Proof.
  intros s u Hreach s'.
  pose proof (reachableAny_notificationsCoherent s Hreach) as Hcoh.
  split; [reflexivity|].
  split; [|split; [|split; [|split; [|split; [|repeat split]]]]].
  - intros n Hin. apply (getNotifications_In u s') in Hin.
    destruct Hin as [Hin Hu]. unfold JsMap.values in Hin.
    apply in_map_iff in Hin. destruct Hin as [[k n'] [Heq Hin]].
    simpl in Heq. subst n'.
    destruct (markAll_entries u s k n Hcoh Hin) as (n0 & _ & ->).
    rewrite readFor_userId in Hu. unfold MemStorageQueries.readFor.
    rewrite Hu. simpl. now rewrite String.eqb_refl.
  - intros k n Hg Hu. subst s'. rewrite (markAll_get u s k n Hcoh Hg).
    unfold MemStorageQueries.readFor. rewrite Hu. simpl.
    now rewrite String.eqb_refl.
  - intros k n Hg Hu. subst s'. rewrite (markAll_get u s k n Hcoh Hg).
    unfold MemStorageQueries.readFor.
    destruct (option_eqb (Notification.userId n) (Some u)) eqn:E; [|reflexivity].
    apply (option_eqb_spec (K := string)) in E. contradiction.
  - now apply markAll_keys.
  - intros v Hne. unfold MemStorage.getNotifications. subst s'.
    rewrite (markAll_notifications u s Hcoh). unfold JsMap.values.
    rewrite map_map. simpl.
    rewrite <- (map_map snd (MemStorageQueries.readFor u)).
    now rewrite filter_readFor_other.
Qed.

Lemma markAllNotificationsRead_only_that_user_witness :
  let s := Store.run (Store.CreateNotification "n1" 50
                        (InsertNotification.mk (Some "u2") "Hi" "there" "general" None))
             (MemStorage.init sampleIds 0) in
  let s' := snd (MemStorage.markAllNotificationsRead "u2" s) in
  fst (MemStorage.markAllNotificationsRead "u2" s) = true /\
  JsMap.keys (MemStorage.notifications s') = JsMap.keys (MemStorage.notifications s).
Proof.
  intros s s'.
  assert (Hreach : Store.reachableAny s)
    by apply Store.any_step, Store.any_init.
  destruct (markAllNotificationsRead_only_that_user s "u2" Hreach)
    as (Hret & _ & _ & _ & Hkeys & _).
  split; [exact Hret | exact Hkeys].
Defined.

(** X3. A notification created for user [u] at an instant later than all
    of [u]'s stored notifications is stored unread under the new id and is
    the first element of [getNotifications(u)] afterwards. *)
Theorem created_notification_listed_first :
  forall (s : MemStorage.t) (id u : string) (now : Z) (ins : InsertNotification.t),
    orNull (InsertNotification.userId ins) = Some u ->
    (forall m, In m (JsMap.values (MemStorage.notifications s)) ->
               Notification.userId m = Some u ->
               (Notification.createdAt m < now)%Z) ->
    let n := fst (MemStorage.createNotification id now ins s) in
    let s' := snd (MemStorage.createNotification id now ins s) in
    Notification.id n = id /\ Notification.read n = false /\
    Notification.createdAt n = now /\
    JsMap.get id (MemStorage.notifications s') = Some n /\
    exists rest, MemStorage.getNotifications u s' = n :: rest.
Proof.
  intros s id u now ins Hu Hold n s'.
  repeat split; [apply get_set_eq|].
  unfold MemStorage.getNotifications. apply sortNewestFirst_head.
  - apply filter_In. split.
    + assert (Hg : JsMap.get id (MemStorage.notifications s') = Some n)
        by apply get_set_eq.
      apply get_In in Hg. unfold JsMap.values.
      change n with (snd (id, n)). now apply in_map.
    + subst n. simpl. rewrite Hu. simpl. apply String.eqb_refl.
  - intros m Hm. apply filter_In in Hm. destruct Hm as [Hin Hmu].
    apply (option_eqb_spec (K := string)) in Hmu.
    unfold JsMap.values in Hin. apply in_map_iff in Hin.
    destruct Hin as [[k m'] [Heq Hin]]. simpl in Heq. subst m'.
    subst s'. simpl in Hin. apply In_set_weak in Hin.
    destruct Hin as [[= _ ->]|Hin]; [now left | right].
    subst n. simpl. apply Hold; [|exact Hmu].
    unfold JsMap.values. change m with (snd (k, m)). now apply in_map.
Qed.

Lemma created_notification_listed_first_witness :
  exists rest,
    MemStorage.getNotifications "u1"
      (snd (MemStorage.createNotification "n3" 60
              (InsertNotification.mk (Some "u1") "Later" "news" "general" None)
              sampleNotificationStore))
    = Notification.mk "n3" (Some "u1") "Later" "news" "general" false None 60 :: rest.
Proof.
  apply (created_notification_listed_first sampleNotificationStore "n3" "u1" 60
           (InsertNotification.mk (Some "u1") "Later" "news" "general" None) eq_refl).
  intros m [<-|[<-|[]]]; simpl; intros Hu; [discriminate | lia].
Defined.

(** ** RSVPs stay exclusive *)

Section RsvpInvariant.
Import MemStorage MemStorageQueries.

Lemma NoDup_without x xs : NoDup xs -> NoDup (without x xs).
Proof. apply NoDup_filter. Qed.

Lemma NoDup_push_without x xs : NoDup xs -> NoDup (push (without x xs) x).
Proof.
  intros Hnd. unfold push. apply NoDup_app.
  - now apply NoDup_without.
  - constructor; [simpl; tauto | constructor].
  - intros a Ha [<-|[]]. now apply not_In_without in Ha.
Qed.

Lemma In_delete {V} (k : string) (e : string * V) (m : JsMap.t string V) :
  In e (JsMap.delete k m) -> In e m.
Proof.
  induction m as [|[k' v'] r IH]; simpl; [tauto|].
  destruct (String.eqb k k'); simpl; intuition.
Qed.

Lemma wf_delete {V} (k : string) (m : JsMap.t string V) :
  JsMap.wf m -> JsMap.wf (JsMap.delete k m).
Proof.
  unfold JsMap.wf. induction m as [|[k' v'] r IH]; simpl; intros Hwf; [constructor|].
  inversion Hwf as [|? ? Hni Hwf']; subst.
  destruct (String.eqb k k'); simpl; [assumption|].
  constructor; [|now apply IH].
  intros Hin. apply Hni. unfold JsMap.keys in *.
  apply in_map_iff in Hin. destruct Hin as [e [Hf Hin]].
  apply In_delete in Hin. rewrite <- Hf. now apply in_map.
Qed.

Lemma exclusive_attending userId event :
  exclusiveEvent event ->
  exclusiveEvent
    (setRsvp event
       (JArray (push (without userId (arrayOrEmpty (Event.attendees event))) userId))
       (JArray (without userId (arrayOrEmpty (Event.interested event))))).
Proof.
  intros (Ha & Hi & Hd). unfold exclusiveEvent. simpl.
  split; [now apply NoDup_push_without|]. split; [now apply NoDup_without|].
  intros x. rewrite In_push, !In_without. intros [[Hx Hne] | ->]; [|tauto].
  intros [Hx' _]. now apply (Hd x).
Qed.

Lemma exclusive_interested userId event :
  exclusiveEvent event ->
  exclusiveEvent
    (setRsvp event
       (JArray (without userId (arrayOrEmpty (Event.attendees event))))
       (JArray (push (without userId (arrayOrEmpty (Event.interested event))) userId))).
Proof.
  intros (Ha & Hi & Hd). unfold exclusiveEvent. simpl.
  split; [now apply NoDup_without|]. split; [now apply NoDup_push_without|].
  intros x. rewrite In_push, !In_without. intros [Hx Hne] [[Hx' _] | ->]; [|tauto].
  now apply (Hd x).
Qed.

Lemma exclusive_neither userId event :
  exclusiveEvent event ->
  exclusiveEvent
    (setRsvp event
       (JArray (without userId (arrayOrEmpty (Event.attendees event))))
       (JArray (without userId (arrayOrEmpty (Event.interested event))))).
Proof.
  intros (Ha & Hi & Hd). unfold exclusiveEvent. simpl.
  split; [now apply NoDup_without|]. split; [now apply NoDup_without|].
  intros x. rewrite !In_without. intros [Hx _] [Hx' _]. now apply (Hd x).
Qed.

Lemma rsvpExclusive_set id event s :
  rsvpExclusive s -> exclusiveEvent event ->
  rsvpExclusive (with_events (JsMap.set id event (events s)) s).
Proof.
  intros [Hwf Hall] He. split; simpl.
  - now apply wf_set.
  - intros k e Hin. apply In_set in Hin; [|assumption].
    destruct Hin as [[= -> ->]|[Hin _]]; eauto.
Qed.

Lemma rsvpExclusive_ext s s' :
  events s' = events s -> rsvpExclusive s -> rsvpExclusive s'.
Proof. unfold rsvpExclusive. now intros ->. Qed.

Lemma joinClub_events userId clubName s :
  events (snd (joinClub userId clubName s)) = events s.
Proof.
  unfold joinClub.
  destruct (getUser userId s) as [user|]; [|reflexivity].
  destruct (getClubByName clubName s) as [club|]; [|reflexivity].
  destruct (negb (includes (arrayOrEmpty (User.clubs user)) clubName));
  destruct (negb (includes (arrayOrEmpty (Club.members club)) userId)); simpl;
    try apply (updateUser_rest userId _ s); reflexivity.
Qed.

Lemma leaveClub_events userId clubName s :
  events (snd (leaveClub userId clubName s)) = events s.
Proof.
  unfold leaveClub.
  destruct (getUser userId s) as [user|]; [|reflexivity].
  destruct (getClubByName clubName s) as [club|]; [|reflexivity].
  simpl. apply (updateUser_rest userId _ s).
Qed.

Lemma run_rsvpExclusive op s :
  StoreRsvp.keepsRsvp op -> rsvpExclusive s -> rsvpExclusive (Store.run op s).
Proof.
  intros Hop Hs. destruct op; simpl in *.
  - now apply (rsvpExclusive_ext s).
  - apply (rsvpExclusive_ext s); [apply (updateUser_rest id updates s) | exact Hs].
  - apply rsvpExclusive_set; [exact Hs|].
    unfold exclusiveEvent. simpl. repeat split; try constructor. intros x [].
  - unfold updateEvent.
    destruct (JsMap.get id (events s)) as [event|] eqn:Hg; [|exact Hs]. simpl.
    apply rsvpExclusive_set; [exact Hs|].
    destruct Hop as [Ha Hi]. unfold exclusiveEvent, mergeEvent. simpl.
    rewrite Ha, Hi. simpl. apply (proj2 Hs id). now apply get_In.
  - destruct Hs as [Hwf Hall]. split; simpl.
    + now apply wf_delete.
    + intros k e Hin. apply In_delete in Hin. eauto.
  - now apply (rsvpExclusive_ext s).
  - apply (rsvpExclusive_ext s); [apply joinClub_events | exact Hs].
  - apply (rsvpExclusive_ext s); [apply leaveClub_events | exact Hs].
  - unfold rsvpEvent.
    destruct (JsMap.get eventId (events s)) as [event|] eqn:Hg; [|exact Hs]. simpl.
    assert (He : exclusiveEvent event) by (apply (proj2 Hs eventId); now apply get_In).
    apply rsvpExclusive_set; [exact Hs|].
    destruct (String.eqb type "attending");
      [now apply exclusive_attending | now apply exclusive_interested].
  - unfold unrsvpEvent.
    destruct (JsMap.get eventId (events s)) as [event|] eqn:Hg; [|exact Hs]. simpl.
    apply rsvpExclusive_set; [exact Hs|].
    apply exclusive_neither. apply (proj2 Hs eventId). now apply get_In.
  - now apply (rsvpExclusive_ext s).
  - apply (rsvpExclusive_ext s); [|exact Hs].
    unfold markNotificationRead. now destruct (JsMap.get id (notifications s)).
  - now apply (rsvpExclusive_ext s).
Qed.

End RsvpInvariant.

(** X4. In every store reached from a new [MemStorage] by calls of its
    methods, [updateEvent] with an [attendees] or [interested] field
    excepted, no user id is both among the attendees and among the
    interested of an event, and neither array lists a user twice; so the
    two counts of [getEvents] count distinct users. *)
Theorem rsvp_exclusive_in_reachable_stores :
  forall (s : MemStorage.t),
    StoreRsvp.reachable s ->
    forall id event,
      JsMap.get id (MemStorage.events s) = Some event ->
      NoDup (arrayOrEmpty (Event.attendees event)) /\
      NoDup (arrayOrEmpty (Event.interested event)) /\
      (forall x, In x (arrayOrEmpty (Event.attendees event)) ->
                 ~ In x (arrayOrEmpty (Event.interested event))).
Proof.
  intros s Hreach.
  assert (Hs : MemStorageQueries.rsvpExclusive s).
  { induction Hreach as [ids now | op s _ IH Hop].
    - split; [constructor | intros k e []].
    - now apply run_rsvpExclusive. }
  intros id event Hg. apply (proj2 Hs id). now apply get_In.
Qed.

Lemma rsvp_exclusive_in_reachable_stores_witness :
  let s := Store.run (Store.RsvpEvent "u1" "e1" "interested")
             (Store.run (Store.RsvpEvent "u1" "e1" "attending")
                (Store.run (Store.CreateEvent "e1" 5
                   (InsertEvent.mk "Hackathon" "24h" 1000 "Lab 2" None "" None "Asha" None))
                   (MemStorage.init sampleIds 0))) in
  MemStorage.attendeesOf "e1" s = [] /\ MemStorage.interestedOf "e1" s = ["u1"] /\
  forall x, In x (MemStorage.attendeesOf "e1" s) -> ~ In x (MemStorage.interestedOf "e1" s).
Proof.
  intros s. split; [reflexivity|]. split; [reflexivity|].
  refine (proj2 (proj2 (rsvp_exclusive_in_reachable_stores s _ "e1" _ eq_refl))).
  unfold s. repeat (apply StoreRsvp.reach_step; [|exact I]).
  apply StoreRsvp.reach_init.
Defined.

(** ** What an RSVP leaves alone *)

Lemma without_without x xs : without x (without x xs) = without x xs.
Proof. apply without_id, not_In_without. Qed.

Lemma without_push x xs : without x (push xs x) = without x xs.
Proof.
  unfold without, push. rewrite filter_app. simpl.
  rewrite String.eqb_refl. simpl. apply app_nil_r.
Qed.

(** X5. [rsvpEvent(u, e, type)] and [unrsvpEvent(u, e)] change nothing but
    [u]'s own entries in the two arrays of event [e]: the other users stay
    in both arrays in the same order, the event keeps every other field,
    no event is added or removed, every other event and the users, clubs
    and notifications are untouched; an unknown event id changes nothing
    at all. *)
Theorem rsvp_touches_one_user_of_one_event :
  forall (s : MemStorage.t) (u e type : string) (s' : MemStorage.t),
    s' = snd (MemStorage.rsvpEvent u e type s) \/
    s' = snd (MemStorage.unrsvpEvent u e s) ->
    without u (MemStorage.attendeesOf e s') = without u (MemStorage.attendeesOf e s) /\
    without u (MemStorage.interestedOf e s') = without u (MemStorage.interestedOf e s) /\
    (forall event, JsMap.get e (MemStorage.events s) = Some event ->
       exists attendees interested,
         JsMap.get e (MemStorage.events s')
           = Some (MemStorage.setRsvp event attendees interested)) /\
    (JsMap.get e (MemStorage.events s) = None -> s' = s) /\
    (forall e', e' <> e ->
       JsMap.get e' (MemStorage.events s') = JsMap.get e' (MemStorage.events s)) /\
    JsMap.keys (MemStorage.events s') = JsMap.keys (MemStorage.events s) /\
    MemStorage.users s' = MemStorage.users s /\
    MemStorage.clubs s' = MemStorage.clubs s /\
    MemStorage.notifications s' = MemStorage.notifications s.
Proof.
  intros s u e type s' Hs'.
  unfold MemStorage.attendeesOf, MemStorage.interestedOf.
  destruct (JsMap.get e (MemStorage.events s)) as [event|] eqn:Hg.
  - assert (Hk : forall v, JsMap.keys (JsMap.set e v (MemStorage.events s))
                           = JsMap.keys (MemStorage.events s))
      by (intros v; apply keys_set_present, In_keys_get; congruence).
    destruct Hs' as [-> | ->].
    + rewrite (rsvpEvent_lookup u e type s event Hg).
      unfold MemStorage.rsvpEvent. rewrite Hg.
      destruct (String.eqb type "attending"); simpl;
        rewrite ?without_push, !without_without, ?get_set_eq;
        (split; [reflexivity|]); (split; [reflexivity|]);
        (split; [intros ev [= <-]; eauto|]); (split; [discriminate|]);
        (split; [intros e' Hne; apply get_set_ne; congruence|]);
        (split; [apply Hk|]); auto.
    + rewrite (unrsvpEvent_lookup u e s event Hg).
      unfold MemStorage.unrsvpEvent. rewrite Hg. simpl.
      rewrite !without_without, ?get_set_eq.
      split; [reflexivity|]. split; [reflexivity|].
      split; [intros ev [= <-]; eauto|]. split; [discriminate|].
      split; [intros e' Hne; apply get_set_ne; congruence|].
      split; [apply Hk|]. auto.
  - assert (E : s' = s).
    { destruct Hs' as [-> | ->];
        [unfold MemStorage.rsvpEvent | unfold MemStorage.unrsvpEvent];
        now rewrite Hg. }
    subst s'. rewrite Hg. repeat split; auto. discriminate.
Qed.

Lemma rsvp_touches_one_user_of_one_event_witness :
  MemStorage.attendeesOf "e1"
    (snd (MemStorage.rsvpEvent "u3" "e1" "attending" sampleEventStore)) = ["u2"; "u3"] /\
  without "u3" (MemStorage.interestedOf "e1"
    (snd (MemStorage.rsvpEvent "u3" "e1" "attending" sampleEventStore))) = ["u1"].
Proof.
  split; [reflexivity|].
  apply (proj1 (proj2 (rsvp_touches_one_user_of_one_event sampleEventStore
                         "u3" "e1" "attending" _ (or_introl eq_refl)))).
Defined.

(** ** What joining and leaving a club leave alone *)

Section MembershipFrame.
Import MemStorage Store.










End MembershipFrame.



(** ** Creating, listing and deleting events *)

Section Events.
Import MemStorage MemStorageQueries.

Lemma run_events_wf op s : JsMap.wf (events s) -> JsMap.wf (events (Store.run op s)).
Proof.
  intros Hwf. destruct op; simpl; try exact Hwf.
  - now rewrite (proj1 (updateUser_rest id updates s)).
  - now apply wf_set.
  - unfold updateEvent. destruct (JsMap.get id (events s)); [|exact Hwf].
    now apply wf_set.
  - now apply wf_delete.
  - now rewrite joinClub_events.
  - now rewrite leaveClub_events.
  - unfold rsvpEvent. destruct (JsMap.get eventId (events s)); [|exact Hwf].
    now apply wf_set.
  - unfold unrsvpEvent. destruct (JsMap.get eventId (events s)); [|exact Hwf].
    now apply wf_set.
  - unfold markNotificationRead. now destruct (JsMap.get id (notifications s)).
Qed.

Lemma reachableAny_events_wf s : Store.reachableAny s -> JsMap.wf (events s).
Proof.
  induction 1 as [ids now | op s _ IH]; [constructor | now apply run_events_wf].
Qed.

Lemma values_set_fresh {V} (k : string) (v : V) (m : JsMap.t string V) :
  JsMap.get k m = None -> JsMap.values (JsMap.set k v m) = JsMap.values m ++ [v].
Proof.
  intros Hg. rewrite keys_set_absent by now apply get_None_keys.
  unfold JsMap.values. now rewrite map_app.
Qed.

Lemma getEvents_events s :
  map EventWithDetails.event (getEvents s) = JsMap.values (events s).
Proof. unfold getEvents. rewrite map_map. simpl. apply map_id. Qed.

End Events.

(** X7. In every store the program can reach, [deleteEvent(id)] returns
    [true] exactly when an event is stored under [id]; afterwards the id
    is unknown, so [getEventById] finds nothing, [rsvpEvent] and
    [unrsvpEvent] on it return [false] and a second [deleteEvent] returns
    [false]; every other event is still found, [getEvents] lists no event
    it did not list before, and users, clubs and notifications are
    untouched. *)
Theorem deleteEvent_forgets_the_event :
  forall (s : MemStorage.t) (id : string),
    Store.reachableAny s ->
    let s' := snd (MemStorage.deleteEvent id s) in
    (fst (MemStorage.deleteEvent id s) = true <->
     MemStorage.getEventById id s <> None) /\
    MemStorage.getEventById id s' = None /\
    (forall u type, fst (MemStorage.rsvpEvent u id type s') = false) /\
    (forall u, fst (MemStorage.unrsvpEvent u id s') = false) /\
    fst (MemStorage.deleteEvent id s') = false /\
    (forall id', id' <> id ->
       MemStorage.getEventById id' s' = MemStorage.getEventById id' s) /\
    (forall e, In e (MemStorage.getEvents s') -> In e (MemStorage.getEvents s)) /\
    MemStorage.users s' = MemStorage.users s /\
    MemStorage.clubs s' = MemStorage.clubs s /\
    MemStorage.notifications s' = MemStorage.notifications s.
Proof.
  intros s id Hreach s'.
  pose proof (reachableAny_events_wf s Hreach) as Hwf.
  assert (Hgone : JsMap.get id (MemStorage.events s') = None)
    by (apply get_delete_eq; exact Hwf).
  split.
  { unfold MemStorage.deleteEvent, MemStorage.getEventById, JsMap.has. simpl.
    destruct (JsMap.get id (MemStorage.events s)); split; congruence. }
  split; [exact Hgone|].
  split; [intros u type; rewrite rsvpEvent_result; now apply has_false|].
  split; [intros u; rewrite unrsvpEvent_result; now apply has_false|].
  split; [unfold MemStorage.deleteEvent; simpl; now apply has_false|].
  split; [intros id' Hne; apply get_delete_ne; congruence|].
  split; [|repeat split].
  intros e Hin. unfold MemStorage.getEvents in *.
  apply in_map_iff in Hin. destruct Hin as (ev & <- & Hin).
  apply in_map_iff. exists ev. split; [reflexivity|].
  unfold JsMap.values in *.
  apply in_map_iff in Hin. destruct Hin as (entry & <- & Hin).
  apply in_map_iff. exists entry. split; [reflexivity|].
  now apply In_delete in Hin.
Qed.

Lemma deleteEvent_forgets_the_event_witness :
  let s := Store.run (Store.CreateEvent "e1" 5
                        (InsertEvent.mk "Hackathon" "24h" 1000 "Lab 2" None "" None "Asha" None))
             (MemStorage.init sampleIds 0) in
  fst (MemStorage.deleteEvent "e1" s) = true /\
  fst (MemStorage.rsvpEvent "u1" "e1" "attending" (snd (MemStorage.deleteEvent "e1" s)))
    = false.
Proof.
  intros s.
  assert (Hr : Store.reachableAny s) by (apply Store.any_step, Store.any_init).
  pose proof (deleteEvent_forgets_the_event s "e1" Hr) as (Hd & _ & Hrsvp & _).
  split; [apply Hd; discriminate | apply Hrsvp].
Defined.

(** X8. [createEvent] with an unused id stores the event last, with empty
    [attendees] and [interested] arrays, type ["college"] when none is
    given and the given creation instant; [getEventById] finds it,
    [getEventsByUser] lists it after the earlier events of its organizer
    and for nobody else, and [getEventsByClub] lists it for its club
    only. *)
Theorem createEvent_is_listed :
  forall (s : MemStorage.t) (id : string) (now : Z) (ins : InsertEvent.t),
    JsMap.get id (MemStorage.events s) = None ->
    let event := fst (MemStorage.createEvent id now ins s) in
    let s' := snd (MemStorage.createEvent id now ins s) in
    MemStorage.getEventById id s' = Some event /\
    Event.id event = id /\
    Event.attendees event = JArray [] /\ Event.interested event = JArray [] /\
    Event.createdAt event = now /\
    (InsertEvent.type ins = "" -> Event.type event = "college") /\
    (InsertEvent.type ins <> "" -> Event.type event = InsertEvent.type ins) /\
    map EventWithDetails.event (MemStorage.getEvents s')
      = map EventWithDetails.event (MemStorage.getEvents s) ++ [event] /\
    (forall u,
       MemStorageQueries.getEventsByUser u s'
       = MemStorageQueries.getEventsByUser u s ++
         (if option_eqb (InsertEvent.organizerId ins) (Some u) then [event] else [])) /\
    (forall c,
       MemStorageQueries.getEventsByClub c s'
       = MemStorageQueries.getEventsByClub c s ++
         (if option_eqb (InsertEvent.club ins) (Some c) then [event] else [])).
Proof.
  intros s id now ins Hfresh event s'.
  assert (Hv : JsMap.values (MemStorage.events s')
               = JsMap.values (MemStorage.events s) ++ [event])
    by (apply values_set_fresh; exact Hfresh).
  split; [apply get_set_eq|].
  repeat (split; [reflexivity|]).
  split; [subst event; simpl; now intros ->|].
  split.
  { subst event. simpl. intros Hne. apply String.eqb_neq in Hne. now rewrite Hne. }
  split.
  { rewrite !getEvents_events, Hv. reflexivity. }
  split.
  - intros u. unfold MemStorageQueries.getEventsByUser.
    rewrite Hv, filter_app. reflexivity.
  - intros c. unfold MemStorageQueries.getEventsByClub.
    rewrite Hv, filter_app. reflexivity.
Qed.

Lemma createEvent_is_listed_witness :
  let ins := InsertEvent.mk "Quiz" "General quiz" 2000 "Hall" (Some "Coding Club")
               "" (Some "u2") "Bala" None in
  MemStorageQueries.getEventsByUser "u2"
    (snd (MemStorage.createEvent "e2" 7 ins sampleEventStore))
    = [fst (MemStorage.createEvent "e2" 7 ins sampleEventStore)] /\
  MemStorageQueries.getEventsByUser "u1"
    (snd (MemStorage.createEvent "e2" 7 ins sampleEventStore)) = [sampleEvent] /\
  Event.type (fst (MemStorage.createEvent "e2" 7 ins sampleEventStore)) = "college".
Proof.
  intros ins.
  pose proof (createEvent_is_listed sampleEventStore "e2" 7 ins eq_refl)
    as (_ & _ & _ & _ & _ & Hty & _ & _ & Hu & _).
  split; [apply (Hu "u2")|]. split; [apply (Hu "u1")|]. now apply Hty.
Defined.

(* ================================================================== *)
(** * Further properties of the routes *)

(** ** Institutional addresses *)




(** ** Finding a user by email after a write *)




(** ** Registration *)

Section RegisterFacts.
Variable isEmail : string -> bool.





End RegisterFacts.



(** ** Register, verify, log in *)



(** ** A session token in use *)

(** X11. In a store where every user is stored under its own id, the
    token a successful login returns is accepted by [authenticateToken]
    as that user at every instant less than seven days after the login,
    and answered 403 from then on; with a different secret it is answered
    403 at once. *)
Theorem login_token_authenticates :
  forall (secret other : string) (bcryptCompare : string -> string -> bool)
         (isEmail : string -> bool) (body : Http.LoginBody) (now : Z)
         (s : MemStorage.t) (public : PublicUser.t) (token : Jwt.token),
    Store.usersCoherent s ->
    Routes.postLogin secret bcryptCompare isEmail body now s
      = Http.mk 200 (Http.AuthResponse public token) ->
    exists user,
      public = omitPassword user /\
      MemStorage.getUser (PublicUser.id public) s = Some user /\
      (forall t, (t < now + 604800)%Z ->
         Routes.authenticateToken secret (Some token) t s = inl user) /\
      (forall t, (now + 604800 <= t)%Z ->
         Routes.authenticateToken secret (Some token) t s
           = inr (Http.mk 403 (Http.Message "Invalid token"))) /\
      (other <> secret ->
       forall t, Routes.authenticateToken other (Some token) t s
                 = inr (Http.mk 403 (Http.Message "Invalid token"))).
Proof.
  intros secret other bcryptCompare isEmail body now s public token [Hwf Hcoh].
  unfold Routes.postLogin.
  destruct (Routes.loginSchema isEmail body) as [[email password]|]; [|discriminate].
  destruct (MemStorage.getUserByEmail email s) as [user|] eqn:Hfind; [|discriminate].
  destruct (Routes.notVerified user); [discriminate|].
  destruct (negb (bcryptCompare password (User.password user))); [discriminate|].
  intros [= <- <-]. exists user.
  assert (Hget : MemStorage.getUser (User.id user) s = Some user).
  { unfold MemStorage.getUserByEmail, JsMap.values in Hfind.
    apply find_some in Hfind. destruct Hfind as [Hin _].
    apply in_map_iff in Hin. destruct Hin as [[k u] [Heq Hin]].
    simpl in Heq. subst u. rewrite (Hcoh k user Hin). now apply In_get. }
  split; [reflexivity|]. split; [exact Hget|].
  unfold Routes.authenticateToken, Routes.sessionToken, Jwt.sign, Jwt.verify, Jwt.days7.
  split; [|split].
  - intros t Ht. apply Z.ltb_lt in Ht.
    rewrite String.eqb_refl, Ht. simpl. now rewrite Hget.
  - intros t Ht. apply Z.ltb_ge in Ht.
    now rewrite String.eqb_refl, Ht.
  - intros Hne t. apply String.eqb_neq in Hne.
    rewrite String.eqb_sym in Hne. now rewrite Hne.
Qed.

Lemma verifiedStore_coherent : Store.usersCoherent verifiedStore.
Proof.
  split.
  - repeat constructor. simpl. tauto.
  - intros k user [[= <- <-]|[]]. reflexivity.
Qed.

Lemma login_token_authenticates_witness :
  exists user,
    Routes.authenticateToken "your-secret-key"
      (Some (Routes.sessionToken "your-secret-key" "u1" 100)) 5000 verifiedStore
    = inl user /\ User.email user = "asha@srec.ac.in".
Proof.
  destruct (login_token_authenticates "your-secret-key" "other" prefixCompare hasAt
              (Http.mkLogin (Some "asha@srec.ac.in") (Some "secret1")) 100
              verifiedStore _ _ verifiedStore_coherent eq_refl)
    as (user & Hp & Hg & Hok & _).
  exists user. split.
  - apply Hok. reflexivity.
  - injection Hg as <-. reflexivity.
Defined.

(** ** What the verify route can change *)

Lemma getVerify_cases secret token now srv :
  (exists message,
      Routes.getVerify secret token now srv = (Http.mk 400 (Http.Message message), srv)) \/
  Routes.getVerify secret token now srv
    = (Http.mk 200 (Http.Message "Account already verified"), srv) \/
  (exists found,
      Routes.getVerify secret token now srv
      = (Http.mk 200 (Http.Message "Email verified successfully. You can now log in."),
         Server.mk
           (snd (MemStorage.updateUser (User.id found) MemStorage.verifiedUpdate
                   (Server.storage srv)))
           (Server.wss srv) (Server.trace srv))).
Proof.
  unfold Routes.getVerify.
  destruct token as [tok|]; [|left; eexists; reflexivity].
  destruct (Jwt.verify tok secret now) as [decoded|]; [|left; eexists; reflexivity].
  unfold Server.bind, Server.query, Server.call, Server.ret. cbn.
  destruct (Routes.getUserByEmailOpt (Jwt.email decoded) (Server.storage srv))
    as [found|]; [|left; eexists; reflexivity].
  destruct (negb (Routes.notVerified found)); [right; left; reflexivity|].
  right. right. exists found.
  now destruct (MemStorage.updateUser (User.id found) MemStorage.verifiedUpdate
                  (Server.storage srv)).
Qed.

(** A user after [updateUser(id, { isVerified: true })]. *)
Lemma verifiedUpdate_users id s k user' :
  MemStorage.getUser k (snd (MemStorage.updateUser id MemStorage.verifiedUpdate s))
    = Some user' ->
  exists user,
    MemStorage.getUser k s = Some user /\
    omitPassword user' =
      PublicUser.mk (User.id user) (User.name user) (User.email user)
        (User.role user) (User.clubs user) (User.avatar user)
        (User.createdAt user) (User.isVerified user') /\
    User.password user' = User.password user /\
    (User.isVerified user' = User.isVerified user \/
     User.isVerified user' = Some true).
Proof.
  unfold MemStorage.updateUser, MemStorage.getUser.
  destruct (JsMap.get id (MemStorage.users s)) as [user|] eqn:Hg; cbn.
  - destruct (String.eqb_spec id k) as [<-|Hne].
    + rewrite get_set_eq. intros [= <-]. exists user. rewrite Hg.
      repeat split. now right.
    + rewrite get_set_ne by assumption. intros Hk. exists user'. auto.
  - intros Hk. exists user'. auto.
Qed.

Lemma verifiedUpdate_keys id s :
  JsMap.keys (MemStorage.users (snd (MemStorage.updateUser id MemStorage.verifiedUpdate s)))
    = JsMap.keys (MemStorage.users s).
Proof.
  unfold MemStorage.updateUser.
  destruct (JsMap.get id (MemStorage.users s)) eqn:Hg; cbn; [|reflexivity].
  apply keys_set_present, In_keys_get. congruence.
Qed.

(** X12. [GET /api/auth/verify] answers 200 or 400 and never touches the
    registry, the trace, the events, the clubs or the notifications; no
    user is added or removed, and a stored user differs from before in
    nothing but a verification flag that has become true. An answer of 400
    leaves the whole server as it was, and that is the answer to a missing
    token, to a string that is no token and to a verification token
    24 hours after its issue or later. *)
Theorem getVerify_only_sets_the_flag :
  forall (secret : string) (token : option Jwt.token) (now : Z) (srv : Server.t),
    let response := fst (Routes.getVerify secret token now srv) in
    let srv' := snd (Routes.getVerify secret token now srv) in
    (Http.status response = 200 \/ Http.status response = 400) /\
    (Http.status response = 400 -> srv' = srv) /\
    Server.wss srv' = Server.wss srv /\ Server.trace srv' = Server.trace srv /\
    MemStorage.events (Server.storage srv') = MemStorage.events (Server.storage srv) /\
    MemStorage.clubs (Server.storage srv') = MemStorage.clubs (Server.storage srv) /\
    MemStorage.notifications (Server.storage srv')
      = MemStorage.notifications (Server.storage srv) /\
    JsMap.keys (MemStorage.users (Server.storage srv'))
      = JsMap.keys (MemStorage.users (Server.storage srv)) /\
    (forall k user',
        MemStorage.getUser k (Server.storage srv') = Some user' ->
        exists user,
          MemStorage.getUser k (Server.storage srv) = Some user /\
          omitPassword user' =
            PublicUser.mk (User.id user) (User.name user) (User.email user)
              (User.role user) (User.clubs user) (User.avatar user)
              (User.createdAt user) (User.isVerified user') /\
          User.password user' = User.password user /\
          (User.isVerified user' = User.isVerified user \/
           User.isVerified user' = Some true)) /\
    (token = None -> Http.status response = 400) /\
    (forall raw, token = Some (Jwt.Garbage raw) -> Http.status response = 400) /\
    (forall e issued, token = Some (Routes.verificationToken secret e issued) ->
                      (issued + 86400 <= now)%Z -> Http.status response = 400).
Proof.
  intros secret token now srv response srv'.
  assert (Hbad : (token = None -> Http.status response = 400) /\
                 (forall raw, token = Some (Jwt.Garbage raw) ->
                              Http.status response = 400) /\
                 (forall e issued,
                     token = Some (Routes.verificationToken secret e issued) ->
                     (issued + 86400 <= now)%Z -> Http.status response = 400)).
  { subst response. split; [intros ->; reflexivity|].
    split; [intros raw ->; reflexivity|].
    intros e issued -> Hle.
    unfold Routes.getVerify, Routes.verificationToken, Jwt.sign, Jwt.verify, Jwt.hours24.
    apply Z.ltb_ge in Hle. now rewrite String.eqb_refl, Hle. }
  subst response srv'.
  destruct (getVerify_cases secret token now srv)
    as [[message E] | [E | [found E]]]; rewrite E in *; cbn [fst snd Http.status] in *.
  - split; [now right|]. split; [reflexivity|].
    repeat (split; [reflexivity|]).
    split; [|exact Hbad]. intros k user' Hk. exists user'. auto.
  - split; [now left|]. split; [reflexivity|].
    repeat (split; [reflexivity|]).
    split; [|exact Hbad]. intros k user' Hk. exists user'. auto.
  - split; [now left|]. split; [discriminate|].
    cbn [Server.wss Server.trace Server.storage].
    destruct (updateUser_rest (User.id found) MemStorage.verifiedUpdate
                (Server.storage srv)) as (He & Hc & Hn).
    repeat (split; [assumption || reflexivity|]).
    split; [apply verifiedUpdate_keys|].
    split; [|exact Hbad]. apply verifiedUpdate_users.
Qed.

Lemma getVerify_only_sets_the_flag_witness :
  snd (Routes.getVerify "your-secret-key"
         (Some (Routes.verificationToken "your-secret-key" "asha@srec.ac.in" 0))
         86400 (Server.mk unverifiedStore Ws.init []))
  = Server.mk unverifiedStore Ws.init [].
Proof.
  pose proof (getVerify_only_sets_the_flag "your-secret-key"
                (Some (Routes.verificationToken "your-secret-key" "asha@srec.ac.in" 0))
                86400 (Server.mk unverifiedStore Ws.init []))
    as (_ & Hsame & _ & _ & _ & _ & _ & _ & _ & _ & _ & Hexp).
  apply Hsame. apply (Hexp "asha@srec.ac.in" 0%Z eq_refl). discriminate.
Defined.

(** ** Creating an event through the route *)

(** X13. [POST /api/events] answers 403 to a caller whose role is neither
    Organizer nor Faculty, and 400 to an authorised caller whose body
    fails the schema; in both cases nothing is stored, pushed or recorded.
    For an authorised caller with a valid body and unused ids it answers
    201 with the stored event, whose organizer id and name are the
    caller's whatever the body says and whose attendee and interested
    arrays are empty; exactly one event and one notification, addressed to
    the caller, are added, and users and clubs are untouched. *)
Theorem postEvents_gate_and_effect :
  forall (body : option InsertEvent.t) (eventId notificationId : string) (now : Z)
         (user : User.t) (srv : Server.t),
    let response := fst (Routes.postEvents body eventId notificationId now user srv) in
    let srv' := snd (Routes.postEvents body eventId notificationId now user srv) in
    (~ In (User.role user) ["Organizer"; "Faculty"] ->
     response = Http.mk 403 (Http.Message "Not authorized to create events") /\
     srv' = srv) /\
    (In (User.role user) ["Organizer"; "Faculty"] -> body = None ->
     Http.status response = 400 /\ srv' = srv) /\
    (forall eventData,
        In (User.role user) ["Organizer"; "Faculty"] -> body = Some eventData ->
        JsMap.get eventId (MemStorage.events (Server.storage srv)) = None ->
        JsMap.get notificationId (MemStorage.notifications (Server.storage srv)) = None ->
        exists event,
          response = Http.mk 201 (Http.EventJson event) /\
          MemStorage.getEventById eventId (Server.storage srv') = Some event /\
          Event.organizerId event = Some (User.id user) /\
          Event.organizerName event = User.name user /\
          Event.title event = InsertEvent.title eventData /\
          Event.attendees event = JArray [] /\ Event.interested event = JArray [] /\
          JsMap.keys (MemStorage.events (Server.storage srv'))
            = JsMap.keys (MemStorage.events (Server.storage srv)) ++ [eventId] /\
          JsMap.keys (MemStorage.notifications (Server.storage srv'))
            = JsMap.keys (MemStorage.notifications (Server.storage srv))
              ++ [notificationId] /\
          option_map Notification.userId
            (JsMap.get notificationId (MemStorage.notifications (Server.storage srv')))
            = Some (orNull (Some (User.id user))) /\
          MemStorageQueries.getEventsByUser (User.id user) (Server.storage srv')
            = MemStorageQueries.getEventsByUser (User.id user) (Server.storage srv)
              ++ [event] /\
          MemStorage.users (Server.storage srv') = MemStorage.users (Server.storage srv) /\
          MemStorage.clubs (Server.storage srv') = MemStorage.clubs (Server.storage srv)).
Proof.
  intros body eventId notificationId now user srv response srv'.
  subst response srv'. unfold Routes.postEvents.
  split; [|split].
  - intros Hrole. apply includes_false in Hrole. rewrite Hrole. now split.
  - intros Hrole ->. apply includes_In in Hrole. rewrite Hrole. now split.
  - intros eventData Hrole -> He Hn. apply includes_In in Hrole. rewrite Hrole.
    cbn [negb].
    unfold Server.bind, Server.call, Server.createNotification,
      Server.broadcastNotification, Server.emit, Server.ret, Server.bind, Server.call.
    cbn.
    eexists. split; [reflexivity|].
    split; [apply get_set_eq|].
    repeat (split; [reflexivity|]).
    split.
    { rewrite keys_set_absent by now apply get_None_keys.
      unfold JsMap.keys. now rewrite map_app. }
    split.
    { rewrite keys_set_absent by now apply get_None_keys.
      unfold JsMap.keys. now rewrite map_app. }
    split; [now rewrite get_set_eq|].
    split; [|now split].
    unfold MemStorageQueries.getEventsByUser, JsMap.values. cbn.
    rewrite keys_set_absent by now apply get_None_keys.
    rewrite map_app, filter_app. cbn.
    now rewrite String.eqb_refl.
Qed.

Lemma postEvents_gate_and_effect_witness :
  snd (Routes.postEvents (Some sampleEventBody) "e9" "n9" 100 sampleUser sampleServer)
    = sampleServer /\
  exists event,
    fst (Routes.postEvents (Some sampleEventBody) "e9" "n9" 100 sampleOrganizer sampleServer)
      = Http.mk 201 (Http.EventJson event) /\
    Event.organizerName event = "Ravi".
Proof.
  split.
  - apply (proj1 (postEvents_gate_and_effect (Some sampleEventBody) "e9" "n9" 100
                    sampleUser sampleServer)).
    simpl. intuition discriminate.
  - destruct (proj2 (proj2 (postEvents_gate_and_effect (Some sampleEventBody) "e9" "n9"
                              100 sampleOrganizer sampleServer))
                sampleEventBody (or_introl eq_refl) eq_refl eq_refl eq_refl)
      as (event & Hr & _ & _ & Hname & _).
    exists event. split; assumption.
Defined.

(** ** A role is the caller's to set *)

(** X14. In a store where every user is stored under its own id, any
    authenticated caller, whatever its role, who sends
    [PATCH /api/auth/profile] with role Organizer gets 200 and the stored
    role, and the same bearer token then passes the role check of
    [POST /api/events]: a valid event body is answered 201. *)
Theorem profile_role_opens_event_creation :
  forall (secret : string) (bearer : option Jwt.token) (now : Z) (user : User.t)
         (body : InsertEvent.t) (eventId notificationId : string) (srv : Server.t),
    Store.usersCoherent (Server.storage srv) ->
    Routes.authenticateToken secret bearer now (Server.storage srv) = inl user ->
    let patched := Routes.authenticated secret bearer now
                     (Routes.patchProfile organizerUpdate) srv in
    fst patched
      = Http.mk 200 (Http.UserJson
                       (omitPassword (MemStorage.mergeUser user organizerUpdate))) /\
    option_map User.role (MemStorage.getUser (User.id user) (Server.storage (snd patched)))
      = Some "Organizer" /\
    Http.status
      (fst (Routes.authenticated secret bearer now
              (Routes.postEvents (Some body) eventId notificationId now) (snd patched)))
      = 201.
Proof.
  intros secret bearer now user body eventId notificationId srv [Hwf Hcoh] Hauth patched.
  assert (Hkey : exists tok decoded,
             bearer = Some tok /\ Jwt.verify tok secret now = Some decoded /\
             Jwt.userId decoded = Some (User.id user) /\
             MemStorage.getUser (User.id user) (Server.storage srv) = Some user).
  { unfold Routes.authenticateToken in Hauth.
    destruct bearer as [tok|]; [|discriminate].
    destruct (Jwt.verify tok secret now) as [decoded|] eqn:Hv; [|discriminate].
    destruct (Jwt.userId decoded) as [k|] eqn:Hk; [|discriminate]. simpl in Hauth.
    destruct (MemStorage.getUser k (Server.storage srv)) as [u|] eqn:Hg; [|discriminate].
    injection Hauth as ->.
    assert (User.id user = k) by (apply Hcoh; now apply get_In). subst k.
    exists tok, decoded. auto. }
  destruct Hkey as (tok & decoded & -> & Hv & Hk & Hg).
  assert (Hp : patched
               = (Http.mk 200 (Http.UserJson
                     (omitPassword (MemStorage.mergeUser user organizerUpdate))),
                  Server.mk
                    (MemStorage.with_users
                       (JsMap.set (User.id user) (MemStorage.mergeUser user organizerUpdate)
                          (MemStorage.users (Server.storage srv)))
                       (Server.storage srv))
                    (Server.wss srv) (Server.trace srv))).
  { subst patched. unfold Routes.authenticated. rewrite Hauth.
    unfold Routes.patchProfile, Server.bind, Server.call, MemStorage.updateUser.
    unfold MemStorage.getUser in Hg. now rewrite Hg. }
  rewrite Hp. cbn [fst snd].
  split; [reflexivity|].
  split; [unfold MemStorage.getUser; cbn; now rewrite get_set_eq|].
  unfold Routes.authenticated, Routes.authenticateToken. rewrite Hv, Hk.
  cbn [Routes.getUserOpt Server.storage]. unfold MemStorage.getUser. cbn.
  rewrite get_set_eq. reflexivity.
Qed.

Lemma profile_role_opens_event_creation_witness :
  User.role sampleUser = "Student" /\
  Http.status
    (fst (Routes.authenticated "your-secret-key"
            (Some (Routes.sessionToken "your-secret-key" "u1" 0)) 50
            (Routes.postEvents (Some sampleEventBody) "e9" "n9" 50)
            (snd (Routes.authenticated "your-secret-key"
                    (Some (Routes.sessionToken "your-secret-key" "u1" 0)) 50
                    (Routes.patchProfile organizerUpdate)
                    (Server.mk sampleUserStore Ws.init [])))))
    = 201.
Proof.
  split; [reflexivity|].
  apply (profile_role_opens_event_creation "your-secret-key"
           (Some (Routes.sessionToken "your-secret-key" "u1" 0)) 50 sampleUser
           sampleEventBody "e9" "n9" (Server.mk sampleUserStore Ws.init [])).
  - split.
    + repeat constructor. simpl. tauto.
    + intros k user [[= <- <-]|[]]. reflexivity.
  - reflexivity.
Defined.

(** ** The caller's own flags in the event list *)

Lemma In_getEvents_route user srv event :
  In event (JsMap.values (MemStorage.events (Server.storage srv))) ->
  exists listed,
    Routes.getEvents user srv = (Http.mk 200 (Http.EventsJson listed), srv) /\
    In (EventWithDetails.mk event
          (lengthOrZero (Event.attendees event))
          (lengthOrZero (Event.interested event))
          (Some (includes (arrayOrEmpty (Event.attendees event)) (User.id user)))
          (Some (includes (arrayOrEmpty (Event.interested event)) (User.id user))))
       listed.
Proof.
  intros Hin. eexists. split; [reflexivity|].
  unfold MemStorage.getEvents. rewrite map_map. cbn.
  apply in_map_iff. exists event. split; [reflexivity | exact Hin].
Qed.

(** X15. After [POST /api/events/:id/rsvp] with type attending (or
    interested) was answered 200, the caller's [GET /api/events] lists
    that event with [isAttending] (or [isInterested]) true, the other flag
    false and the matching count at least one; after
    [DELETE /api/events/:id/rsvp] was answered 200 it lists the event with
    both flags false. *)
Theorem event_list_shows_own_rsvp :
  forall (srv : Server.t) (user : User.t) (id type : string),
    In type ["attending"; "interested"] ->
    JsMap.get id (MemStorage.events (Server.storage srv)) <> None ->
    let srv1 := snd (Routes.postRsvp id type user srv) in
    let srv2 := snd (Routes.deleteRsvp id user srv1) in
    Http.status (fst (Routes.postRsvp id type user srv)) = 200 /\
    Http.status (fst (Routes.deleteRsvp id user srv1)) = 200 /\
    (exists listed entry,
        Routes.getEvents user srv1 = (Http.mk 200 (Http.EventsJson listed), srv1) /\
        In entry listed /\
        MemStorage.getEventById id (Server.storage srv1)
          = Some (EventWithDetails.event entry) /\
        EventWithDetails.isAttending entry = Some (String.eqb type "attending") /\
        EventWithDetails.isInterested entry = Some (negb (String.eqb type "attending")) /\
        1 <= (if String.eqb type "attending"
              then EventWithDetails.attendeeCount entry
              else EventWithDetails.interestedCount entry)) /\
    (exists listed entry,
        Routes.getEvents user srv2 = (Http.mk 200 (Http.EventsJson listed), srv2) /\
        In entry listed /\
        MemStorage.getEventById id (Server.storage srv2)
          = Some (EventWithDetails.event entry) /\
        EventWithDetails.isAttending entry = Some false /\
        EventWithDetails.isInterested entry = Some false).
Proof.
  intros srv user id type Hty Hex srv1 srv2.
  apply includes_In in Hty.
  destruct (JsMap.get id (MemStorage.events (Server.storage srv))) as [event|] eqn:Hg;
    [clear Hex | congruence].
  assert (E1 : Routes.postRsvp id type user srv
               = (Http.mk 200 (Http.Message "RSVP updated successfully"),
                  Server.mk (snd (MemStorage.rsvpEvent (User.id user) id type
                                    (Server.storage srv)))
                    (Server.wss srv) (Server.trace srv))).
  { unfold Routes.postRsvp. rewrite Hty. cbn [negb].
    unfold Server.bind, Server.call, MemStorage.rsvpEvent. now rewrite Hg. }
  pose proof (rsvpEvent_lookup (User.id user) id type (Server.storage srv) event Hg)
    as Hg1.
  assert (Es1 : Server.storage srv1
                = snd (MemStorage.rsvpEvent (User.id user) id type (Server.storage srv)))
    by (subst srv1; now rewrite E1).
  rewrite <- Es1 in Hg1.
  assert (E2 : Routes.deleteRsvp id user srv1
               = (Http.mk 200 (Http.Message "RSVP removed successfully"),
                  Server.mk (snd (MemStorage.unrsvpEvent (User.id user) id
                                    (Server.storage srv1)))
                    (Server.wss srv1) (Server.trace srv1))).
  { unfold Routes.deleteRsvp, Server.bind, Server.call, MemStorage.unrsvpEvent.
    now rewrite Hg1. }
  pose proof (unrsvpEvent_lookup (User.id user) id (Server.storage srv1) _ Hg1) as Hg2.
  assert (Es2 : Server.storage srv2
                = snd (MemStorage.unrsvpEvent (User.id user) id (Server.storage srv1)))
    by (subst srv2; now rewrite E2).
  rewrite <- Es2 in Hg2.
  split; [now rewrite E1|]. split; [now rewrite E2|]. split.
  - assert (Hin : In _ (JsMap.values (MemStorage.events (Server.storage srv1))))
      by (apply get_In in Hg1; unfold JsMap.values;
          apply in_map_iff; eexists; split; [|exact Hg1]; reflexivity).
    destruct (In_getEvents_route user srv1 _ Hin) as (listed & Hr & Hl).
    exists listed. eexists. split; [exact Hr|]. split; [exact Hl|].
    split; [exact Hg1|]. cbn [EventWithDetails.event EventWithDetails.isAttending
      EventWithDetails.isInterested EventWithDetails.attendeeCount
      EventWithDetails.interestedCount].
    destruct (String.eqb type "attending"); cbn.
    + assert (Ha : includes (push (without (User.id user)
                                     (arrayOrEmpty (Event.attendees event)))
                               (User.id user)) (User.id user) = true)
        by (apply includes_In, In_push; now right).
      assert (Hi : includes (without (User.id user)
                               (arrayOrEmpty (Event.interested event)))
                     (User.id user) = false)
        by (apply includes_false, not_In_without).
      unfold includes in Ha, Hi. rewrite Ha, Hi.
      repeat split. unfold push. rewrite length_app. simpl. lia.
    + assert (Ha : includes (push (without (User.id user)
                                     (arrayOrEmpty (Event.interested event)))
                               (User.id user)) (User.id user) = true)
        by (apply includes_In, In_push; now right).
      assert (Hi : includes (without (User.id user)
                               (arrayOrEmpty (Event.attendees event)))
                     (User.id user) = false)
        by (apply includes_false, not_In_without).
      unfold includes in Ha, Hi. rewrite Ha, Hi.
      repeat split. unfold push. rewrite length_app. simpl. lia.
  - assert (Hin : In _ (JsMap.values (MemStorage.events (Server.storage srv2))))
      by (apply get_In in Hg2; unfold JsMap.values;
          apply in_map_iff; eexists; split; [|exact Hg2]; reflexivity).
    destruct (In_getEvents_route user srv2 _ Hin) as (listed & Hr & Hl).
    exists listed. eexists. split; [exact Hr|]. split; [exact Hl|].
    split; [exact Hg2|].
    cbn [EventWithDetails.event EventWithDetails.isAttending
      EventWithDetails.isInterested MemStorage.setRsvp Event.attendees
      Event.interested arrayOrEmpty].
    split; f_equal; apply includes_false, not_In_without.
Qed.

Lemma event_list_shows_own_rsvp_witness :
  exists listed entry,
    Routes.getEvents sampleUser
      (snd (Routes.postRsvp "e1" "attending" sampleUser
              (Server.mk sampleEventStore Ws.init [])))
    = (Http.mk 200 (Http.EventsJson listed),
       snd (Routes.postRsvp "e1" "attending" sampleUser
              (Server.mk sampleEventStore Ws.init []))) /\
    In entry listed /\
    EventWithDetails.isAttending entry = Some true.
Proof.
  destruct (event_list_shows_own_rsvp (Server.mk sampleEventStore Ws.init [])
              sampleUser "e1" "attending" (or_introl eq_refl) ltac:(discriminate))
    as (_ & _ & (listed & entry & Hr & Hin & _ & Ha & _) & _).
  exists listed, entry. repeat split; assumption.
Defined.

(* ================================================================== *)
(** * Further properties of the live connections *)

Section JsMapDelete.
Context {K V : Type} `{EqKey K}.
Implicit Types (k : K) (m : list (K * V)).

Lemma In_delete_gen k e m : In e (JsMap.delete k m) -> In e m.
Proof.
  induction m as [|[k' v'] r IH]; simpl; [tauto|].
  destruct (keq k k'); simpl; intuition.
Qed.

Lemma wf_delete_gen k m : JsMap.wf m -> JsMap.wf (JsMap.delete k m).
Proof.
  unfold JsMap.wf. induction m as [|[k' v'] r IH]; simpl; intros Hwf; [constructor|].
  inversion Hwf as [|? ? Hni Hwf']; subst.
  destruct (keq k k'); simpl; [assumption|].
  constructor; [|now apply IH].
  intros Hin. apply Hni. unfold JsMap.keys in *.
  apply in_map_iff in Hin. destruct Hin as [e [Hf Hin]].
  apply In_delete_gen in Hin. rewrite <- Hf. now apply in_map.
Qed.

Lemma length_delete k m :
  length (JsMap.delete k m) + (if JsMap.has k m then 1 else 0) = length m.
Proof.
  unfold JsMap.has. induction m as [|[k' v'] r IH]; simpl; [reflexivity|].
  destruct (keq k k'); simpl; [lia|].
  destruct (JsMap.get k r); simpl in *; lia.
Qed.

End JsMapDelete.

Section RegistryFacts.
Import Ws.

Lemma firstKeyOf_In ws entries userId :
  firstKeyOf ws entries = Some userId -> In (userId, ws) entries.
Proof.
  induction entries as [|[k c] r IH]; simpl; [discriminate|].
  destruct (Nat.eqb_spec c ws) as [->|Hne].
  - intros [= ->]. now left.
  - intros Hf. right. auto.
Qed.

Lemma firstKeyOf_None ws entries :
  firstKeyOf ws entries = None -> ~ In ws (map snd entries).
Proof.
  induction entries as [|[k c] r IH]; simpl; [tauto|].
  destruct (Nat.eqb_spec c ws) as [->|Hne]; [discriminate|].
  intros Hf [Hc|Hin]; [contradiction | now apply IH].
Qed.

Lemma close_socket ws w :
  clients (close ws w) = clients w /\
  (forall c, c <> ws -> sockets (close ws w) c = sockets w c) /\
  sent (sockets (close ws w) ws) = sent (sockets w ws) /\
  readyState (sockets (close ws w) ws) <> OPEN.
Proof.
  unfold close. destruct (readyState (sockets w ws)) eqn:Er; simpl;
    rewrite ?updSocket_same; repeat split; auto;
    try (intros c Hne; now apply updSocket_other);
    try discriminate.
  rewrite Er. discriminate.
Qed.

Lemma broadcast_other_socket userId notification w c :
  recipient userId w <> Some c ->
  sockets (broadcastNotification userId notification w) c = sockets w c.
Proof.
  intros Hr. destruct (recipient userId w) as [client|] eqn:E.
  - destruct (broadcast_delivers userId notification w client E) as (_ & _ & Ho).
    apply Ho. congruence.
  - now rewrite (broadcast_drops userId notification w E).
Qed.

Lemma recipient_open userId w c :
  recipient userId w = Some c ->
  JsMap.get (Some userId) (clients w) = Some c /\ readyState (sockets w c) = OPEN.
Proof.
  unfold recipient.
  destruct (JsMap.get (Some userId) (clients w)) as [client|]; [|discriminate].
  destruct (readyState (sockets w client)) eqn:Er; simpl; try discriminate.
  intros [= <-]. now split.
Qed.

End RegistryFacts.

(** X16. The websocket message handler changes nothing on a frame that is
    not JSON, whose type is not ["auth"] or that carries no token. On an
    auth frame whose token fails [jwt.verify] it leaves the registry and
    every other socket alone and closes the sending connection, which
    keeps the frames already sent and gets no further one from
    [broadcastNotification]. *)
Theorem websocket_rejects_bad_frames :
  forall (secret : string) (now : Z) (ws : Ws.conn) (w : Ws.t),
    Ws.onMessage secret now ws Ws.Unparseable w = w /\
    (forall type, Ws.onMessage secret now ws (Ws.Data type None) w = w) /\
    (forall type token, type <> "auth" ->
        Ws.onMessage secret now ws (Ws.Data type (Some token)) w = w) /\
    (forall token,
        Jwt.verify token secret now = None ->
        let w' := Ws.onMessage secret now ws (Ws.Data "auth" (Some token)) w in
        Ws.clients w' = Ws.clients w /\
        (forall c, c <> ws -> Ws.sockets w' c = Ws.sockets w c) /\
        Ws.sent (Ws.sockets w' ws) = Ws.sent (Ws.sockets w ws) /\
        Ws.readyState (Ws.sockets w' ws) <> Ws.OPEN /\
        (forall userId notification,
            Ws.sockets (Ws.broadcastNotification userId notification w') ws
            = Ws.sockets w' ws)).
Proof.
  intros secret now ws w. split; [reflexivity|]. split; [reflexivity|]. split.
  - intros type token Hne. unfold Ws.onMessage.
    apply String.eqb_neq in Hne. now rewrite Hne.
  - intros token Hv w'.
    assert (E : w' = Ws.close ws w)
      by (subst w'; unfold Ws.onMessage; simpl; now rewrite Hv).
    rewrite E. destruct (close_socket ws w) as (Hc & Ho & Hs & Hr).
    repeat (split; [assumption|]).
    intros userId notification. apply broadcast_other_socket.
    intros Hrec. apply recipient_open in Hrec. destruct Hrec as [_ Hopen].
    contradiction.
Qed.

Lemma websocket_rejects_bad_frames_witness :
  let w' := Ws.onMessage "your-secret-key" 700000 1
              (Ws.Data "auth" (Some (Routes.sessionToken "your-secret-key" "u1" 0)))
              sampleWs in
  Ws.clients w' = [] /\ Ws.readyState (Ws.sockets w' 1) <> Ws.OPEN.
Proof.
  intros w'.
  pose proof (proj2 (proj2 (proj2 (websocket_rejects_bad_frames "your-secret-key"
                                     700000 1 sampleWs)))
                (Routes.sessionToken "your-secret-key" "u1" 0) eq_refl)
    as (Hc & _ & _ & Hr & _).
  split; [exact Hc | exact Hr].
Defined.

Section CloseFacts.
Import Ws.

Lemma onClose_sockets ws w :
  sockets (onClose ws w) ws = mkSocket CLOSED (sent (sockets w ws)) /\
  (forall c, c <> ws -> sockets (onClose ws w) c = sockets w c).
Proof.
  unfold onClose.
  destruct (firstKeyOf ws (JsMap.entries (clients w))); simpl;
    rewrite updSocket_same; (split; [reflexivity|]);
    intros c Hne; now apply updSocket_other.
Qed.

Lemma onClose_clients ws w :
  clients (onClose ws w)
    = match firstKeyOf ws (JsMap.entries (clients w)) with
      | Some userId => JsMap.delete userId (clients w)
      | None => clients w
      end.
Proof.
  unfold onClose. now destruct (firstKeyOf ws (JsMap.entries (clients w))).
Qed.

End CloseFacts.

(** X17. When a connection closes, with one registry entry per key, the
    close handler marks the socket closed and removes one registration
    that points at it, if there is one; it adds no registration and
    removes none that points at another connection, so a connection
    superseded for its user leaves the newer registration in place. A
    connection registered at most once is not registered afterwards, and
    [broadcastNotification] sends the closed socket nothing. *)
Theorem close_unregisters_only_that_connection :
  forall (ws : Ws.conn) (w : Ws.t),
    JsMap.wf (Ws.clients w) ->
    let w' := Ws.onClose ws w in
    Ws.readyState (Ws.sockets w' ws) = Ws.CLOSED /\
    Ws.sent (Ws.sockets w' ws) = Ws.sent (Ws.sockets w ws) /\
    (forall c, c <> ws -> Ws.sockets w' c = Ws.sockets w c) /\
    (forall k c, JsMap.get k (Ws.clients w') = Some c ->
                 JsMap.get k (Ws.clients w) = Some c) /\
    (forall k c, JsMap.get k (Ws.clients w) = Some c -> c <> ws ->
                 JsMap.get k (Ws.clients w') = Some c) /\
    length (Ws.clients w')
      + (if existsb (Nat.eqb ws) (WsEvents.registered w) then 1 else 0)
      = length (Ws.clients w) /\
    ((forall k1 k2, JsMap.get k1 (Ws.clients w) = Some ws ->
                    JsMap.get k2 (Ws.clients w) = Some ws -> k1 = k2) ->
     ~ In ws (WsEvents.registered w')) /\
    JsMap.wf (Ws.clients w') /\
    (forall userId notification,
        Ws.sockets (Ws.broadcastNotification userId notification w') ws
        = Ws.sockets w' ws).
Proof.
  intros ws w Hwf w'.
  destruct (onClose_sockets ws w) as [Hs Ho]. fold w' in Hs, Ho.
  pose proof (onClose_clients ws w) as Hc. fold w' in Hc.
  split; [now rewrite Hs|]. split; [now rewrite Hs|]. split; [exact Ho|].
  unfold WsEvents.registered, JsMap.values.
  destruct (Ws.firstKeyOf ws (JsMap.entries (Ws.clients w))) as [userId|] eqn:Hf.
  - pose proof (firstKeyOf_In ws _ userId Hf) as Hin.
    pose proof (In_get _ _ _ Hwf Hin) as Hget.
    rewrite Hc.
    split.
    { intros k c Hg. destruct (keq userId k) eqn:E.
      - apply keq_spec in E. subst k.
        rewrite (get_delete_eq _ _ Hwf) in Hg. discriminate.
      - apply keq_false in E. now rewrite get_delete_ne in Hg by assumption. }
    split.
    { intros k c Hg Hne. destruct (keq userId k) eqn:E.
      - apply keq_spec in E. subst k. congruence.
      - apply keq_false in E. now rewrite get_delete_ne by assumption. }
    split.
    { assert (He : existsb (Nat.eqb ws) (map snd (Ws.clients w)) = true).
      { apply existsb_exists. exists ws. split; [|apply Nat.eqb_refl].
        change ws with (snd (userId, ws)). now apply in_map. }
      rewrite He.
      pose proof (length_delete userId (Ws.clients w)) as Hl.
      unfold JsMap.has in Hl. now rewrite Hget in Hl. }
    split.
    { intros Hcount Hin'.
      apply in_map_iff in Hin'. destruct Hin' as [[k c] [Hk Hin']].
      simpl in Hk. subst c.
      pose proof (In_delete_gen _ _ _ Hin') as Hold.
      assert (Hne : k <> userId).
      { intros ->. pose proof (wf_delete_gen userId _ Hwf) as Hwf'.
        pose proof (In_get _ _ _ Hwf' Hin') as Hg.
        rewrite (get_delete_eq _ _ Hwf) in Hg. discriminate. }
      apply Hne. apply Hcount; [now apply In_get | exact Hget]. }
    split; [now apply wf_delete_gen|].
    intros u n. apply broadcast_other_socket.
    intros Hrec. apply recipient_open in Hrec. rewrite Hs in Hrec.
    destruct Hrec as [_ Hopen]. discriminate.
  - rewrite Hc.
    pose proof (firstKeyOf_None ws _ Hf) as Hnot.
    split; [auto|]. split; [auto|].
    split.
    { assert (He : existsb (Nat.eqb ws) (map snd (Ws.clients w)) = false).
      { destruct (existsb (Nat.eqb ws) (map snd (Ws.clients w))) eqn:E; [|reflexivity].
        apply existsb_exists in E. destruct E as (c & Hin & Heq).
        apply Nat.eqb_eq in Heq. subst c. contradiction. }
      rewrite He. lia. }
    split; [intros _; exact Hnot|].
    split; [exact Hwf|].
    intros u n. apply broadcast_other_socket.
    intros Hrec. apply recipient_open in Hrec. rewrite Hs in Hrec.
    destruct Hrec as [_ Hopen]. discriminate.
Qed.

Lemma close_unregisters_only_that_connection_witness :
  let t := Routes.sessionToken "your-secret-key" "u1" 0 in
  let w1 := Ws.onMessage "your-secret-key" 10 1 (Ws.Data "auth" (Some t)) sampleWs in
  let w2 := Ws.onMessage "your-secret-key" 20 2 (Ws.Data "auth" (Some t)) w1 in
  JsMap.get (Some "u1") (Ws.clients (Ws.onClose 1 w2)) = Some 2 /\
  Ws.clients (Ws.onClose 2 w2) = [].
Proof.
  intros t w1 w2.
  assert (Hwf : JsMap.wf (Ws.clients w2))
    by (repeat constructor; simpl; tauto).
  split.
  - apply (proj1 (proj2 (proj2 (proj2 (proj2
             (close_unregisters_only_that_connection 1 w2 Hwf)))))
             (Some "u1") 2 eq_refl).
    discriminate.
  - reflexivity.
Defined.

(** ** Any run of the websocket server *)

Section RegistryRuns.
Import Ws WsEvents.
Variable JWT_SECRET : string.

Lemma step_wf w e : JsMap.wf (clients w) -> JsMap.wf (clients (step JWT_SECRET w e)).
Proof.
  intros Hwf. destruct e as [ws | now ws frame | ws | userId notification]; simpl.
  - exact Hwf.
  - unfold onMessage. destruct frame as [|type [token|]]; try exact Hwf.
    destruct (String.eqb type "auth"); [|exact Hwf].
    destruct (Jwt.verify token JWT_SECRET now); simpl.
    + now apply wf_set.
    + now rewrite (proj1 (close_socket ws w)).
  - rewrite onClose_clients.
    destruct (firstKeyOf ws (JsMap.entries (clients w)));
      [now apply wf_delete_gen | exact Hwf].
  - unfold broadcastNotification.
    destruct (JsMap.get (Some userId) (clients w)); [|exact Hwf].
    now destruct (isOpen (readyState (sockets w c))).
Qed.

Lemma step_untouched c w e :
  authenticates JWT_SECRET c e = false -> untouched c w ->
  untouched c (step JWT_SECRET w e).
Proof.
  intros Ha [Hreg Hsent].
  destruct e as [ws | now ws frame | ws | userId notification]; simpl.
  - split; [exact Hreg|]. unfold onConnection. simpl. unfold updSocket.
    now destruct (Nat.eqb c ws).
  - unfold onMessage. destruct frame as [|type [token|]]; try now split.
    simpl in Ha.
    destruct (String.eqb type "auth"); [|now split].
    destruct (Jwt.verify token JWT_SECRET now) as [decoded|]; simpl.
    + rewrite andb_true_r, andb_true_r in Ha. apply Nat.eqb_neq in Ha.
      split; [|exact Hsent].
      unfold registered, JsMap.values. simpl. intros Hin.
      apply in_map_iff in Hin. destruct Hin as [[k c'] [Hc Hin]].
      simpl in Hc. subst c'. apply In_set_weak in Hin.
      destruct Hin as [[= _ ->]|Hin]; [congruence|].
      apply Hreg. unfold registered, JsMap.values.
      change c with (snd (k, c)). now apply in_map.
    + destruct (close_socket ws w) as (Hc & Ho & Hs & _).
      split.
      * unfold registered. now rewrite Hc.
      * destruct (Nat.eqb_spec c ws) as [->|Hne]; [now rewrite Hs|].
        now rewrite (Ho c Hne).
  - destruct (onClose_sockets ws w) as [Hs Ho]. split.
    + unfold registered, JsMap.values. rewrite onClose_clients.
      destruct (firstKeyOf ws (JsMap.entries (clients w))); [|exact Hreg].
      intros Hin. apply Hreg. unfold registered, JsMap.values.
      apply in_map_iff in Hin. destruct Hin as [e [He Hin]].
      apply In_delete_gen in Hin. rewrite <- He. now apply in_map.
    + destruct (Nat.eqb_spec c ws) as [->|Hne]; [now rewrite Hs|].
      now rewrite (Ho c Hne).
  - split.
    + unfold registered, broadcastNotification.
      destruct (JsMap.get (Some userId) (clients w)) as [client|]; [|exact Hreg].
      now destruct (isOpen (readyState (sockets w client))).
    + rewrite broadcast_other_socket; [exact Hsent|].
      intros Hrec. apply recipient_open in Hrec. destruct Hrec as [Hg _].
      apply Hreg. unfold registered, JsMap.values.
      apply get_In in Hg. change c with (snd (Some userId, c)). now apply in_map.
Qed.

Lemma run_wf es : forall w,
  JsMap.wf (clients w) -> JsMap.wf (clients (run JWT_SECRET es w)).
Proof.
  unfold run. induction es as [|e es IH]; intros w Hwf; simpl; [exact Hwf|].
  apply IH. now apply step_wf.
Qed.

Lemma run_untouched c es : forall w,
  existsb (authenticates JWT_SECRET c) es = false -> untouched c w ->
  untouched c (run JWT_SECRET es w).
Proof.
  unfold run. induction es as [|e es IH]; intros w Hnone Hw; simpl; [exact Hw|].
  simpl in Hnone. apply orb_false_iff in Hnone. destruct Hnone as [He Hes].
  apply IH; [exact Hes|]. now apply step_untouched.
Qed.

End RegistryRuns.

(** X18. After any sequence of connections, frames, closes and pushes on
    a new websocket server, the registry holds at most one connection per
    user id, and a connection that has sent no auth frame with a token
    that verifies is registered for nobody and has been sent no frame. *)
Theorem anonymous_connections_get_nothing :
  forall (secret : string) (es : list WsEvents.Event),
    let w := WsEvents.run secret es Ws.init in
    JsMap.wf (Ws.clients w) /\
    (forall userId, JsMap.count (Some userId) (Ws.clients w) <= 1) /\
    (forall c, existsb (WsEvents.authenticates secret c) es = false ->
               ~ In c (WsEvents.registered w) /\ Ws.sent (Ws.sockets w c) = []).
Proof.
  intros secret es w.
  assert (Hwf : JsMap.wf (Ws.clients w))
    by (apply run_wf; constructor).
  split; [exact Hwf|]. split.
  - intros userId. rewrite (count_wf _ _ Hwf).
    destruct (JsMap.has (Some userId) (Ws.clients w)); lia.
  - intros c Hnone. apply (run_untouched secret c es Ws.init Hnone).
    split; [intros [] | reflexivity].
Qed.

Lemma anonymous_connections_get_nothing_witness :
  let es := [WsEvents.Connection 1; WsEvents.Connection 2;
             WsEvents.Message 10 1
               (Ws.Data "auth" (Some (Routes.sessionToken "your-secret-key" "u1" 0)));
             WsEvents.Message 11 2 (Ws.Data "hello" None);
             WsEvents.Broadcast "u1" (Json.Str "news")] in
  let w := WsEvents.run "your-secret-key" es Ws.init in
  Ws.sent (Ws.sockets w 2) = [] /\
  Ws.sent (Ws.sockets w 1) = [Ws.notificationFrame (Json.Str "news")].
Proof.
  intros es w. split; [|reflexivity].
  apply (proj2 (proj2 (anonymous_connections_get_nothing "your-secret-key" es)) 2).
  reflexivity.
Defined.

(* ================================================================== *)
(** * The reconnecting client *)

Section Reconnect.
Import UseWebSocket.

Lemma delay_bounds n : 1 <= n -> (2000 <= delay n <= 30000)%Z.
Proof.
  intros Hn. unfold delay. split; [|apply Z.le_min_r].
  apply Z.min_glb; [|lia].
  assert (H : (2 ^ 1 <= 2 ^ Z.of_nat n)%Z) by (apply Z.pow_le_mono_r; lia).
  change (2 ^ 1)%Z with 2%Z in H. lia.
Qed.

Lemma delay_monotone n m : n <= m -> (delay n <= delay m)%Z.
Proof.
  intros Hnm. unfold delay. apply Z.min_le_compat_r.
  apply Z.mul_le_mono_nonneg_l; [lia|]. apply Z.pow_le_mono_r; lia.
Qed.

Lemma step_bounded h e : bounded h -> bounded (step h e).
Proof.
  intros [Ha Ht]. unfold bounded, maxReconnectAttempts in *. destruct e; simpl.
  - split; [lia | exact Ht].
  - unfold onclose, maxReconnectAttempts.
    destruct (Nat.ltb_spec (reconnectAttempts h) 5); simpl.
    + split; [lia|]. apply Forall_app. split; [exact Ht|].
      constructor; [apply delay_bounds; lia | constructor].
    + now split.
Qed.

Lemma run_bounded es : forall h, bounded h -> bounded (run es h).
Proof.
  unfold run. induction es as [|e es IH]; intros h Hb; simpl; [exact Hb|].
  apply IH. now apply step_bounded.
Qed.

Lemma closes_timers n : forall h,
  reconnectAttempts h <= maxReconnectAttempts ->
  length (timers (run (repeat Close n) h))
    = length (timers h) + Nat.min n (maxReconnectAttempts - reconnectAttempts h) /\
  reconnectAttempts (run (repeat Close n) h)
    = Nat.min (reconnectAttempts h + n) maxReconnectAttempts.
Proof.
  unfold run, maxReconnectAttempts. induction n as [|n IH]; intros h Hb.
  - simpl. split; lia.
  - change (fold_left step (repeat Close (S n)) h)
      with (fold_left step (repeat Close n) (onclose h)).
    assert (Hc : reconnectAttempts (onclose h) <= 5 /\
                 ((reconnectAttempts h < 5 /\
                   reconnectAttempts (onclose h) = S (reconnectAttempts h) /\
                   length (timers (onclose h)) = S (length (timers h))) \/
                  (reconnectAttempts h = 5 /\
                   reconnectAttempts (onclose h) = 5 /\
                   length (timers (onclose h)) = length (timers h)))).
    { unfold onclose, maxReconnectAttempts.
      destruct (Nat.ltb_spec (reconnectAttempts h) 5); simpl.
      - split; [lia|]. left. rewrite length_app. simpl. lia.
      - split; [lia|]. right. lia. }
    destruct Hc as [Hb' Hc].
    destruct (IH (onclose h) Hb') as [Hl Hr]. rewrite Hl, Hr.
    destruct Hc as [(H1 & H2 & H3) | (H1 & H2 & H3)]; rewrite H2, H3; split; lia.
Qed.

End Reconnect.

(** X19. Whatever sequence of open and close events the reconnecting
    client sees, its attempt counter never exceeds 5 and every reconnect
    it schedules waits between 2 and 30 seconds; the wait does not shrink
    as the attempt number grows; and from any state it reaches, [n]
    closes in a row schedule [min(n, 5 - attempts)] reconnects, so at most
    five until a connection opens again. *)
Theorem reconnect_is_bounded :
  forall (es : list UseWebSocket.Event),
    let h := UseWebSocket.run es UseWebSocket.init in
    UseWebSocket.reconnectAttempts h <= 5 /\
    Forall (fun d => 2000 <= d <= 30000)%Z (UseWebSocket.timers h) /\
    (forall n m, n <= m -> (UseWebSocket.delay n <= UseWebSocket.delay m)%Z) /\
    (forall n,
        length (UseWebSocket.timers (UseWebSocket.run (repeat UseWebSocket.Close n) h))
        = length (UseWebSocket.timers h)
          + Nat.min n (5 - UseWebSocket.reconnectAttempts h)) /\
    UseWebSocket.reconnectAttempts (UseWebSocket.onopen h) = 0.
Proof.
  intros es h.
  assert (Hb : UseWebSocket.bounded h).
  { apply run_bounded. split; [unfold UseWebSocket.maxReconnectAttempts; simpl; lia|].
    constructor. }
  destruct Hb as [Ha Ht].
  split; [exact Ha|]. split; [exact Ht|]. split; [apply delay_monotone|].
  split; [|reflexivity].
  intros n. apply (closes_timers n h Ha).
Qed.

Lemma reconnect_is_bounded_witness :
  let h := UseWebSocket.run
             [UseWebSocket.Close; UseWebSocket.Close; UseWebSocket.Open;
              UseWebSocket.Close]
             UseWebSocket.init in
  UseWebSocket.timers h = [2000; 4000; 2000]%Z /\
  (UseWebSocket.delay 4 <= UseWebSocket.delay 5)%Z /\
  UseWebSocket.delay 5 = 30000%Z.
Proof.
  intros h. split; [reflexivity|]. split; [|reflexivity].
  apply (proj1 (proj2 (proj2 (reconnect_is_bounded []))) 4 5). lia.
Defined.
